(** * near-ai-chat: the verification engine

    A shallow embedding of the verification core of the chat agent:
    - [src/lib/verification.ts]: [computeHash], the [backoff] table,
      [fetchSignature], [fetchAttestation];
    - the service module that [server.ts] imports as
      [./lib/verification-service], listed after the types in
      [src/types/verification.ts]: [validateSignature] and
      [VerificationService.verifyMessage];
    - [src/server.ts]: the detached verification task started by
      [onChatMessage].

    Strings are byte strings (the UTF-8 encoding of the JavaScript value),
    numbers are [Z], optional fields are [option]s.  Asynchronous code is
    written in a small monad over a virtual clock and a log of network
    requests and timer waits. *)

From Stdlib Require Import ZArith List String Ascii Bool Lia.
Import ListNotations.
Local Open Scope string_scope.
Local Open Scope Z_scope.

(* ================================================================== *)
(** ** JavaScript values used by the code *)

Module JS.

(** Truthiness of a string: the empty string is falsy. *)
Definition truthy_string (s : string) : bool :=
  negb (String.eqb s EmptyString).

(** [a || b] where [a] is an optional string field and [b] a string:
    the first operand when it is a non-empty string, else the second. *)
Definition or_string (a : option string) (b : string) : string :=
  match a with
  | Some s => if truthy_string s then s else b
  | None => b
  end.

(** [a || b] for two optional string fields; the result may be falsy. *)
Definition or_field (a b : option string) : option string :=
  match a with
  | Some s => if truthy_string s then Some s else b
  | None => b
  end.

(** [s.split(sep)] for a one-character separator: the pieces between the
    occurrences of [sep]; the empty string yields one empty piece. *)
Fixpoint split (sep : ascii) (s : string) : list string :=
  match s with
  | EmptyString => [EmptyString]
  | String c rest =>
      if Ascii.eqb c sep then EmptyString :: split sep rest
      else match split sep rest with
           | piece :: pieces => String c piece :: pieces
           | [] => [String c EmptyString]
           end
  end.

(** [pieces.join(sep)]. *)
Fixpoint join (sep : string) (pieces : list string) : string :=
  match pieces with
  | [] => EmptyString
  | [p] => p
  | p :: rest => p ++ sep ++ join sep rest
  end.

(** A thrown value: an [Error]-like object with a name and a message. *)
Record Error := mkError { name : string; message : string }.

(** [new Error(msg)]. *)
Definition newError (msg : string) : Error := mkError "Error" msg.

(** [String(e)] for an error object ([Error.prototype.toString]). *)
Definition String_ (e : Error) : string :=
  if negb (truthy_string (name e)) then message e
  else if negb (truthy_string (message e)) then name e
  else name e ++ ": " ++ message e.

(** [String(v)] for a variable that is either still [undefined] or holds a
    caught error. *)
Definition String_opt (v : option Error) : string :=
  match v with
  | Some e => String_ e
  | None => "undefined"
  end.

(** One hexadecimal digit, lowercase as [Number.prototype.toString] prints. *)
Definition hexDigit (d : Z) : ascii :=
  nth (Z.to_nat d)
      (list_ascii_of_string "0123456789abcdef") "0"%char.

(** [n.toString(16)] for a non-negative integer. *)
Fixpoint toString16_aux (fuel : nat) (n : Z) : string :=
  match fuel with
  | O => String (hexDigit (n mod 16)) EmptyString
  | S fuel' =>
      if n <? 16 then String (hexDigit n) EmptyString
      else toString16_aux fuel' (n / 16) ++ String (hexDigit (n mod 16)) EmptyString
  end.

Definition toString16 (n : Z) : string :=
  toString16_aux (Z.to_nat (Z.log2 n)) n.

(** [s.padStart(len, fill)] for a one-character [fill]. *)
Definition padStart (s : string) (len : nat) (fill : ascii) : string :=
  string_of_list_ascii (repeat fill (len - String.length s)) ++ s.

(** [n.toString()] (decimal) for an integer, as a template literal prints
    an HTTP status. *)
Fixpoint decimal_aux (fuel : nat) (n : Z) : string :=
  match fuel with
  | O => String (hexDigit (n mod 10)) EmptyString
  | S fuel' =>
      if n <? 10 then String (hexDigit n) EmptyString
      else decimal_aux fuel' (n / 10) ++ String (hexDigit (n mod 10)) EmptyString
  end.

Definition toString10 (n : Z) : string :=
  if n <? 0 then "-" ++ decimal_aux (Z.to_nat (Z.log2 (- n))) (- n)
  else decimal_aux (Z.to_nat (Z.log2 n)) n.

(** [new TextEncoder().encode(s)]: the bytes of the string. *)
Definition TextEncoder_encode (s : string) : list Z :=
  map (fun c => Z.of_N (N_of_ascii c)) (list_ascii_of_string s).

(** Truthiness of an optional string: defined and not empty. *)
Definition truthy_opt (a : option string) : bool :=
  match a with
  | Some s => truthy_string s
  | None => false
  end.

(** [s.startsWith(p)]. *)
Definition startsWith (s p : string) : bool := String.prefix p s.

(** [s.split(sep)] for a separator string that is not empty: the pieces
    between the occurrences of [sep], found from left to right; [skip]
    counts the characters of an occurrence still to pass over. *)
Fixpoint splitOn_from (sep : string) (skip : nat) (s : string) : list string :=
  match s with
  | EmptyString => [EmptyString]
  | String c rest =>
      match skip with
      | S k => splitOn_from sep k rest
      | O =>
          if String.prefix sep s
          then EmptyString :: splitOn_from sep (String.length sep - 1) rest
          else match splitOn_from sep 0 rest with
               | piece :: pieces => String c piece :: pieces
               | [] => [String c EmptyString]
               end
      end
  end.

Definition splitOn (sep : string) (s : string) : list string := splitOn_from sep 0 s.

(** The white space of the language ([WhiteSpace] and [LineTerminator],
    which [trim] removes and [\s] matches) in UTF-8: the ASCII characters
    U+0009 to U+000D and U+0020, the two bytes of U+00A0, and the three
    bytes of U+1680, U+2000 to U+200A, U+2028, U+2029, U+202F, U+205F,
    U+3000 and U+FEFF. *)
Definition space1 (c : ascii) : bool :=
  let n := nat_of_ascii c in
  (((9 <=? n) && (n <=? 13)) || (n =? 32))%nat.

Definition space2 (c1 c2 : ascii) : bool :=
  ((nat_of_ascii c1 =? 194) && (nat_of_ascii c2 =? 160))%nat.

Definition space3 (c1 c2 c3 : ascii) : bool :=
  let a := nat_of_ascii c1 in
  let b := nat_of_ascii c2 in
  let c := nat_of_ascii c3 in
  (((a =? 225) && (b =? 154) && (c =? 128))
   || ((a =? 226) && (b =? 128)
       && (((128 <=? c) && (c <=? 138)) || (c =? 168) || (c =? 169) || (c =? 175)))
   || ((a =? 226) && (b =? 129) && (c =? 159))
   || ((a =? 227) && (b =? 128) && (c =? 128))
   || ((a =? 239) && (b =? 187) && (c =? 191)))%nat.

(** The string after one leading white-space character, if it has one. *)
Definition dropSpace (s : string) : option string :=
  match s with
  | String c1 r1 =>
      if space1 c1 then Some r1
      else match r1 with
           | String c2 r2 =>
               if space2 c1 c2 then Some r2
               else match r2 with
                    | String c3 r3 => if space3 c1 c2 c3 then Some r3 else None
                    | EmptyString => None
                    end
           | EmptyString => None
           end
  | EmptyString => None
  end.

(** [s.trim()] is empty: the string is made of white space only. *)
Fixpoint isBlank (s : string) : bool :=
  match s with
  | EmptyString => true
  | String c1 r1 =>
      if space1 c1 then isBlank r1
      else match r1 with
           | String c2 r2 =>
               if space2 c1 c2 then isBlank r2
               else match r2 with
                    | String c3 r3 => if space3 c1 c2 c3 then isBlank r3 else false
                    | EmptyString => false
                    end
           | EmptyString => false
           end
  end.

(** [s.slice(n)] for [n] within the string. *)
Fixpoint slice (n : nat) (s : string) : string :=
  match n, s with
  | O, _ => s
  | S n', String _ rest => slice n' rest
  | S _, EmptyString => EmptyString
  end.

(** [s.lastIndexOf(sep)] for a separator that is not empty; [None] is -1. *)
Fixpoint lastIndexOf (sep : string) (s : string) : option nat :=
  match s with
  | EmptyString => None
  | String _ rest =>
      match lastIndexOf sep rest with
      | Some i => Some (S i)
      | None => if String.prefix sep s then Some O else None
      end
  end.

End JS.

(* ================================================================== *)
(** ** The platform's digest: [crypto.subtle.digest("SHA-256", _)] *)

Module SHA256.

Definition w32 (x : Z) : Z := x mod 2 ^ 32.
Definition add32 (x y : Z) : Z := w32 (x + y).
Definition rotr (n x : Z) : Z :=
  Z.lor (Z.shiftr x n) (w32 (Z.shiftl x (32 - n))).
Definition not32 (x : Z) : Z := Z.lxor x 0xffffffff.
Definition xor3 (x y z : Z) : Z := Z.lxor (Z.lxor x y) z.

Definition Ch (x y z : Z) : Z := Z.lxor (Z.land x y) (Z.land (not32 x) z).
Definition Maj (x y z : Z) : Z := xor3 (Z.land x y) (Z.land x z) (Z.land y z).
Definition bigSigma0 (x : Z) : Z := xor3 (rotr 2 x) (rotr 13 x) (rotr 22 x).
Definition bigSigma1 (x : Z) : Z := xor3 (rotr 6 x) (rotr 11 x) (rotr 25 x).
Definition smallSigma0 (x : Z) : Z := xor3 (rotr 7 x) (rotr 18 x) (Z.shiftr x 3).
Definition smallSigma1 (x : Z) : Z := xor3 (rotr 17 x) (rotr 19 x) (Z.shiftr x 10).

(** The constants are the first 32 bits of the fractional parts of the
    cube roots (round constants) and square roots (initial value) of the
    first primes. *)
Definition isPrime (n : nat) : bool :=
  forallb (fun d => negb (n mod d =? 0)%nat) (seq 2 (n - 2)).

Definition firstPrimes (count : nat) : list Z :=
  map Z.of_nat (firstn count (filter isPrime (seq 2 400))).

(** The integer cube root, bit by bit from the top. *)
Fixpoint cubeRoot (bits : nat) (n r : Z) : Z :=
  match bits with
  | O => r
  | S bits' =>
      let c := r + 2 ^ Z.of_nat bits' in
      cubeRoot bits' n (if c * c * c <=? n then c else r)
  end.

Definition fractionOfCubeRoot (p : Z) : Z := cubeRoot 40 (p * 2 ^ 96) 0 mod 2 ^ 32.

Definition fractionOfSquareRoot (p : Z) : Z := Z.sqrt (p * 2 ^ 64) mod 2 ^ 32.

Definition K : list Z :=
  Eval vm_compute in map fractionOfCubeRoot (firstPrimes 64).

(** The eight working words. *)
Record Regs := mkRegs { ra : Z; rb : Z; rc : Z; rd : Z; re : Z; rf : Z; rg : Z; rh : Z }.

Definition regsOfList (l : list Z) : Regs :=
  let x j := nth j l 0 in
  mkRegs (x 0%nat) (x 1%nat) (x 2%nat) (x 3%nat) (x 4%nat) (x 5%nat) (x 6%nat) (x 7%nat).

Definition H0 : Regs :=
  Eval vm_compute in regsOfList (map fractionOfSquareRoot (firstPrimes 8)).

(** One round, with round constant [k] and schedule word [w]. *)
Definition round (r : Regs) (k w : Z) : Regs :=
  let t1 := add32 (add32 (add32 (add32 (rh r) (bigSigma1 (re r)))
                                 (Ch (re r) (rf r) (rg r))) k) w in
  let t2 := add32 (bigSigma0 (ra r)) (Maj (ra r) (rb r) (rc r)) in
  mkRegs (add32 t1 t2) (ra r) (rb r) (rc r) (add32 (rd r) t1) (re r) (rf r) (rg r).

(** The message schedule as a sliding window of sixteen words: the head is
    the word of the current round. *)
Definition slide (win : list Z) : list Z :=
  let w j := nth j win 0 in
  tl win ++ [add32 (add32 (add32 (smallSigma1 (w 14%nat)) (w 9%nat))
                          (smallSigma0 (w 1%nat))) (w 0%nat)].

Fixpoint rounds (ks : list Z) (win : list Z) (r : Regs) : Regs :=
  match ks with
  | [] => r
  | k :: ks' => rounds ks' (slide win) (round r k (hd 0 win))
  end.

Definition compress (h : Regs) (block : list Z) : Regs :=
  let r := rounds K block h in
  mkRegs (add32 (ra h) (ra r)) (add32 (rb h) (rb r)) (add32 (rc h) (rc r))
         (add32 (rd h) (rd r)) (add32 (re h) (re r)) (add32 (rf h) (rf r))
         (add32 (rg h) (rg r)) (add32 (rh h) (rh r)).

(** Big-endian words of a byte sequence. *)
Fixpoint words (bs : list Z) : list Z :=
  match bs with
  | b0 :: b1 :: b2 :: b3 :: rest =>
      (b0 * 2 ^ 24 + b1 * 2 ^ 16 + b2 * 2 ^ 8 + b3) :: words rest
  | _ => []
  end.

Definition wordBytes (w : Z) : list Z :=
  [ (w / 2 ^ 24) mod 256; (w / 2 ^ 16) mod 256; (w / 2 ^ 8) mod 256; w mod 256 ].

(** Padding: a one bit, zeros up to 56 modulo 64, the bit length on 64 bits. *)
Definition pad (msg : list Z) : list Z :=
  let len := Z.of_nat (List.length msg) in
  let zeros := Z.to_nat ((55 - len) mod 64) in
  msg ++ [0x80] ++ repeat 0 zeros
      ++ wordBytes ((8 * len) / 2 ^ 32) ++ wordBytes ((8 * len) mod 2 ^ 32).

Fixpoint blocks (n : nat) (ws : list Z) (h : Regs) : Regs :=
  match n with
  | O => h
  | S n' => blocks n' (skipn 16 ws) (compress h (firstn 16 ws))
  end.

(** The 32 bytes of the digest. *)
Definition digest (msg : list Z) : list Z :=
  let ws := words (pad msg) in
  let h := blocks (List.length ws / 16) ws H0 in
  wordBytes (ra h) ++ wordBytes (rb h) ++ wordBytes (rc h) ++ wordBytes (rd h)
    ++ wordBytes (re h) ++ wordBytes (rf h) ++ wordBytes (rg h) ++ wordBytes (rh h).

End SHA256.

(* ================================================================== *)
(** ** [src/lib/verification.ts]: the hasher *)

(** [computeHash]: SHA-256 of the encoded string, each byte printed as two
    lowercase hexadecimal digits. *)
Definition computeHash (data : string) : string :=
  let enc := JS.TextEncoder_encode data in
  let digest := SHA256.digest enc in
  let bytes := digest in
  JS.join EmptyString (map (fun b => JS.padStart (JS.toString16 b) 2 "0"%char) bytes).

(** The two-newline suffix of the signing convention. *)
Definition nl2 : string := String "010"%char (String "010"%char EmptyString).

(* ================================================================== *)
(** ** [src/types/verification.ts]: the records *)

Record NrasResult := mkNrasResult {
  nras_success : bool;
  nras_message : option string
}.

Record SignatureResponse := mkSignatureResponse {
  sig_chatId : option string;
  sig_model : string;
  signature : string;
  signedHash : option string;        (* hash that was signed (legacy) *)
  text : option string;              (* "req:res" *)
  signerPublicKey : option string;   (* legacy *)
  signing_address : option string;
  algorithm : option string;
  signing_algo : option string;
  timestamp : option string;
  sig_nrasResult : option NrasResult
}.

(** The structured sub-documents ([claims], [nvidia_payload],
    [all_attestations]) are never read by the engine and are left out. *)
Record AttestationResponse := mkAttestationResponse {
  att_model : string;
  attestationDocument : option string;
  jwt : option string;
  enclaveIdentity : option string;
  att_signing_address : option string;
  intel_quote : option string;
  att_nrasResult : option NrasResult
}.

(** [fetchedAt] holds the clock reading in milliseconds; the source stores
    its ISO-8601 rendering. *)
Record VerificationData := mkVerificationData {
  chatId : string;
  model : string;
  requestHash : string;
  responseHash : string;
  vsignature : option SignatureResponse;
  attestation : option AttestationResponse;
  verified : bool;
  fetchedAt : option Z;
  error : option string
}.

Inductive VerificationStatus := pending | verifiedStatus | failed.

Record MessageMetadata := mkMessageMetadata {
  createdAt : option string;
  verification : option VerificationData;
  verificationStatus : option VerificationStatus
}.

(* ================================================================== *)
(** ** Asynchronous code over a virtual clock *)

Inductive Endpoint := SignatureEndpoint | AttestationEndpoint.

(** What the engine does that is visible outside: a request to one of the
    two endpoints, or a timer wait, each with the time it starts at. *)
Inductive Event :=
| Request (to : Endpoint) (at_ms : Z)
| Wait (ms : Z) (at_ms : Z).

Record World := mkWorld {
  now : Z;                 (* the clock, in ms *)
  log : list Event         (* oldest first *)
}.

Definition isRequestTo (ep : Endpoint) (ev : Event) : bool :=
  match ev, ep with
  | Request SignatureEndpoint _, SignatureEndpoint => true
  | Request AttestationEndpoint _, AttestationEndpoint => true
  | _, _ => false
  end.

(** The number of requests sent to an endpoint. *)
Definition requestsTo (ep : Endpoint) (l : list Event) : nat :=
  List.length (filter (isRequestTo ep) l).

(** The time waited on timers, in ms. *)
Fixpoint waited (l : list Event) : Z :=
  match l with
  | [] => 0
  | Wait ms _ :: l' => ms + waited l'
  | Request _ _ :: l' => waited l'
  end.

(** An event without its time. *)
Definition untimed (ev : Event) : Event :=
  match ev with
  | Request ep _ => Request ep 0
  | Wait ms _ => Wait ms 0
  end.

(** How one [fetch] call ends. *)
Inductive Reply (A : Type) :=
| NetworkFailure (latency : N) (e : JS.Error)      (* the promise rejects *)
| HttpResponse (latency : N) (ok : bool) (status : Z) (body : JS.Error + A)
                                                    (* [res.ok], [res.status], [res.json()] *)
| NeverSettles.
Arguments NetworkFailure {A}.
Arguments HttpResponse {A}.
Arguments NeverSettles {A}.

(** The remote authority: the reply to the n-th request to each endpoint. *)
Record Network := mkNetwork {
  signatureReply : nat -> Reply SignatureResponse;
  attestationReply : nat -> Reply AttestationResponse
}.

(** How a promise ends. *)
Inductive Outcome (A : Type) :=
| Fulfilled (a : A) (w : World)
| RejectedWith (e : JS.Error) (w : World)
| Unsettled (w : World).
Arguments Fulfilled {A}.
Arguments RejectedWith {A}.
Arguments Unsettled {A}.

Definition Async (A : Type) : Type := World -> Outcome A.

Definition ret {A} (a : A) : Async A := fun w => Fulfilled a w.

Definition throw {A} (e : JS.Error) : Async A := fun w => RejectedWith e w.

(** [await m] followed by [k]. *)
Definition bind {A B} (m : Async A) (k : A -> Async B) : Async B :=
  fun w =>
    match m w with
    | Fulfilled a w' => k a w'
    | RejectedWith e w' => RejectedWith e w'
    | Unsettled w' => Unsettled w'
    end.

(** [try { m } catch (e) { h e }]. *)
Definition try_catch {A} (m : Async A) (h : JS.Error -> Async A) : Async A :=
  fun w =>
    match m w with
    | Fulfilled a w' => Fulfilled a w'
    | RejectedWith e w' => h e w'
    | Unsettled w' => Unsettled w'
    end.

Declare Scope async_scope.
Delimit Scope async_scope with async.
Notation "x <- m ;; k" := (bind m (fun x => k))
  (at level 61, m at next level, right associativity) : async_scope.
Notation "m ;;; k" := (bind m (fun _ => k))
  (at level 61, right associativity) : async_scope.
Local Open Scope async_scope.

Definition outcomeWorld {A} (o : Outcome A) : World :=
  match o with
  | Fulfilled _ w => w
  | RejectedWith _ w => w
  | Unsettled w => w
  end.

(** [await new Promise((r) => setTimeout(r, ms))]. *)
Definition sleep (ms : Z) : Async unit :=
  fun w => Fulfilled tt (mkWorld (now w + ms) (log w ++ [Wait ms (now w)])).

(** [new Date()]. *)
Definition Date_now : Async Z := fun w => Fulfilled (now w) w.

Record Response (A : Type) := mkResponse {
  ok : bool;
  status : Z;
  body : JS.Error + A
}.
Arguments mkResponse {A}.
Arguments ok {A}.
Arguments status {A}.
Arguments body {A}.

(** [await res.json()]. *)
Definition json {A} (res : Response A) : Async A :=
  match body res with
  | inl e => throw e
  | inr a => ret a
  end.

(** The promise of a request once it is on the wire. *)
Definition settle {A} (r : Reply A) (w : World) : Outcome (Response A) :=
  match r with
  | NetworkFailure latency e =>
      RejectedWith e (mkWorld (now w + Z.of_N latency) (log w))
  | HttpResponse latency o s b =>
      Fulfilled (mkResponse o s b) (mkWorld (now w + Z.of_N latency) (log w))
  | NeverSettles => Unsettled w
  end.

(** [await fetch(url, ...)] on an endpoint whose n-th request is answered
    by [reply n]. *)
Definition fetch_endpoint {A} (ep : Endpoint) (reply : nat -> Reply A)
  : Async (Response A) :=
  fun w =>
    settle (reply (requestsTo ep (log w)))
           (mkWorld (now w) (log w ++ [Request ep (now w)])).

Record UIMessage := mkUIMessage {
  id : string;
  role : string;
  parts : string;                       (* the text part *)
  metadata : option MessageMetadata
}.

(** How [Promise.race] ends: with a value or an error, and when. *)
Inductive Settled (A : Type) :=
| Resolved (a : A) (at_ms : Z)
| Rejected (e : JS.Error) (at_ms : Z).
Arguments Resolved {A}.
Arguments Rejected {A}.

Section Engine.

Variable net : Network.

(* ------------------------------------------------------------------ *)
(** ** [src/lib/verification.ts]: the evidence fetcher *)

Record BackoffConfig := mkBackoffConfig {
  attempts : nat;
  delays : list Z  (* ms *)
}.

Definition backoff : BackoffConfig :=
  mkBackoffConfig 5 [5000; 10000; 15000; 20000; 30000].

(** The body of the [try] block of one loop iteration; [failed] is the
    text before the status in the thrown message. *)
Definition attempt {A} (request : Async (Response A)) (failed : string) : Async A :=
  res <- request ;;
  if negb (ok res)
  then throw (JS.newError (failed ++ JS.toString10 (status res)))
  else json res.

(** The [for] loop, written the same way in both fetchers, by the number of
    iterations still to run: the loop variable [i] is
    [attempts - remaining].  Falling out of the loop throws. *)
Fixpoint retryLoop {A} (request : Async (Response A)) (failed exhausted : string)
         (remaining : nat) (lastError : option JS.Error) : Async A :=
  match remaining with
  | O => throw (JS.newError (exhausted ++ JS.String_opt lastError))
  | S remaining' =>
      let i := (attempts backoff - remaining)%nat in
      try_catch
        (attempt request failed)
        (fun e =>
           (if (i <? attempts backoff - 1)%nat
            then sleep (nth i (delays backoff) 0)
            else ret tt) ;;;
           retryLoop request failed exhausted remaining' (Some e))
  end.

Definition fetchSignature (chatId model apiKey : string) : Async SignatureResponse :=
  retryLoop (fetch_endpoint SignatureEndpoint (signatureReply net))
            "Signature fetch failed: "
            "Failed to fetch signature after retries: "
            (attempts backoff) None.

Definition fetchAttestation (model apiKey : string) : Async AttestationResponse :=
  retryLoop (fetch_endpoint AttestationEndpoint (attestationReply net))
            "Attestation fetch failed: "
            "Failed to fetch attestation after retries: "
            (attempts backoff) None.

(* ------------------------------------------------------------------ *)
(** ** The service module ([./lib/verification-service]): validator and
    orchestrator *)

(** [ethers.verifyMessage(message, signature)]: the address recovered from
    the signature over the message, [None] when the call throws. *)
Variable ethers_verifyMessage : string -> string -> option string.

(** [String.prototype.toLowerCase]. *)
Variable toLowerCase : string -> string.

(** [sig.text || sig.signedHash || expectedHash]. *)
Definition signedPayload (sig : SignatureResponse) (expectedHash : string) : string :=
  JS.or_string (text sig) (JS.or_string (signedHash sig) expectedHash).

(** [sig.signing_address || sig.signerPublicKey || sig.signerPublicKey]. *)
Definition expectedAddr (sig : SignatureResponse) : option string :=
  JS.or_field (signing_address sig)
              (JS.or_field (signerPublicKey sig) (signerPublicKey sig)).

Definition validateSignature (sig : option SignatureResponse) (expectedHash : string) : bool :=
  match sig with
  | None => false
  | Some sig =>
      match ethers_verifyMessage (signedPayload sig expectedHash) (signature sig) with
      | Some recovered =>
          match expectedAddr sig with
          | Some addr =>
              if JS.truthy_string addr
                 && String.eqb (toLowerCase recovered) (toLowerCase addr)
              then true
              else false
          | None => false
          end
      | None => false   (* catch (_e): ignore *)
      end
  end.

Record Params := mkParams {
  p_chatId : string;
  p_requestBody : string;   (* [JSON.stringify(requestBody)] *)
  p_responseText : string;
  p_model : string;
  p_apiKey : string
}.

(** The four local hashes of one exchange. *)
Record Hashes := mkHashes {
  requestHashWithNewlines : string;
  requestHashNoNewlines : string;
  responseHashWithNewlines : string;
  responseHashNoNewlines : string
}.

Definition localHashes (params : Params) : Hashes :=
  mkHashes (computeHash (p_requestBody params ++ nl2))
           (computeHash (p_requestBody params))
           (computeHash (p_responseText params ++ nl2))
           (computeHash (p_responseText params)).

(** [signature?.text]. *)
Definition reportedText (sig : option SignatureResponse) : option string :=
  match sig with
  | Some s => text s
  | None => None
  end.

(** The choice of [requestHash] and [responseHash] made between the two
    fetches and the validation. *)
Definition reconcile (h : Hashes) (sig : option SignatureResponse) : string * string :=
  let requestHash := requestHashWithNewlines h in
  let responseHash := responseHashWithNewlines h in
  match reportedText sig with
  | Some t =>
      if JS.truthy_string t then
        let parts := JS.split ":" t in
        if (List.length parts =? 2)%nat then
          let sigReq := nth 0 parts EmptyString in
          let sigRes := nth 1 parts EmptyString in
          let matchesWith :=
            String.eqb sigReq (requestHashWithNewlines h)
            && String.eqb sigRes (responseHashWithNewlines h) in
          let matchesWithout :=
            String.eqb sigReq (requestHashNoNewlines h)
            && String.eqb sigRes (responseHashNoNewlines h) in
          if matchesWith then (requestHashWithNewlines h, responseHashWithNewlines h)
          else if matchesWithout then (requestHashNoNewlines h, responseHashNoNewlines h)
          else (sigReq, sigRes)
        else (requestHash, responseHash)
      else (requestHash, responseHash)
  | None => (requestHash, responseHash)
  end.

(** The first [try]: the signature and the error text after it. *)
Definition trySignature (params : Params)
  : Async (option SignatureResponse * option string) :=
  try_catch
    (s <- fetchSignature (p_chatId params) (p_model params) (p_apiKey params) ;;
     ret (Some s, None))
    (fun e => ret (None, Some ("signature-fetch-failed: " ++ JS.String_ e))).

(** The second [try]: the attestation and the error text after it. *)
Definition tryAttestation (params : Params) (error : option string)
  : Async (option AttestationResponse * option string) :=
  try_catch
    (a <- fetchAttestation (p_model params) (p_apiKey params) ;;
     ret (Some a, error))
    (fun e =>
       ret (None,
            Some (match error with
                  | Some err =>
                      if JS.truthy_string err
                      then err ++ "; attestation-fetch-failed: " ++ JS.String_ e
                      else "attestation-fetch-failed: " ++ JS.String_ e
                  | None => "attestation-fetch-failed: " ++ JS.String_ e
                  end))).

(** What [verifyMessage] computes once both fetches have settled. *)
Definition verdict (params : Params) (sig : option SignatureResponse)
           (att : option AttestationResponse) (error : option string)
           (fetchedAt : Z) : VerificationData :=
  let '(requestHash, responseHash) := reconcile (localHashes params) sig in
  let concatenated := requestHash ++ ":" ++ responseHash in
  let verified :=
    validateSignature sig concatenated
    && match att with Some _ => true | None => false end in
  mkVerificationData (p_chatId params) (p_model params) requestHash responseHash
                     sig att verified (Some fetchedAt) error.

(** [verifyMessage], for a request body that [JSON.stringify] has turned
    into the text [p_requestBody] and for reply bodies that are records of
    the declared types: the calls outside the two [try] blocks
    ([JSON.stringify], [signature.text.split]) do not throw on these. *)
Definition verifyMessage (params : Params) : Async VerificationData :=
  se <- trySignature params ;;
  ae <- tryAttestation params (snd se) ;;
  t <- Date_now ;;
  ret (verdict params (fst se) (fst ae) (snd ae) t).

(* ------------------------------------------------------------------ *)
(** ** [src/server.ts]: the detached verification task *)

Definition NEAR_MODEL : string := "openai/gpt-oss-120b".

(** [Promise.race([p, new Promise((_, reject) => setTimeout(() =>
    reject(e), ms))])]: the timer is set when the race starts, and [p]
    wins when it settles strictly before the timer fires. *)
Definition raceTimeout {A} (p : Async A) (e : JS.Error) (ms : Z) (w : World)
  : Settled A :=
  let deadline := now w + ms in
  match p w with
  | Fulfilled a w' =>
      if now w' <? deadline then Resolved a (now w') else Rejected e deadline
  | RejectedWith e' w' =>
      if now w' <? deadline then Rejected e' (now w') else Rejected e deadline
  | Unsettled _ => Rejected e deadline
  end.

(** [(m.metadata as any) || {}]. *)
Definition metadataOrEmpty (m : UIMessage) : MessageMetadata :=
  match metadata m with
  | Some md => md
  | None => mkMessageMetadata None None None
  end.

(** The [map] of the [try] branch: the message gets the record and the
    status that follows from [data.verified]. *)
Definition storeVerification (messageId : string) (data : VerificationData)
           (messages : list UIMessage) : list UIMessage :=
  map (fun m =>
         if String.eqb (id m) messageId
         then mkUIMessage (id m) (role m) (parts m)
                (Some (mkMessageMetadata
                         (createdAt (metadataOrEmpty m))
                         (Some data)
                         (Some (if verified data then verifiedStatus else failed))))
         else m)
      messages.

(** The [map] of the [catch] branch: the fields listed in the source
    overwrite those of the record already stored, if any. *)
Definition storeFailure (messageId : string) (e : JS.Error) (chatId : string)
           (requestHash responseHash : string) (fetchedAt : Z)
           (messages : list UIMessage) : list UIMessage :=
  map (fun m =>
         if String.eqb (id m) messageId
         then
           let previous := verification (metadataOrEmpty m) in
           mkUIMessage (id m) (role m) (parts m)
             (Some (mkMessageMetadata
                      (createdAt (metadataOrEmpty m))
                      (Some (mkVerificationData
                               chatId NEAR_MODEL requestHash responseHash
                               (match previous with Some v => vsignature v | None => None end)
                               (match previous with Some v => attestation v | None => None end)
                               false
                               (Some fetchedAt)
                               (Some (JS.String_ e))))
                      (Some failed)))
         else m)
      messages.

Definition verificationTimeoutMs : Z := 30000.

(** The task started after the stream has finished: [messages] is
    [this.messages] when the race is over.  Nothing is started when the
    chat id or the key is missing. *)
Definition verificationTask (chatId : option string) (apiKey : string)
           (requestBody streamedText : string) (messageId : string)
           (w : World) (messages : list UIMessage) : list UIMessage :=
  match chatId with
  | Some c =>
      if JS.truthy_string c && JS.truthy_string apiKey then
        match raceTimeout
                (verifyMessage (mkParams c requestBody streamedText NEAR_MODEL apiKey))
                (JS.newError "verification-timeout")
                verificationTimeoutMs w
        with
        | Resolved data _ => storeVerification messageId data messages
        | Rejected e t =>
            let requestHash := computeHash (requestBody ++ nl2) in
            let responseHash := computeHash (streamedText ++ nl2) in
            storeFailure messageId e (JS.or_string (Some c) EmptyString)
                         requestHash responseHash t messages
        end
      else messages
  | None => messages
  end.

End Engine.

(* ------------------------------------------------------------------ *)
(** ** [src/server.ts]: the request handler of the worker *)

(** What the handler answers: the JSON bodies of its three [Response.json]
    calls, or the hand-over to the agent router. *)
Inductive HandlerReply :=
| KeyCheck (success : bool)
| StatusFound (messageId : option string) (verificationStatus : string)
              (verification : option VerificationData)
| StatusUnknown (messageId : option string)
| ToAgentRouter.

(** The status as the JSON text that is stored and sent. *)
Definition statusText (st : VerificationStatus) : string :=
  match st with
  | pending => "pending"
  | verifiedStatus => "verified"
  | failed => "failed"
  end.

(** [fetch]: [pathname] is [url.pathname], [keyEnv] is
    [process.env.NEARAI_CLOUD_API_KEY], [lastChatAgent] is the list of
    messages of [globalThis.__lastChatAgent], if there is one. *)
Definition fetchHandler (pathname : string) (keyEnv : option string)
           (lastChatAgent : option (list UIMessage)) : HandlerReply :=
  if String.eqb pathname "/check-near-ai-key" then
    KeyCheck (JS.truthy_opt keyEnv)
  else if JS.startsWith pathname "/api/verification/" then
    let messageId := nth_error (JS.splitOn "/api/verification/" pathname) 1 in
    match lastChatAgent with
    | Some messages =>
        match match messageId with
              | Some i => find (fun m => String.eqb (id m) i) messages
              | None => None
              end
        with
        | Some msg =>
            StatusFound messageId
              (match metadata msg with
               | Some md =>
                   match verificationStatus md with
                   | Some st => statusText st
                   | None => "unknown"
                   end
               | None => "unknown"
               end)
              (match metadata msg with
               | Some md => verification md
               | None => None
               end)
        | None => StatusUnknown messageId
        end
    | None => StatusUnknown messageId
    end
  else ToAgentRouter.

(* ================================================================== *)
(** ** The client of the chat completions endpoint ([./lib/near-ai]) *)

Module NearAI.

Definition DEFAULT_MODEL : string := "openai/gpt-oss-120b".

Definition newline : ascii := "010"%char.

Definition isDataLine (l : string) : bool := JS.startsWith l "data:".

(** [l.replace(/^data:\s?/, "")]. *)
Definition stripData (l : string) : string :=
  if JS.startsWith l "data:" then
    let rest := JS.slice 5 l in
    match JS.dropSpace rest with
    | Some rest' => rest'
    | None => rest
    end
  else l.

(** The events that one part of the buffer contributes. *)
Definition eventsOfPart (part : string) : list string :=
  if JS.isBlank part then []
  else
    let dataLines := map stripData (filter isDataLine (JS.split newline part)) in
    match dataLines with
    | [] => []
    | _ :: _ => [JS.join (String newline EmptyString) dataLines]
    end.

(** [parseSSE]: the data payloads of the events of the buffer. *)
Definition parseSSE (buffer : string) : list string :=
  let parts := JS.splitOn nl2 buffer in
  flat_map eventsOfPart parts.

(** A value that [JSON.parse] returns.  The members of an object are
    listed with one entry per key. *)
#[local] Unset Elimination Schemes.
Inductive Json :=
| JNull
| JBool (b : bool)
| JNumber (n : Z)
| JString (s : string)
| JArray (items : list Json)
| JObject (members : list (string * Json)).
#[local] Set Elimination Schemes.

Fixpoint lookup (key : string) (members : list (string * Json)) : option Json :=
  match members with
  | [] => None
  | (k, v) :: rest => if String.eqb k key then Some v else lookup key rest
  end.

(** [v?.[key]] for one of the names the client reads: only an object has
    such a member. *)
Definition member (key : string) (v : Json) : option Json :=
  match v with
  | JObject members => lookup key members
  | _ => None
  end.

(** The first character of a string, with its continuation bytes. *)
Fixpoint continuation (s : string) : string :=
  match s with
  | String c rest =>
      if ((128 <=? nat_of_ascii c) && (nat_of_ascii c <=? 191))%nat
      then String c (continuation rest)
      else EmptyString
  | EmptyString => EmptyString
  end.

(** [v?.[0]]: the first item of an array, the member "0" of an object, the
    first character of a string. *)
Definition first (v : Json) : option Json :=
  match v with
  | JArray items => hd_error items
  | JObject members => lookup "0" members
  | JString (String c rest) => Some (JString (String c (continuation rest)))
  | _ => None
  end.

(** [a?.b]: the access is made only on a value that is there. *)
Definition andThen (v : option Json) (access : Json -> option Json) : option Json :=
  match v with
  | Some x => access x
  | None => None
  end.

(** [typeof c === "string" && c.trim().length > 0]. *)
Definition isUsableId (c : option Json) : bool :=
  match c with
  | Some (JString s) => negb (JS.isBlank s)
  | _ => false
  end.

Definition extractChatId (payload : Json) : option string :=
  match payload with
  | JArray _ | JObject _ =>
      let obj := payload in
      let candidates :=
        [ member "chat_id" obj;
          member "chatId" obj;
          member "id" obj;
          andThen (member "response" obj) (member "chat_id");
          andThen (member "response" obj) (member "id");
          andThen (andThen (member "choices" obj) first) (member "id") ] in
      match find isUsableId candidates with
      | Some (Some (JString found)) =>
          if JS.truthy_string found then Some found else None
      | _ => None
      end
  | _ => None
  end.

Record ChatMessage := mkChatMessage { cm_role : string; cm_content : string }.

Record StreamChatCompletionParams := mkStreamParams {
  sp_messages : list ChatMessage;
  sp_apiKey : string;
  sp_model : option string
}.

(** The response of the endpoint as the client reads it: [hs_text] is what
    [resp.text()] yields ([None] when it rejects), [hs_header] is
    [resp.headers.get], [hs_body] lists the values that
    [reader.read()] yields before the stream is done, each one decoded
    ([None] for a read without value), and is [None] when there is no
    body. *)
Record HttpStream := mkHttpStream {
  hs_ok : bool;
  hs_status : Z;
  hs_statusText : string;
  hs_text : option string;
  hs_header : string -> option string;
  hs_body : option (list (option string))
}.

Record StreamChatCompletionResult := mkStreamResult {
  r_chatId : option string;
  r_requestBody : Json;
  r_responseText : string
}.

(** The variables of the reading loop, and the tokens handed to [onToken],
    oldest first. *)
Record LoopState := mkLoopState {
  l_chatId : option string;
  l_responseText : string;
  l_sseBuffer : string;
  l_tokens : list string
}.

Section Stream.

(** [JSON.parse]: [None] when it throws. *)
Variable JSON_parse : string -> option Json.

(** [responseText += token; onToken?.(token)] for a value that is a string
    and not empty. *)
Definition emit (content : option Json) (st : LoopState) : LoopState :=
  match content with
  | Some (JString token) =>
      if JS.truthy_string token
      then mkLoopState (l_chatId st) (l_responseText st ++ token) (l_sseBuffer st)
                       (l_tokens st ++ [token])
      else st
  | _ => st
  end.

(** The body of the loop over the events of one chunk. *)
Definition handleEvent (st : LoopState) (ev : string) : LoopState :=
  if String.eqb ev "[DONE]" then st
  else
    match JSON_parse ev with
    | Some json =>
        let st1 :=
          if negb (JS.truthy_opt (l_chatId st)) then
            match extractChatId json with
            | Some extracted =>
                if JS.truthy_string extracted
                then mkLoopState (Some extracted) (l_responseText st) (l_sseBuffer st)
                                 (l_tokens st)
                else st
            | None => st
            end
          else st in
        let deltaContent :=
          andThen (andThen (andThen (member "choices" json) first) (member "delta"))
                  (member "content") in
        let st2 := emit deltaContent st1 in
        let contentBlock :=
          andThen (andThen (member "content" json) first) (member "text") in
        emit contentBlock st2
    | None => st   (* catch (_e): not JSON, ignored *)
    end.

(** One turn of the reading loop on the value of a read. *)
Definition readValue (st : LoopState) (value : option string) : LoopState :=
  match value with
  | None => st
  | Some chunk =>
      let buffer := l_sseBuffer st ++ chunk in
      let events := parseSSE buffer in
      let rest :=
        match JS.lastIndexOf nl2 buffer with
        | Some lastDoubleNewlineIndex => JS.slice (lastDoubleNewlineIndex + 2) buffer
        | None => buffer
        end in
      fold_left handleEvent events
                (mkLoopState (l_chatId st) (l_responseText st) rest (l_tokens st))
  end.

(** The chat id found in the headers of the response. *)
Definition headerChatId (header : string -> option string) : option string :=
  let chatIdHeader := JS.or_field (header "x-chat-id") (header "chat-id") in
  if JS.truthy_opt chatIdHeader then chatIdHeader
  else
    let headerFallback := JS.or_field (header "x-request-id") (header "request-id") in
    if JS.truthy_opt headerFallback then headerFallback else None.

Definition requestBodyOf (params : StreamChatCompletionParams) : Json :=
  let model := match sp_model params with Some m => m | None => DEFAULT_MODEL end in
  JObject [ ("model", JString model);
            ("messages",
             JArray (map (fun m => JObject [ ("role", JString (cm_role m));
                                             ("content", JString (cm_content m)) ])
                         (sp_messages params)));
            ("stream", JBool true) ].

(** [streamChatCompletion] once [fetch] has answered with [resp]: the
    error that is thrown, or the result together with the tokens handed to
    [onToken]. *)
Definition streamChatCompletion (params : StreamChatCompletionParams) (resp : HttpStream)
  : JS.Error + (StreamChatCompletionResult * list string) :=
  let requestBody := requestBodyOf params in
  match hs_ok resp, hs_body resp with
  | true, Some reads =>
      let final :=
        fold_left readValue reads
                  (mkLoopState (headerChatId (hs_header resp)) EmptyString EmptyString []) in
      inr (mkStreamResult (l_chatId final) requestBody (l_responseText final),
           l_tokens final)
  | _, _ =>
      let text := match hs_text resp with Some t => t | None => EmptyString end in
      inl (JS.newError ("NEAR AI streaming request failed: "
                        ++ JS.toString10 (hs_status resp) ++ " "
                        ++ hs_statusText resp ++ " " ++ text))
  end.

End Stream.

End NearAI.

(* ================================================================== *)
(** ** Notions used to state the properties *)

(** A lowercase hexadecimal digit. *)
Definition isLowerHex (c : ascii) : bool :=
  existsb (Ascii.eqb c) (list_ascii_of_string "0123456789abcdef").

Fixpoint allChars (p : ascii -> bool) (s : string) : bool :=
  match s with
  | EmptyString => true
  | String c rest => p c && allChars p rest
  end.

(** A byte prints as two lowercase hexadecimal digits. *)
Definition printsAsTwoHexDigits (b : Z) : bool :=
  let s := JS.padStart (JS.toString16 b) 2 "0"%char in
  (String.length s =? 2)%nat && allChars isLowerHex s.

(** The error that a reply makes one attempt throw: the network failure
    itself, the error built from a non-success status, or the failure to
    read the body; [None] for a reply that yields a record or never
    comes. *)
Definition failureCause {A} (failed : string) (r : Reply A) : option JS.Error :=
  match r with
  | NetworkFailure _ e => Some e
  | HttpResponse _ false st _ => Some (JS.newError (failed ++ JS.toString10 st))
  | HttpResponse _ true _ (inl e) => Some e
  | HttpResponse _ true _ (inr _) => None
  | NeverSettles => None
  end.

(** The untimed events of [n] attempts from loop index [i] on: a request,
    and between two requests the wait of the table at the index of the
    failed one. *)
Fixpoint schedule (ep : Endpoint) (i n : nat) : list Event :=
  match n with
  | O => []
  | S n' =>
      match n' with
      | O => [Request ep 0]
      | S _ => Request ep 0 :: Wait (nth i (delays backoff) 0) 0 :: schedule ep (S i) n'
      end
  end.

(** The untimed events of [j] failed attempts from loop index [i] on, each
    followed by its wait. *)
Fixpoint failedAttempts (ep : Endpoint) (i j : nat) : list Event :=
  match j with
  | O => []
  | S j' => Request ep 0 :: Wait (nth i (delays backoff) 0) 0 :: failedAttempts ep (S i) j'
  end.

(** The time waited before attempt number [j + 1] starts, in ms. *)
Definition waitedBefore (j : nat) : Z :=
  nth j [0; 5000; 15000; 30000; 50000] 50000.

(** The untimed events of a fetch that uses all its attempts. *)
Definition fullSchedule (ep : Endpoint) : list Event :=
  [ Request ep 0; Wait 5000 0; Request ep 0; Wait 10000 0; Request ep 0;
    Wait 15000 0; Request ep 0; Wait 20000 0; Request ep 0 ].

(** The retry policy of a fetcher [run] on endpoint [ep]: from every
    world, it sends between one and five requests, the first one at once
    and the next ones after the waits of 5, 10, 15 and 20 seconds in this
    order, and the clock advances by at least the time waited; and when
    the five replies to come are failures, it sends five requests, waits
    50 seconds in all, and throws the error whose message is [exhausted]
    followed by the cause of the fifth failure. *)
Definition RetryPolicy {A} (ep : Endpoint) (reply : nat -> Reply A)
           (failed exhausted : string) (run : Async A) : Prop :=
  forall w : World,
    (exists (n : nat) (evs : list Event),
        (1 <= n <= 5)%nat
        /\ log (outcomeWorld (run w)) = (log w ++ evs)%list
        /\ hd_error evs = Some (Request ep (now w))
        /\ map untimed evs = firstn (2 * n - 1) (fullSchedule ep)
        /\ requestsTo ep evs = n
        /\ now w + waited evs <= now (outcomeWorld (run w)))
    /\ ((forall j, (j < 5)%nat ->
                   failureCause failed (reply (requestsTo ep (log w) + j)%nat) <> None) ->
        exists (cause : JS.Error) (w' : World) (evs : list Event),
          failureCause failed (reply (requestsTo ep (log w) + 4)%nat) = Some cause
          /\ run w = RejectedWith (JS.newError (exhausted ++ JS.String_ cause)) w'
          /\ log w' = (log w ++ evs)%list
          /\ map untimed evs = fullSchedule ep
          /\ waited evs = 50000
          /\ now w + 50000 <= now w').

(** A fetcher [run] stops at the first reply that is not a failure: after
    [j] failed replies (at most four) it has sent [j + 1] requests and
    waited after each failure, and it returns the record of that reply, or
    never settles when that reply never comes. *)
Definition StopsAtFirstAnswer {A} (ep : Endpoint) (reply : nat -> Reply A)
           (failed : string) (run : Async A) : Prop :=
  forall (w : World) (j : nat),
    (j <= 4)%nat ->
    (forall i, (i < j)%nat ->
               failureCause failed (reply (requestsTo ep (log w) + i)%nat) <> None) ->
    failureCause failed (reply (requestsTo ep (log w) + j)%nat) = None ->
    exists evs : list Event,
      log (outcomeWorld (run w)) = (log w ++ evs)%list
      /\ map untimed evs = firstn (2 * j + 1) (fullSchedule ep)
      /\ waited evs = waitedBefore j
      /\ match reply (requestsTo ep (log w) + j)%nat with
         | HttpResponse _ _ _ (inr a) => run w = Fulfilled a (outcomeWorld (run w))
         | _ => run w = Unsettled (outcomeWorld (run w))
         end.

(** A fetcher [run] throws only after five failed replies, and then the
    error whose message is [exhausted] followed by the cause of the fifth
    failure. *)
Definition ThrowsOnlyWhenExhausted {A} (ep : Endpoint) (reply : nat -> Reply A)
           (failed exhausted : string) (run : Async A) : Prop :=
  forall (w w' : World) (e : JS.Error),
    run w = RejectedWith e w' ->
    (forall i, (i < 5)%nat ->
               failureCause failed (reply (requestsTo ep (log w) + i)%nat) <> None)
    /\ requestsTo ep (log w') = (requestsTo ep (log w) + 5)%nat
    /\ exists cause : JS.Error,
         failureCause failed (reply (requestsTo ep (log w) + 4)%nat) = Some cause
         /\ e = JS.newError (exhausted ++ JS.String_ cause).

Definition fetched {A} (o : Outcome A) : option A :=
  match o with
  | Fulfilled a _ => Some a
  | _ => None
  end.

Definition failure {A} (o : Outcome A) : option JS.Error :=
  match o with
  | RejectedWith e _ => Some e
  | _ => None
  end.

Definition settled {A} (o : Outcome A) : bool :=
  match o with
  | Unsettled _ => false
  | _ => true
  end.

(** The error text of the record, from the errors thrown by the signature
    fetch and by the attestation fetch. *)
Definition errorText (sigFailure attFailure : option JS.Error) : option string :=
  match sigFailure, attFailure with
  | None, None => None
  | Some e1, None => Some ("signature-fetch-failed: " ++ JS.String_ e1)
  | None, Some e2 => Some ("attestation-fetch-failed: " ++ JS.String_ e2)
  | Some e1, Some e2 =>
      Some ("signature-fetch-failed: " ++ JS.String_ e1 ++ "; "
            ++ "attestation-fetch-failed: " ++ JS.String_ e2)
  end.

(** The metadata stored for the first message with a given id. *)
Definition storedMetadata (messageId : string) (messages : list UIMessage)
  : option MessageMetadata :=
  match find (fun m => String.eqb (id m) messageId) messages with
  | Some m => metadata m
  | None => None
  end.

Definition storedVerification (messageId : string) (messages : list UIMessage)
  : option VerificationData :=
  match storedMetadata messageId messages with
  | Some md => verification md
  | None => None
  end.

Definition storedStatus (messageId : string) (messages : list UIMessage)
  : option VerificationStatus :=
  match storedMetadata messageId messages with
  | Some md => verificationStatus md
  | None => None
  end.

Fixpoint hasChar (c : ascii) (s : string) : bool :=
  match s with
  | EmptyString => false
  | String c' rest => Ascii.eqb c' c || hasChar c rest
  end.

(** The string ends with the character [c]. *)
Fixpoint endsWithChar (c : ascii) (s : string) : bool :=
  match s with
  | EmptyString => false
  | String c' EmptyString => Ascii.eqb c' c
  | String _ rest => endsWithChar c rest
  end.

Definition notEmpty (l : string) : bool := negb (String.eqb l EmptyString).

(** The state of the reading loop with another unread remainder. *)
Definition withBuffer (rest : string) (st : NearAI.LoopState) : NearAI.LoopState :=
  NearAI.mkLoopState (NearAI.l_chatId st) (NearAI.l_responseText st) rest
                     (NearAI.l_tokens st).

(** The text of the loop is the tokens handed out, none of them empty. *)
Definition textIsTokens (st : NearAI.LoopState) : Prop :=
  NearAI.l_responseText st = JS.join EmptyString (NearAI.l_tokens st)
  /\ Forall (fun t => t <> EmptyString) (NearAI.l_tokens st).

(** The chat id of the loop is [h], a string that is not empty. *)
Definition idIsSet (h : string) (st : NearAI.LoopState) : Prop :=
  NearAI.l_chatId st = Some h /\ JS.truthy_string h = true.

(** The chat id of the loop, when there is one, is not empty. *)
Definition idIsUsable (st : NearAI.LoopState) : Prop :=
  forall c, NearAI.l_chatId st = Some c -> c <> EmptyString.

(** The response whose body yields the given reads. *)
Definition delivering (resp : NearAI.HttpStream) (reads : list (option string))
  : NearAI.HttpStream :=
  NearAI.mkHttpStream (NearAI.hs_ok resp) (NearAI.hs_status resp)
                      (NearAI.hs_statusText resp) (NearAI.hs_text resp)
                      (NearAI.hs_header resp) (Some reads).

(** A chunk that ends an event: a text that does not end with a newline,
    followed by a blank line. *)
Definition eventChunk (a : string) : string := a ++ nl2.

(** The time of the first request to an endpoint. *)
Fixpoint firstRequest (ep : Endpoint) (l : list Event) : option Z :=
  match l with
  | [] => None
  | ev :: l' =>
      if isRequestTo ep ev
      then match ev with Request _ t => Some t | Wait _ t => Some t end
      else firstRequest ep l'
  end.

(* ================================================================== *)
(** ** The reconciler and the validator as the specification words them *)

Module Spec.

Fixpoint hasColon (s : string) : bool :=
  match s with
  | EmptyString => false
  | String c rest => Ascii.eqb c ":"%char || hasColon rest
  end.

(** The two fields of a text with exactly one colon. *)
Fixpoint twoFields (t : string) : option (string * string) :=
  match t with
  | EmptyString => None
  | String c rest =>
      if Ascii.eqb c ":"%char
      then (if hasColon rest then None else Some (EmptyString, rest))
      else match twoFields rest with
           | Some (a, b) => Some (String c a, b)
           | None => None
           end
  end.

Definition samePair (p q : string * string) : bool :=
  String.eqb (fst p) (fst q) && String.eqb (snd p) (snd q).

(** The precedence of the reconciler: newline match, plain match, the
    provider's pair. *)
Definition reconcile (h : Hashes) (sig : option SignatureResponse) : string * string :=
  let withNewlines := (requestHashWithNewlines h, responseHashWithNewlines h) in
  let plain := (requestHashNoNewlines h, responseHashNoNewlines h) in
  match sig with
  | None => withNewlines
  | Some s =>
      match text s with
      | None => withNewlines
      | Some t =>
          match twoFields t with
          | None => withNewlines
          | Some reported =>
              if samePair reported withNewlines then withNewlines
              else if samePair reported plain then plain
              else reported
          end
      end
  end.

(** The signed text when "present" means that the field is there. *)
Definition signedText (sig : SignatureResponse) (canonicalPayload : string) : string :=
  match text sig with
  | Some t => t
  | None =>
      match signedHash sig with
      | Some h => h
      | None => canonicalPayload
      end
  end.

(** The declared identity when "absent" means that the field is not there. *)
Definition declaredIdentity (sig : SignatureResponse) : option string :=
  match signing_address sig with
  | Some a => Some a
  | None => signerPublicKey sig
  end.

(** The validator with the two selections above. *)
Definition validate (recover : string -> string -> option string)
           (lower : string -> string)
           (sig : SignatureResponse) (canonicalPayload : string) : bool :=
  match recover (signedText sig canonicalPayload) (signature sig) with
  | Some recovered =>
      match declaredIdentity sig with
      | Some addr => String.eqb (lower recovered) (lower addr)
      | None => false
      end
  | None => false
  end.

(** A field that is there and not empty. *)
Definition nonEmpty (f : option string) : option string :=
  match f with
  | Some s => if String.eqb s EmptyString then None else Some s
  | None => None
  end.

(** Both fetches are issued when the attempt starts, at time [start]. *)
Definition issuedTogether (start : Z) (l : list Event) : Prop :=
  firstRequest SignatureEndpoint l = Some start
  /\ firstRequest AttestationEndpoint l = Some start.

End Spec.

(* ================================================================== *)
(** ** Sample instances *)

Module Sample.

Definition lowerChar (c : ascii) : ascii :=
  let n := nat_of_ascii c in
  if ((65 <=? n) && (n <=? 90))%nat then ascii_of_nat (n + 32) else c.

(** Lowercasing of the ASCII letters. *)
Fixpoint toLowerCase (s : string) : string :=
  match s with
  | EmptyString => EmptyString
  | String c rest => String (lowerChar c) (toLowerCase rest)
  end.

Definition nobody : string := "0x0000000000000000000000000000000000000000".

(** A stand-in for signature recovery: a signature is the signer's address,
    a bar and the signed text; recovery over another text yields another
    address, and a signature without a bar is malformed. *)
Definition recover (message sig : string) : option string :=
  match JS.split "|" sig with
  | [addr; signed] => if String.eqb signed message then Some addr else Some nobody
  | _ => None
  end.

Definition w0 : World := mkWorld 0 [].

(** An authority that answers every signature request with status 500 and
    whose attestation endpoint cannot be reached. *)
Definition down : Network :=
  mkNetwork (fun _ => HttpResponse 120 false 500 (inl (JS.newError "no body")))
            (fun _ => NetworkFailure 40 (JS.mkError "TypeError" "fetch failed")).

(** The request body [{"q":"hi"}] as JSON text. *)
Definition requestJson : string :=
  let q := String "034"%char EmptyString in
  "{" ++ q ++ "q" ++ q ++ ":" ++ q ++ "hi" ++ q ++ "}".

Definition params : Params := mkParams "chat-1" requestJson "hello" "m" "key".
(** A signature endpoint that never answers. *)
Definition silent : Network :=
  mkNetwork (fun _ => NeverSettles)
            (fun _ => HttpResponse 90 true 200
                        (inr (mkAttestationResponse "m" None (Some "jwt") None
                                                    (Some "0xabc1") None None))).

(** The text the provider signs for [params] under the newline convention. *)
Definition signedText : string :=
  computeHash (requestJson ++ nl2) ++ ":" ++ computeHash ("hello" ++ nl2).

(** A signature record for [params], signed by the declared address. *)
Definition signed : SignatureResponse :=
  mkSignatureResponse (Some "chat-1") "m" ("0xAbC1|" ++ signedText) None
                      (Some signedText) None (Some "0xabc1")
                      (Some "secp256k1") (Some "ecdsa") None None.

Definition report : AttestationResponse :=
  mkAttestationResponse "m" None (Some "jwt") None (Some "0xabc1") None None.

(** An authority that serves both records at the first request. *)
Definition honest : Network :=
  mkNetwork (fun _ => HttpResponse 80 true 200 (inr signed))
            (fun _ => HttpResponse 90 true 200 (inr report)).

(** An authority whose signature record declares another address than the
    one the signature recovers to. *)
Definition impostor : Network :=
  mkNetwork (fun _ => HttpResponse 80 true 200
                        (inr (mkSignatureResponse (Some "chat-1") "m"
                                ("0xAbC1|" ++ signedText) None (Some signedText) None
                                (Some "0xdef2") None None None None)))
            (fun _ => HttpResponse 90 true 200 (inr report)).

(** An authority that serves the signature and has no attestation. *)
Definition noAttestation : Network :=
  mkNetwork (fun _ => HttpResponse 80 true 200 (inr signed))
            (fun _ => HttpResponse 90 false 404 (inl (JS.newError "no body"))).

(** An authority without the signature, with the attestation. *)
Definition noSignature : Network :=
  mkNetwork (fun _ => HttpResponse 80 false 404 (inl (JS.newError "no body")))
            (fun _ => HttpResponse 90 true 200 (inr report)).

(** The record [verifyMessage] builds for [params] from given evidence. *)
Definition recordOf (sig : option SignatureResponse) (att : option AttestationResponse)
           (err : option string) (t : Z) : VerificationData :=
  verdict recover toLowerCase params sig att err t.

(** The errors thrown by the fetchers after five replies with a status,
    and after five network failures. *)
Definition signatureError (status : string) : JS.Error :=
  JS.newError ("Failed to fetch signature after retries: Error: Signature fetch failed: "
               ++ status).

Definition attestationError (cause : string) : JS.Error :=
  JS.newError ("Failed to fetch attestation after retries: " ++ cause).

(** The world after the run of a program from [w0]. *)
Definition after {A} (run : Async A) : World := outcomeWorld (run w0).

(** The message saved with pending verification before the task starts. *)
Definition pendingMessage : UIMessage :=
  mkUIMessage "msg-1" "assistant" "hello"
    (Some (mkMessageMetadata
             (Some "2025-01-01T00:00:00.000Z")
             (Some (mkVerificationData "chat-1" NEAR_MODEL EmptyString EmptyString
                                       None None false None None))
             (Some pending))).

(** The task of [server.ts] for [pendingMessage]. *)
Definition task (net : Network) : list UIMessage :=
  verificationTask net recover toLowerCase (Some "chat-1") "key" requestJson "hello"
                   "msg-1" w0 [pendingMessage].

(** An authority whose signature endpoint answers 503 twice and then
    serves the record. *)
Definition flaky : Network :=
  mkNetwork (fun n => if (n <? 2)%nat
                      then HttpResponse 30 false 503 (inl (JS.newError "no body"))
                      else HttpResponse 80 true 200 (inr signed))
            (fun _ => HttpResponse 90 true 200 (inr report)).

(** The signature record that [impostor] serves. *)
Definition misdeclared : SignatureResponse :=
  mkSignatureResponse (Some "chat-1") "m" ("0xAbC1|" ++ signedText) None
                      (Some signedText) None (Some "0xdef2") None None None None.

(** A record whose [text] is there but empty, signed over the canonical
    payload by the declared address. *)
Definition emptyText : SignatureResponse :=
  mkSignatureResponse None "m" "0xAbC1|req:res" None (Some EmptyString)
                      None (Some "0xabc1") None None None None.

(** A record whose [signing_address] is there but empty, with a public key. *)
Definition emptyAddress : SignatureResponse :=
  mkSignatureResponse None "m" "0xAbC1|req:res" None (Some "req:res")
                      (Some "0xabc1") (Some EmptyString) None None None None.

(** A record without identity whose signature recovers to an address. *)
Definition anonymous : SignatureResponse :=
  mkSignatureResponse None "m" "0xAbC1|req:res" None (Some "req:res")
                      None None None None None None.

(** The text of an event that carries a piece of the answer, and the value
    that [JSON.parse] yields for it. *)
Definition deltaText (id token : string) : string :=
  let q := String "034"%char EmptyString in
  "{" ++ q ++ "id" ++ q ++ ":" ++ q ++ id ++ q ++ ","
      ++ q ++ "choices" ++ q ++ ":[{" ++ q ++ "delta" ++ q ++ ":{"
      ++ q ++ "content" ++ q ++ ":" ++ q ++ token ++ q ++ "}}]}".

Definition deltaJson (id token : string) : NearAI.Json :=
  NearAI.JObject
    [ ("id", NearAI.JString id);
      ("choices",
       NearAI.JArray
         [ NearAI.JObject
             [ ("delta", NearAI.JObject [ ("content", NearAI.JString token) ]) ] ]) ].

(** [JSON.parse] on the events of the sample stream; it throws on
    [[DONE]] and on every other text. *)
Definition parse (ev : string) : option NearAI.Json :=
  if String.eqb ev (deltaText "chatcmpl-1" "Hel") then Some (deltaJson "chatcmpl-1" "Hel")
  else if String.eqb ev (deltaText "chatcmpl-1" "lo") then Some (deltaJson "chatcmpl-1" "lo")
  else None.

(** The line of the stream that carries an event. *)
Definition dataLine (ev : string) : string := "data: " ++ ev.

Definition noHeaders : string -> option string := fun _ => None.

Definition requestIdOnly : string -> option string :=
  fun name => if String.eqb name "x-request-id" then Some "req-7" else None.

(** A response 200 with a body, not yet read. *)
Definition okResponse (header : string -> option string) : NearAI.HttpStream :=
  NearAI.mkHttpStream true 200 "OK" None header (Some []).

Definition chat : NearAI.StreamChatCompletionParams :=
  NearAI.mkStreamParams [NearAI.mkChatMessage "user" "Hi"] "key" None.

(** The answer in two events and the end mark, one event per chunk. *)
Definition helloStream : list (option string) :=
  [ Some (eventChunk (dataLine (deltaText "chatcmpl-1" "Hel")));
    Some (eventChunk (dataLine (deltaText "chatcmpl-1" "lo")));
    Some (eventChunk (dataLine "[DONE]")) ].

(** The texts of the three events of [helloStream]. *)
Definition helloBodies : list string :=
  [ dataLine (deltaText "chatcmpl-1" "Hel");
    dataLine (deltaText "chatcmpl-1" "lo");
    dataLine "[DONE]" ].

(** What the client returns when the first event is handled twice. *)
Definition stutter : NearAI.StreamChatCompletionResult :=
  NearAI.mkStreamResult (Some "chatcmpl-1") (NearAI.requestBodyOf chat) "HelHel".

(** A buffer with a comment and an event name, and no data line. *)
Definition keepAlive : string :=
  ": ping" ++ nl2 ++ "event: ping".

Definition helloResult (chatId : string) : NearAI.StreamChatCompletionResult :=
  NearAI.mkStreamResult (Some chatId) (NearAI.requestBodyOf chat) "Hello".

End Sample.

(* ================================================================== *)
(** ** Facts about the JavaScript helpers *)

Lemma truthy_string_true (s : string) :
  JS.truthy_string s = true <-> s <> EmptyString.
Proof.
  unfold JS.truthy_string. destruct (String.eqb_spec s EmptyString); simpl;
    split; intros; congruence.
Qed.

Lemma nonEmpty_Some (f : option string) (s : string) :
  Spec.nonEmpty f = Some s <-> f = Some s /\ s <> EmptyString.
Proof.
  unfold Spec.nonEmpty. destruct f as [x|].
  - destruct (String.eqb_spec x EmptyString); split.
    + discriminate.
    + intros [E N]. inversion E; subst. contradiction.
    + intros E. inversion E; subst. auto.
    + intros [E _]. exact E.
  - split; [discriminate | intros [E _]; discriminate].
Qed.

Lemma split_not_nil (sep : ascii) (s : string) : JS.split sep s <> [].
Proof.
  destruct s as [|c rest]; simpl; [discriminate|].
  destruct (Ascii.eqb c sep); [discriminate|].
  destruct (JS.split sep rest); discriminate.
Qed.

Lemma split_hasColon (s : string) :
  if Spec.hasColon s then (2 <= List.length (JS.split ":" s))%nat
  else JS.split ":" s = [s].
Proof.
  induction s as [|c rest IH]; simpl; [reflexivity|].
  destruct (Ascii.eqb c ":") eqn:Ec; simpl.
  - pose proof (split_not_nil ":" rest) as Hn.
    destruct (JS.split ":" rest); [contradiction | simpl; lia].
  - destruct (Spec.hasColon rest).
    + destruct (JS.split ":" rest); simpl in *; lia.
    + rewrite IH. reflexivity.
Qed.

Lemma split_twoFields (t : string) :
  match Spec.twoFields t with
  | Some (a, b) => JS.split ":" t = [a; b]
  | None => List.length (JS.split ":" t) <> 2%nat
  end.
Proof.
  induction t as [|c rest IH]; simpl; [discriminate|].
  destruct (Ascii.eqb c ":") eqn:Ec.
  - pose proof (split_hasColon rest) as Hc.
    destruct (Spec.hasColon rest).
    + simpl. lia.
    + rewrite Hc. reflexivity.
  - destruct (Spec.twoFields rest) as [[a b]|].
    + rewrite IH. reflexivity.
    + pose proof (split_not_nil ":" rest) as Hn.
      destruct (JS.split ":" rest); [contradiction | exact IH].
Qed.

(** [twoFields] finds the fields exactly when the text is two colon-free
    strings around one colon. *)
Lemma twoFields_sound (t a b : string) :
  Spec.twoFields t = Some (a, b) ->
  t = a ++ ":" ++ b /\ Spec.hasColon a = false /\ Spec.hasColon b = false.
Proof.
  revert a b. induction t as [|c rest IH]; simpl; intros a b H; [discriminate|].
  destruct (Ascii.eqb_spec c ":") as [->|Hc].
  - destruct (Spec.hasColon rest) eqn:Hr; [discriminate|].
    inversion H; subst. auto.
  - destruct (Spec.twoFields rest) as [[a' b']|]; [|discriminate].
    inversion H; subst. destruct (IH a' b eq_refl) as (E & Ha & Hb).
    simpl. rewrite E, Ha.
    destruct (Ascii.eqb_spec c ":"); [contradiction|]. auto.
Qed.

Lemma twoFields_complete (a b : string) :
  Spec.hasColon a = false -> Spec.hasColon b = false ->
  Spec.twoFields (a ++ ":" ++ b) = Some (a, b).
Proof.
  intros Ha Hb. induction a as [|c a IH]; simpl in *.
  - rewrite Hb. reflexivity.
  - apply orb_false_iff in Ha as [Hc Ha]. rewrite Hc, (IH Ha). reflexivity.
Qed.

(* ================================================================== *)
(** ** The hasher *)

Lemma digest_length (msg : list Z) : List.length (SHA256.digest msg) = 32%nat.
Proof. reflexivity. Qed.

Lemma wordBytes_range (x : Z) : Forall (fun b => 0 <= b < 256) (SHA256.wordBytes x).
Proof.
  unfold SHA256.wordBytes. repeat constructor; apply Z.mod_pos_bound; lia.
Qed.

Lemma digest_range (msg : list Z) : Forall (fun b => 0 <= b < 256) (SHA256.digest msg).
Proof.
  unfold SHA256.digest. cbv zeta. repeat (apply Forall_app; split); apply wordBytes_range.
Qed.

Lemma bytes_print_as_two_hex_digits (b : Z) :
  0 <= b < 256 -> printsAsTwoHexDigits b = true.
Proof.
  intros Hb.
  assert (Hall : forallb printsAsTwoHexDigits (map Z.of_nat (seq 0 256)) = true)
    by (vm_compute; reflexivity).
  rewrite forallb_forall in Hall. apply Hall.
  replace b with (Z.of_nat (Z.to_nat b)) by lia.
  apply in_map, in_seq. lia.
Qed.

Lemma allChars_app (p : ascii -> bool) (s t : string) :
  allChars p (s ++ t) = allChars p s && allChars p t.
Proof.
  induction s as [|c s IH]; simpl; [reflexivity|]. rewrite IH, andb_assoc. reflexivity.
Qed.

Lemma string_length_app (s t : string) :
  String.length (s ++ t) = (String.length s + String.length t)%nat.
Proof. induction s as [|c s IH]; simpl; [reflexivity|]. rewrite IH. reflexivity. Qed.

Lemma join_two_digit_pieces (pieces : list string) :
  Forall (fun s => String.length s = 2%nat /\ allChars isLowerHex s = true) pieces ->
  String.length (JS.join EmptyString pieces) = (2 * List.length pieces)%nat
  /\ allChars isLowerHex (JS.join EmptyString pieces) = true.
Proof.
  induction 1 as [|s l [Hl Hc] Hrest [IHl IHc]]; [split; reflexivity|].
  destruct l as [|s' l'].
  - simpl. rewrite Hl, Hc. split; reflexivity.
  - change (JS.join EmptyString (s :: s' :: l'))
      with (s ++ JS.join EmptyString (s' :: l')).
    rewrite string_length_app, allChars_app, Hl, Hc, IHl, IHc.
    split; [simpl List.length; lia | reflexivity].
Qed.

(** X1. The hash of every string is 64 lowercase hexadecimal digits. *)
Lemma computeHash_format (data : string) :
  String.length (computeHash data) = 64%nat
  /\ allChars isLowerHex (computeHash data) = true.
Proof.
  unfold computeHash. cbv zeta.
  set (bytes := SHA256.digest (JS.TextEncoder_encode data)).
  destruct (join_two_digit_pieces
              (map (fun b => JS.padStart (JS.toString16 b) 2 "0"%char) bytes))
    as [Hl Hc].
  - apply Forall_map. eapply Forall_impl; [|apply digest_range].
    intros b Hb. apply bytes_print_as_two_hex_digits in Hb.
    unfold printsAsTwoHexDigits in Hb. cbv zeta in Hb.
    apply andb_true_iff in Hb as [H1 H2]. apply Nat.eqb_eq in H1. auto.
  - rewrite Hl, Hc, length_map. unfold bytes. rewrite digest_length. auto.
Qed.

(** Known digests, and the two conventions on one response text. *)
Example computeHash_empty :
  computeHash EmptyString
  = "e3b0c44298fc1c149afbf4c8996fb92427ae41e4649b934ca495991b7852b855".
Proof. vm_compute. reflexivity. Qed.

Example computeHash_abc :
  computeHash "abc"
  = "ba7816bf8f01cfea414140de5dae2223b00361a396177a9cb410ff61f20015ad".
Proof. vm_compute. reflexivity. Qed.

Example computeHash_two_blocks :
  computeHash "abcdbcdecdefdefgefghfghighijhijkijkljklmklmnlmnomnopnopq"
  = "248d6a61d20638b8e5c026930c3e6039a33ce45964ff2167f6ecedd419db06c1".
Proof. vm_compute. reflexivity. Qed.

Example computeHash_hello_conventions :
  computeHash "hello" <> computeHash ("hello" ++ nl2).
Proof. vm_compute. discriminate. Qed.

(* ================================================================== *)
(** ** The hash reconciler *)

(** C2. For every four local hashes and every optional signature record,
    the pair chosen by [verifyMessage] is the one the precedence of the
    specification gives: the newline pair when there is no record, no
    reported text, or a text that is not two colon-delimited fields; else
    the newline pair when the reported pair equals it; else the plain pair
    when the reported pair equals it; else the reported pair itself.  The
    record carries that pair as its request and response hashes. *)
Theorem reconcile_precedence :
  forall (h : Hashes) (sig : option SignatureResponse),
    reconcile h sig = Spec.reconcile h sig
    /\ forall (ethers : string -> string -> option string) (lower : string -> string)
              (params : Params) (att : option AttestationResponse)
              (err : option string) (t : Z),
         let r := verdict ethers lower params sig att err t in
         (requestHash r, responseHash r) = reconcile (localHashes params) sig.
Proof.
  intros h sig. split.
  - destruct sig as [s|]; [|reflexivity].
    unfold reconcile, Spec.reconcile, reportedText.
    destruct (text s) as [t|]; [|reflexivity].
    pose proof (split_twoFields t) as Hs.
    destruct (JS.truthy_string t) eqn:Ht.
    + destruct (Spec.twoFields t) as [[a b]|].
      * rewrite Hs. reflexivity.
      * apply Nat.eqb_neq in Hs. rewrite Hs. reflexivity.
    + apply negb_false_iff, String.eqb_eq in Ht. subst t. reflexivity.
  - intros ethers lower params att err t. cbv zeta. unfold verdict.
    destruct (reconcile (localHashes params) sig) as [rq rs]. reflexivity.
Qed.

(* ================================================================== *)
(** ** The signature validator *)

Lemma or_field_same (f : option string) : JS.or_field f f = f.
Proof. destruct f as [s|]; simpl; [destruct (JS.truthy_string s)|]; reflexivity. Qed.

Lemma or_string_nonEmpty (f : option string) (d : string) :
  JS.or_string f d = match Spec.nonEmpty f with Some s => s | None => d end.
Proof.
  destruct f as [s|]; simpl; [|reflexivity].
  unfold JS.truthy_string. destruct (String.eqb s EmptyString); reflexivity.
Qed.

(** The declared identity is usable when it is a non-empty string: the
    signing address if it is one, else the public key if it is one. *)
Lemma expectedAddr_usable (sig : SignatureResponse) (addr : string) :
  (expectedAddr sig = Some addr /\ JS.truthy_string addr = true) <->
  (Spec.nonEmpty (signing_address sig) = Some addr
   \/ (Spec.nonEmpty (signing_address sig) = None
       /\ Spec.nonEmpty (signerPublicKey sig) = Some addr)).
Proof.
  unfold expectedAddr. rewrite or_field_same.
  rewrite truthy_string_true, !nonEmpty_Some.
  destruct (signing_address sig) as [a|]; simpl.
  - unfold JS.truthy_string. destruct (String.eqb_spec a EmptyString) as [->|Ha]; simpl.
    + split.
      * intros [E N]. right. auto.
      * intros [[E N]|[_ [E N]]]; [inversion E; subst; contradiction | auto].
    + split.
      * intros [E N]. left. auto.
      * intros [[E N]|[E _]]; [auto | discriminate].
  - split.
    + intros [E N]. right. auto.
    + intros [[E _]|[_ [E N]]]; [discriminate | auto].
Qed.

Lemma validateSignature_true_iff
      (ethers : string -> string -> option string) (lower : string -> string)
      (sig : SignatureResponse) (expectedHash : string) :
  validateSignature ethers lower (Some sig) expectedHash = true <->
  exists recovered addr,
    ethers (signedPayload sig expectedHash) (signature sig) = Some recovered
    /\ expectedAddr sig = Some addr
    /\ JS.truthy_string addr = true
    /\ lower recovered = lower addr.
Proof.
  unfold validateSignature.
  destruct (ethers (signedPayload sig expectedHash) (signature sig)) as [r|].
  - destruct (expectedAddr sig) as [a|].
    + destruct (JS.truthy_string a) eqn:Ht; simpl.
      * destruct (String.eqb_spec (lower r) (lower a)) as [E|N]; split.
        -- intros _. exists r, a. auto.
        -- reflexivity.
        -- discriminate.
        -- intros (r' & a' & Er & Ea & _ & El). inversion Er; inversion Ea; subst.
           contradiction.
      * split; [discriminate|].
        intros (r' & a' & _ & Ea & Ht' & _). inversion Ea; subst. congruence.
    + split; [discriminate|]. intros (r' & a' & _ & Ea & _). discriminate.
  - split; [discriminate|]. intros (r' & a' & Er & _). discriminate.
Qed.

(** The validator departs from the wording "if present ... if absent" on
    fields that are there and empty: the code skips an empty signed text
    and an empty signing address, and accepts both records, where the
    wording selects the empty strings and refuses them. *)
Lemma empty_fields_are_skipped :
  signedPayload Sample.emptyText "req:res" <> Spec.signedText Sample.emptyText "req:res"
  /\ validateSignature Sample.recover Sample.toLowerCase (Some Sample.emptyText) "req:res" = true
  /\ Spec.validate Sample.recover Sample.toLowerCase Sample.emptyText "req:res" = false
  /\ expectedAddr Sample.emptyAddress <> Spec.declaredIdentity Sample.emptyAddress
  /\ validateSignature Sample.recover Sample.toLowerCase (Some Sample.emptyAddress) "req:res" = true
  /\ Spec.validate Sample.recover Sample.toLowerCase Sample.emptyAddress "req:res" = false.
Proof. repeat split; vm_compute; congruence. Qed.

(** C3 (amended). The text whose signature is checked is the record's
    [text] if it is a non-empty string, else its legacy [signedHash] if
    that is a non-empty string, else the canonical payload.  The validator
    returns true exactly when recovery over that text succeeds and the
    recovered identity equals, after lowercasing both, the record's
    signing address if that is a non-empty string, or else its public key
    if that is a non-empty string.  When recovery throws the result is
    false. *)
Theorem validateSignature_selection :
  forall (ethers : string -> string -> option string) (lower : string -> string)
         (sig : SignatureResponse) (canonicalPayload : string),
    signedPayload sig canonicalPayload =
      match Spec.nonEmpty (text sig), Spec.nonEmpty (signedHash sig) with
      | Some t, _ => t
      | None, Some h => h
      | None, None => canonicalPayload
      end
    /\ (validateSignature ethers lower (Some sig) canonicalPayload = true <->
        exists recovered addr,
          ethers (signedPayload sig canonicalPayload) (signature sig) = Some recovered
          /\ (Spec.nonEmpty (signing_address sig) = Some addr
              \/ (Spec.nonEmpty (signing_address sig) = None
                  /\ Spec.nonEmpty (signerPublicKey sig) = Some addr))
          /\ lower recovered = lower addr)
    /\ (ethers (signedPayload sig canonicalPayload) (signature sig) = None ->
        validateSignature ethers lower (Some sig) canonicalPayload = false).
Proof.
  intros ethers lower sig p. split; [|split].
  - unfold signedPayload. rewrite !or_string_nonEmpty.
    destruct (Spec.nonEmpty (text sig)), (Spec.nonEmpty (signedHash sig)); reflexivity.
  - rewrite validateSignature_true_iff. split.
    + intros (r & a & Er & Ea & Ht & El). exists r, a.
      split; [exact Er|]. split; [|exact El].
      apply expectedAddr_usable. auto.
    + intros (r & a & Er & Ha & El). exists r, a.
      apply expectedAddr_usable in Ha as [Ea Ht]. auto.
  - intros E. unfold validateSignature. rewrite E. reflexivity.
Qed.

(** The amended statement on a record signed over the canonical payload. *)
Lemma validateSignature_selection_witness :
  signedPayload Sample.emptyText "req:res" = "req:res"
  /\ validateSignature Sample.recover Sample.toLowerCase (Some Sample.emptyText) "req:res" = true
  /\ validateSignature Sample.recover Sample.toLowerCase
       (Some (mkSignatureResponse None "m" "no-bar" None None None (Some "0xabc1")
                                  None None None None)) "req:res" = false.
Proof.
  split; [|split].
  - exact (proj1 (validateSignature_selection Sample.recover Sample.toLowerCase
                    Sample.emptyText "req:res")).
  - apply (proj1 (proj2 (validateSignature_selection Sample.recover Sample.toLowerCase
                           Sample.emptyText "req:res"))).
    exists "0xAbC1", "0xabc1". repeat split. left. reflexivity.
  - apply (proj2 (proj2 (validateSignature_selection Sample.recover Sample.toLowerCase
             (mkSignatureResponse None "m" "no-bar" None None None (Some "0xabc1")
                                  None None None None) "req:res"))).
    reflexivity.
Defined.

(** C10. The validator returns false when there is no signature record,
    and when the record declares neither a signing address nor a public
    key, whatever the recovery of the signature yields. *)
Theorem validateSignature_needs_identity :
  forall (ethers : string -> string -> option string) (lower : string -> string)
         (expectedHash : string),
    validateSignature ethers lower None expectedHash = false
    /\ forall sig : SignatureResponse,
         signing_address sig = None ->
         signerPublicKey sig = None ->
         validateSignature ethers lower (Some sig) expectedHash = false.
Proof.
  intros ethers lower p. split; [reflexivity|].
  intros sig Ha Hk. unfold validateSignature, expectedAddr.
  rewrite Ha, Hk. simpl.
  destruct (ethers (signedPayload sig p) (signature sig)); reflexivity.
Qed.

Lemma validateSignature_needs_identity_witness :
  Sample.recover (signedPayload Sample.anonymous "req:res") (signature Sample.anonymous) = Some "0xAbC1"
  /\ validateSignature Sample.recover Sample.toLowerCase (Some Sample.anonymous) "req:res" = false.
Proof.
  split; [reflexivity|].
  apply (proj2 (validateSignature_needs_identity Sample.recover Sample.toLowerCase "req:res")
               Sample.anonymous); reflexivity.
Defined.


(* ================================================================== *)
(** ** The evidence fetcher *)

Lemma requestsTo_app (ep : Endpoint) (l1 l2 : list Event) :
  requestsTo ep (l1 ++ l2)%list = (requestsTo ep l1 + requestsTo ep l2)%nat.
Proof. unfold requestsTo. rewrite filter_app, length_app. reflexivity. Qed.

Lemma waited_app (l1 l2 : list Event) : waited (l1 ++ l2)%list = waited l1 + waited l2.
Proof.
  induction l1 as [|[ep t|ms t] l1 IH]; simpl; rewrite ?IH; lia.
Qed.

Lemma requestsTo_untimed (ep : Endpoint) (l : list Event) :
  requestsTo ep (map untimed l) = requestsTo ep l.
Proof.
  unfold requestsTo. induction l as [|[e t|ms t] l IH]; simpl; auto.
  destruct e, ep; simpl; auto.
Qed.

Lemma waited_untimed (l : list Event) : waited (map untimed l) = waited l.
Proof. induction l as [|[e t|ms t] l IH]; simpl; rewrite ?IH; reflexivity. Qed.

Lemma requestsTo_schedule (ep : Endpoint) (n i : nat) :
  requestsTo ep (schedule ep i n) = n.
Proof.
  revert i. induction n as [|n IH]; intros i; [reflexivity|].
  destruct n as [|n].
  - destruct ep; reflexivity.
  - change (schedule ep i (S (S n)))
      with (Request ep 0 :: Wait (nth i (delays backoff) 0) 0 :: schedule ep (S i) (S n)).
    change (requestsTo ep (Request ep 0 :: Wait (nth i (delays backoff) 0) 0
                             :: schedule ep (S i) (S n)))
      with (requestsTo ep ([Request ep 0; Wait (nth i (delays backoff) 0) 0]
                             ++ schedule ep (S i) (S n))%list).
    rewrite requestsTo_app, IH. destruct ep; reflexivity.
Qed.

Lemma schedule_prefix (ep : Endpoint) (n : nat) :
  (1 <= n <= 5)%nat -> schedule ep 0 n = firstn (2 * n - 1) (fullSchedule ep).
Proof.
  intros H.
  assert (n = 1 \/ n = 2 \/ n = 3 \/ n = 4 \/ n = 5)%nat as C by lia.
  destruct C as [-> | [-> | [-> | [-> | ->]]]]; reflexivity.
Qed.

Section Fetcher.

Context {A : Type}.
Variable ep : Endpoint.
Variable reply : nat -> Reply A.
Variables failed exhausted : string.

(** What one attempt does: a request is logged at the current time, the
    clock does not go back, and the attempt throws exactly the failure
    cause of the reply. *)
Lemma attempt_step (w : World) :
  let o := attempt (fetch_endpoint ep reply) failed w in
  log (outcomeWorld o) = (log w ++ [Request ep (now w)])%list
  /\ now w <= now (outcomeWorld o)
  /\ failure o = failureCause failed (reply (requestsTo ep (log w))).
Proof.
  unfold attempt, fetch_endpoint, bind, settle, json, throw, ret. simpl.
  destruct (reply (requestsTo ep (log w))) as [l e | l o s b | ]; simpl.
  - repeat split; lia.
  - destruct o; simpl; [destruct b; simpl|]; repeat split; lia.
  - repeat split; lia.
Qed.

Lemma loop_index (k : nat) :
  (S k <= attempts backoff)%nat ->
  (attempts backoff - S k <? attempts backoff - 1)%nat = negb (k =? 0)%nat.
Proof.
  intros H. destruct (Nat.ltb_spec (attempts backoff - S k) (attempts backoff - 1));
    destruct (Nat.eqb_spec k 0); simpl; try reflexivity; lia.
Qed.

(** The trace of the loop with [k] iterations left: some number [n] of
    attempts between 1 and [k], with the waits of the table between them,
    and the clock has advanced by at least the time waited. *)
Lemma retryLoop_trace (k : nat) :
  forall (lastError : option JS.Error) (w : World),
    (1 <= k <= attempts backoff)%nat ->
    let o := retryLoop (fetch_endpoint ep reply) failed exhausted k lastError w in
    exists (n : nat) (evs : list Event),
      (1 <= n <= k)%nat
      /\ log (outcomeWorld o) = (log w ++ evs)%list
      /\ hd_error evs = Some (Request ep (now w))
      /\ map untimed evs = schedule ep (attempts backoff - k) n
      /\ now w + waited evs <= now (outcomeWorld o).
Proof.
  induction k as [|k IH]; intros lastError w Hk; [lia|].
  cbv zeta. cbn [retryLoop]. unfold try_catch.
  destruct (attempt_step w) as (Hlog & Hnow & Hfail).
  destruct (attempt (fetch_endpoint ep reply) failed w) as [a w1 | e w1 | w1];
    simpl in Hlog, Hnow, Hfail.
  - exists 1%nat, [Request ep (now w)]. simpl. repeat split; auto; lia.
  - rewrite loop_index by lia. unfold bind.
    destruct k as [|k].
    + simpl. exists 1%nat, [Request ep (now w)]. simpl. repeat split; auto; lia.
    + cbn [Nat.eqb negb sleep].
      set (w2 := mkWorld (now w1 + nth (attempts backoff - S (S k)) (delays backoff) 0)
                         (log w1 ++ [Wait (nth (attempts backoff - S (S k)) (delays backoff) 0)
                                          (now w1)])%list).
      destruct (IH (Some e) w2) as (n & evs & Hn & Hl & _ & Hs & Ht); [lia|].
      exists (S n), (Request ep (now w) :: Wait (nth (attempts backoff - S (S k))
                                                     (delays backoff) 0) (now w1) :: evs).
      split; [lia|]. split; [|split; [reflexivity|split]].
      * rewrite Hl. unfold w2. cbn [log]. rewrite Hlog, <- !app_assoc. reflexivity.
      * cbn [map untimed]. rewrite Hs.
        replace (attempts backoff - S k)%nat with (S (attempts backoff - S (S k))) by lia.
        destruct n as [|n]; [lia|]. reflexivity.
      * cbn [waited]. subst w2. cbn [now] in Ht. lia.
  - exists 1%nat, [Request ep (now w)]. simpl. repeat split; auto; lia.
Qed.

(** When each of the [k] replies to come is a failure, the loop uses all
    [k] attempts and throws the error that carries the cause of the last
    one. *)
Lemma retryLoop_exhausted (k : nat) :
  forall (lastError : option JS.Error) (w : World),
    (1 <= k <= attempts backoff)%nat ->
    (forall j, (j < k)%nat ->
               failureCause failed (reply (requestsTo ep (log w) + j)) <> None) ->
    exists (cause : JS.Error) (w' : World) (evs : list Event),
      failureCause failed (reply (requestsTo ep (log w) + (k - 1))) = Some cause
      /\ retryLoop (fetch_endpoint ep reply) failed exhausted k lastError w
         = RejectedWith (JS.newError (exhausted ++ JS.String_ cause)) w'
      /\ log w' = (log w ++ evs)%list
      /\ map untimed evs = schedule ep (attempts backoff - k) k
      /\ now w + waited evs <= now w'.
Proof.
  induction k as [|k IH]; intros lastError w Hk Hall; [lia|].
  cbn [retryLoop]. unfold try_catch.
  destruct (attempt_step w) as (Hlog & Hnow & Hfail).
  pose proof (Hall 0%nat ltac:(lia)) as H0. rewrite Nat.add_0_r in H0.
  destruct (attempt (fetch_endpoint ep reply) failed w) as [a w1 | e w1 | w1];
    simpl in Hlog, Hnow, Hfail; try (symmetry in Hfail; contradiction).
  rewrite loop_index by lia. unfold bind.
  destruct k as [|k].
  - simpl. exists e, w1, [Request ep (now w)].
    rewrite Nat.add_0_r. simpl. repeat split; auto; lia.
  - cbn [Nat.eqb negb sleep].
    set (d := nth (attempts backoff - S (S k)) (delays backoff) 0).
    set (w2 := mkWorld (now w1 + d) (log w1 ++ [Wait d (now w1)])%list).
    assert (Hc : requestsTo ep (log w2) = S (requestsTo ep (log w))).
    { unfold w2. cbn [log]. rewrite Hlog, !requestsTo_app.
      unfold requestsTo at 2 3. destruct ep; simpl; lia. }
    destruct (IH (Some e) w2) as (cause & w' & evs & Hcause & Hrun & Hl & Hs & Ht); [lia| |].
    + intros j Hj. rewrite Hc. specialize (Hall (S j) ltac:(lia)).
      replace (S (requestsTo ep (log w)) + j)%nat with (requestsTo ep (log w) + S j)%nat by lia.
      exact Hall.
    + exists cause, w', (Request ep (now w) :: Wait d (now w1) :: evs).
      split; [|split; [exact Hrun|split; [|split]]].
      * rewrite Hc in Hcause.
        replace (requestsTo ep (log w) + (S (S k) - 1))%nat
          with (S (requestsTo ep (log w)) + (S k - 1))%nat by lia.
        exact Hcause.
      * rewrite Hl. unfold w2. cbn [log]. rewrite Hlog, <- !app_assoc. reflexivity.
      * cbn [map untimed]. rewrite Hs.
        replace (attempts backoff - S k)%nat with (S (attempts backoff - S (S k))) by lia.
        reflexivity.
      * cbn [waited]. subst w2. cbn [now] in Ht. lia.
Qed.

End Fetcher.

Lemma retryLoop_policy {A} (ep : Endpoint) (reply : nat -> Reply A)
      (failed exhausted : string) :
  RetryPolicy ep reply failed exhausted
              (fun w => retryLoop (fetch_endpoint ep reply) failed exhausted
                                  (attempts backoff) None w).
Proof.
  intros w. split.
  - destruct (retryLoop_trace ep reply failed exhausted (attempts backoff) None w)
      as (n & evs & Hn & Hl & Hh & Hs & Ht); [simpl; lia|].
    change (attempts backoff - attempts backoff)%nat with 0%nat in Hs.
    change (attempts backoff) with 5%nat in Hn.
    exists n, evs. repeat split; try lia; auto.
    + rewrite Hs. apply schedule_prefix. lia.
    + rewrite <- (requestsTo_untimed ep evs), Hs. apply requestsTo_schedule.
  - intros Hall.
    destruct (retryLoop_exhausted ep reply failed exhausted (attempts backoff) None w)
      as (cause & w' & evs & Hc & Hrun & Hl & Hs & Ht); [simpl; lia | exact Hall |].
    change (attempts backoff - attempts backoff)%nat with 0%nat in Hs.
    assert (Hw : waited evs = 50000).
    { rewrite <- waited_untimed, Hs. reflexivity. }
    exists cause, w', evs. repeat split; auto. lia.
Qed.

(** C4. The table allows five attempts and lists the delays 5, 10, 15, 20
    and 30 seconds.  Each of the two fetchers makes at most five attempts;
    a failed attempt other than the fifth is followed by the wait of the
    table at its index, so that the waits between attempts 1-2, 2-3, 3-4
    and 4-5 are 5, 10, 15 and 20 seconds; a fetch whose five attempts fail
    has waited 50 seconds, so at least 50 seconds have passed on the
    clock, the fifth failure is not followed by a wait, and the fetch
    throws an error whose message carries the cause of the fifth
    failure. *)
Theorem fetch_retry_policy :
  forall (net : Network) (chatId model apiKey : string),
    attempts backoff = 5%nat
    /\ delays backoff = [5000; 10000; 15000; 20000; 30000]
    /\ RetryPolicy SignatureEndpoint (signatureReply net)
                   "Signature fetch failed: "
                   "Failed to fetch signature after retries: "
                   (fetchSignature net chatId model apiKey)
    /\ RetryPolicy AttestationEndpoint (attestationReply net)
                   "Attestation fetch failed: "
                   "Failed to fetch attestation after retries: "
                   (fetchAttestation net model apiKey).
Proof.
  intros net chatId model apiKey.
  split; [reflexivity|]. split; [reflexivity|].
  split; apply retryLoop_policy.
Qed.

(** The policy on an authority that is down: five requests, then the error. *)
Lemma fetch_retry_policy_witness :
  (forall j, (j < 5)%nat ->
      failureCause "Signature fetch failed: "
        (signatureReply Sample.down (requestsTo SignatureEndpoint (log Sample.w0) + j)%nat)
      <> None)
  /\ exists w',
       fetchSignature Sample.down "chat-1" "m" "key" Sample.w0
       = RejectedWith
           (JS.newError
              "Failed to fetch signature after retries: Error: Signature fetch failed: 500")
           w'
       /\ requestsTo SignatureEndpoint (log w') = 5%nat
       /\ 50000 <= now w'.
Proof.
  assert (H : forall j, (j < 5)%nat ->
      failureCause "Signature fetch failed: "
        (signatureReply Sample.down (requestsTo SignatureEndpoint (log Sample.w0) + j)%nat)
      <> None) by (intros j _; discriminate).
  split; [exact H|].
  destruct (proj2 (proj1 (proj2 (proj2 (fetch_retry_policy Sample.down "chat-1" "m" "key")))
                         Sample.w0) H)
    as (cause & w' & evs & Hc & Hrun & Hl & Hs & Hw & Ht).
  exists w'. split; [|split].
  - rewrite Hrun. inversion Hc. reflexivity.
  - rewrite Hl, requestsTo_app, <- (requestsTo_untimed _ evs), Hs. reflexivity.
  - exact Ht.
Defined.

(* ================================================================== *)
(** ** The orchestrator *)

Section Orchestrator.

Variable net : Network.
Variable ethers : string -> string -> option string.
Variable lower : string -> string.
Variable params : Params.

(** [verifyMessage] runs the signature fetch, then the attestation fetch
    from the world the first one ended in, and builds the record from the
    two outcomes; it settles when both fetches do, and never rejects. *)
Lemma verifyMessage_run (w : World) :
  let o1 :=
    fetchSignature net (p_chatId params) (p_model params) (p_apiKey params) w in
  let o2 :=
    fetchAttestation net (p_model params) (p_apiKey params) (outcomeWorld o1) in
  verifyMessage net ethers lower params w =
    if settled o1 then
      if settled o2 then
        Fulfilled (verdict ethers lower params (fetched o1) (fetched o2)
                           (errorText (failure o1) (failure o2))
                           (now (outcomeWorld o2)))
                  (outcomeWorld o2)
      else Unsettled (outcomeWorld o2)
    else Unsettled (outcomeWorld o1).
Proof.
  unfold verifyMessage, trySignature, tryAttestation, bind, try_catch, Date_now, ret.
  cbv zeta.
  destruct (fetchSignature net (p_chatId params) (p_model params) (p_apiKey params) w) as [s w1 | e1 w1 | w1]; cbn [settled outcomeWorld fst snd];
    [| |reflexivity];
    destruct (fetchAttestation net (p_model params) (p_apiKey params) w1) as [a w2 | e2 w2 | w2];
    cbn [settled outcomeWorld fetched failure errorText fst snd]; reflexivity.
Qed.

Lemma verifyMessage_Fulfilled (w w' : World) (r : VerificationData) :
  verifyMessage net ethers lower params w = Fulfilled r w' ->
  let o1 :=
    fetchSignature net (p_chatId params) (p_model params) (p_apiKey params) w in
  let o2 :=
    fetchAttestation net (p_model params) (p_apiKey params) (outcomeWorld o1) in
  settled o1 = true /\ settled o2 = true /\ w' = outcomeWorld o2
  /\ r = verdict ethers lower params (fetched o1) (fetched o2)
                 (errorText (failure o1) (failure o2)) (now w').
Proof.
  rewrite verifyMessage_run. cbv zeta.
  destruct (settled (fetchSignature net (p_chatId params) (p_model params)
                                    (p_apiKey params) w)); [|discriminate].
  destruct (settled (fetchAttestation net (p_model params) (p_apiKey params) _));
    [|discriminate].
  intros H. inversion H; subst. auto.
Qed.

(** The fields of the record in terms of the two outcomes. *)
Lemma verdict_fields (sig : option SignatureResponse) (att : option AttestationResponse)
      (err : option string) (t : Z) :
  let r := verdict ethers lower params sig att err t in
  vsignature r = sig /\ attestation r = att /\ error r = err
  /\ fetchedAt r = Some t
  /\ (requestHash r, responseHash r) = reconcile (localHashes params) sig
  /\ verified r =
       validateSignature ethers lower sig (requestHash r ++ ":" ++ responseHash r)
       && match att with Some _ => true | None => false end.
Proof.
  unfold verdict. destruct (reconcile (localHashes params) sig) as [rq rs].
  simpl. repeat split.
Qed.

End Orchestrator.

(** C1. In the record returned by [verifyMessage], [verified] is true only
    if the validation of the signature over the canonical payload (the
    reconciled request hash, a colon, the reconciled response hash)
    succeeded and the attestation fetch returned a record, whatever that
    record holds; when the attestation fetch fails after the signature was
    fetched, [verified] is false, also for a signature that validates. *)
Theorem verified_needs_signature_and_attestation :
  forall (net : Network) (ethers : string -> string -> option string)
         (lower : string -> string) (params : Params)
         (w w' : World) (r : VerificationData),
    verifyMessage net ethers lower params w = Fulfilled r w' ->
    (verified r = true ->
       validateSignature ethers lower (vsignature r)
                         (requestHash r ++ ":" ++ responseHash r) = true
       /\ (requestHash r, responseHash r) = reconcile (localHashes params) (vsignature r)
       /\ exists a : AttestationResponse,
            attestation r = Some a
            /\ fetchAttestation net (p_model params) (p_apiKey params)
                 (outcomeWorld (fetchSignature net (p_chatId params) (p_model params)
                                               (p_apiKey params) w))
               = Fulfilled a w')
    /\ (forall (s : SignatureResponse) (w1 : World) (e : JS.Error),
          fetchSignature net (p_chatId params) (p_model params) (p_apiKey params) w
          = Fulfilled s w1 ->
          fetchAttestation net (p_model params) (p_apiKey params) w1 = RejectedWith e w' ->
          verified r = false).
Proof.
  intros net ethers lower params w w' r Hrun.
  apply verifyMessage_Fulfilled in Hrun. cbv zeta in Hrun.
  destruct Hrun as (_ & _ & Hw & ->).
  set (o1 := fetchSignature net (p_chatId params) (p_model params) (p_apiKey params) w) in *.
  set (o2 := fetchAttestation net (p_model params) (p_apiKey params) (outcomeWorld o1)) in *.
  destruct (verdict_fields ethers lower params (fetched o1) (fetched o2)
                           (errorText (failure o1) (failure o2)) (now w'))
    as (Hs & Ha & _ & _ & Hrec & Hv).
  cbv zeta in Hs, Ha, Hrec, Hv. split.
  - intros Hver. rewrite Hv in Hver. apply andb_true_iff in Hver as [Hval Hatt].
    rewrite Hs. split; [exact Hval|]. split; [rewrite <- Hs at 3; rewrite Hs; exact Hrec|].
    rewrite Ha. destruct o2 as [a w2 | e w2 | w2] eqn:E2; simpl in Hatt, Hw |- *;
      try discriminate.
    exists a. subst w2. split; reflexivity.
  - intros s w1 e E1 E2. rewrite Hv.
    subst o2 o1. rewrite E1. cbn [outcomeWorld]. rewrite E2. cbn [fetched].
    apply andb_false_r.
Qed.

(** The two cases on an authority that serves both records and on one
    without attestation. *)
Lemma verified_needs_signature_and_attestation_witness :
  (exists r w',
      verifyMessage Sample.honest Sample.recover Sample.toLowerCase Sample.params Sample.w0
      = Fulfilled r w'
      /\ verified r = true
      /\ validateSignature Sample.recover Sample.toLowerCase (vsignature r)
                           (requestHash r ++ ":" ++ responseHash r) = true
      /\ attestation r = Some Sample.report)
  /\ (exists r w',
         verifyMessage Sample.noAttestation Sample.recover Sample.toLowerCase
                       Sample.params Sample.w0 = Fulfilled r w'
         /\ vsignature r = Some Sample.signed
         /\ verified r = false).
Proof.
  split.
  - set (r := Sample.recordOf (Some Sample.signed) (Some Sample.report) None 170).
    set (w' := mkWorld 170 [Request SignatureEndpoint 0; Request AttestationEndpoint 80]).
    assert (Hrun : verifyMessage Sample.honest Sample.recover Sample.toLowerCase
                                 Sample.params Sample.w0 = Fulfilled r w')
      by (vm_compute; reflexivity).
    assert (Hv : verified r = true) by (vm_compute; reflexivity).
    exists r, w'. split; [exact Hrun|]. split; [exact Hv|].
    destruct (proj1 (verified_needs_signature_and_attestation _ _ _ _ _ _ _ Hrun) Hv)
      as (Hval & _ & a & Ha & _).
    split; [exact Hval|]. vm_compute. reflexivity.
  - set (w1 := mkWorld 80 [Request SignatureEndpoint 0]).
    set (e := Sample.attestationError "Error: Attestation fetch failed: 404").
    set (w' := Sample.after (verifyMessage Sample.noAttestation Sample.recover
                                           Sample.toLowerCase Sample.params)).
    set (r := Sample.recordOf (Some Sample.signed) None
                (Some ("attestation-fetch-failed: " ++ JS.String_ e)) (now w')).
    assert (Hrun : verifyMessage Sample.noAttestation Sample.recover Sample.toLowerCase
                                 Sample.params Sample.w0 = Fulfilled r w')
      by (vm_compute; reflexivity).
    exists r, w'. split; [exact Hrun|]. split; [vm_compute; reflexivity|].
    apply (proj2 (verified_needs_signature_and_attestation _ _ _ _ _ _ _ Hrun)
                 Sample.signed w1 e); vm_compute; reflexivity.
Defined.

(** The two end-to-end scenarios: a record signed under the newline
    convention by the declared address, with an attestation, is verified
    and keeps the newline hashes; the same record with another declared
    address is not verified. *)
Example scenario_A :
  exists r w',
    verifyMessage Sample.honest Sample.recover Sample.toLowerCase Sample.params Sample.w0
    = Fulfilled r w'
    /\ verified r = true
    /\ requestHash r = computeHash (Sample.requestJson ++ nl2)
    /\ responseHash r = computeHash ("hello" ++ nl2).
Proof.
  do 2 eexists. split; [vm_compute; reflexivity|]. repeat split; vm_compute; reflexivity.
Qed.

Example scenario_B :
  exists r w',
    verifyMessage Sample.impostor Sample.recover Sample.toLowerCase Sample.params Sample.w0
    = Fulfilled r w'
    /\ verified r = false
    /\ requestHash r = computeHash (Sample.requestJson ++ nl2)
    /\ error r = None.
Proof.
  do 2 eexists. split; [vm_compute; reflexivity|]. repeat split; vm_compute; reflexivity.
Qed.

(** C6. A failed fetch leaves its label and the error in the error text of
    the record and stops neither the other fetch nor the attempt: after a
    failed signature fetch the attestation fetch still runs, and a failed
    attestation fetch keeps the signature that was fetched.  When both
    fail, the error text is the signature label and error, a semicolon and
    a space, then the attestation label and error.  In each case the
    record is returned, the failed evidence is absent from it, and
    [verified] is false. *)
Theorem fetch_failures_are_accumulated :
  forall (net : Network) (ethers : string -> string -> option string)
         (lower : string -> string) (params : Params) (w w1 w2 : World),
    (forall e1 e2,
        fetchSignature net (p_chatId params) (p_model params) (p_apiKey params) w
        = RejectedWith e1 w1 ->
        fetchAttestation net (p_model params) (p_apiKey params) w1 = RejectedWith e2 w2 ->
        exists r,
          verifyMessage net ethers lower params w = Fulfilled r w2
          /\ error r = Some ("signature-fetch-failed: " ++ JS.String_ e1 ++ "; "
                             ++ "attestation-fetch-failed: " ++ JS.String_ e2)
          /\ vsignature r = None /\ attestation r = None /\ verified r = false)
    /\ (forall e1 a,
          fetchSignature net (p_chatId params) (p_model params) (p_apiKey params) w
          = RejectedWith e1 w1 ->
          fetchAttestation net (p_model params) (p_apiKey params) w1 = Fulfilled a w2 ->
          exists r,
            verifyMessage net ethers lower params w = Fulfilled r w2
            /\ error r = Some ("signature-fetch-failed: " ++ JS.String_ e1)
            /\ vsignature r = None /\ attestation r = Some a /\ verified r = false)
    /\ (forall s e2,
          fetchSignature net (p_chatId params) (p_model params) (p_apiKey params) w
          = Fulfilled s w1 ->
          fetchAttestation net (p_model params) (p_apiKey params) w1 = RejectedWith e2 w2 ->
          exists r,
            verifyMessage net ethers lower params w = Fulfilled r w2
            /\ error r = Some ("attestation-fetch-failed: " ++ JS.String_ e2)
            /\ vsignature r = Some s /\ attestation r = None /\ verified r = false).
Proof.
  intros net ethers lower params w w1 w2.
  repeat split; intros x y E1 E2;
    eexists; rewrite verifyMessage_run; cbv zeta;
    rewrite E1; cbn [outcomeWorld settled]; rewrite E2;
    cbn [outcomeWorld settled fetched failure errorText];
    (split; [reflexivity|]);
    match goal with
    | |- context [verdict ?e ?l ?p ?s ?a ?err ?t] =>
        destruct (verdict_fields e l p s a err t) as (Hs & Ha & He & _ & _ & Hv);
        cbv zeta in Hs, Ha, He, Hv
    end;
    (split; [exact He|]); (split; [exact Hs|]); (split; [exact Ha|]);
    rewrite Hv; cbn [validateSignature andb]; try reflexivity; apply andb_false_r.
Qed.

(** The three cases on authorities that fail on both endpoints, on the
    signature only, and on the attestation only. *)
Lemma fetch_failures_are_accumulated_witness :
  (exists r w2,
      verifyMessage Sample.down Sample.recover Sample.toLowerCase Sample.params Sample.w0
      = Fulfilled r w2
      /\ error r =
         Some ("signature-fetch-failed: Error: Failed to fetch signature after retries: "
               ++ "Error: Signature fetch failed: 500; "
               ++ "attestation-fetch-failed: Error: Failed to fetch attestation after retries: "
               ++ "TypeError: fetch failed")
      /\ verified r = false)
  /\ (exists r w2,
         verifyMessage Sample.noSignature Sample.recover Sample.toLowerCase
                       Sample.params Sample.w0 = Fulfilled r w2
         /\ error r =
            Some ("signature-fetch-failed: Error: Failed to fetch signature after retries: "
                  ++ "Error: Signature fetch failed: 404")
         /\ attestation r = Some Sample.report)
  /\ (exists r w2,
         verifyMessage Sample.noAttestation Sample.recover Sample.toLowerCase
                       Sample.params Sample.w0 = Fulfilled r w2
         /\ error r =
            Some ("attestation-fetch-failed: Error: Failed to fetch attestation after "
                  ++ "retries: Error: Attestation fetch failed: 404")
         /\ vsignature r = Some Sample.signed).
Proof.
  split; [|split].
  - set (w1 := Sample.after (fetchSignature Sample.down "chat-1" "m" "key")).
    set (w2 := outcomeWorld (fetchAttestation Sample.down "m" "key" w1)).
    assert (E1 : fetchSignature Sample.down (p_chatId Sample.params) (p_model Sample.params)
                   (p_apiKey Sample.params) Sample.w0
                 = RejectedWith (Sample.signatureError "500") w1)
      by (vm_compute; reflexivity).
    assert (E2 : fetchAttestation Sample.down (p_model Sample.params)
                   (p_apiKey Sample.params) w1
                 = RejectedWith (Sample.attestationError "TypeError: fetch failed") w2)
      by (vm_compute; reflexivity).
    destruct (proj1 (fetch_failures_are_accumulated Sample.down Sample.recover
                       Sample.toLowerCase Sample.params Sample.w0 w1 w2) _ _ E1 E2)
      as (r & Hrun & Herr & _ & _ & Hv).
    exists r, w2. split; [exact Hrun|]. split; [|exact Hv].
    rewrite Herr. reflexivity.
  - set (w1 := Sample.after (fetchSignature Sample.noSignature "chat-1" "m" "key")).
    set (w2 := outcomeWorld (fetchAttestation Sample.noSignature "m" "key" w1)).
    assert (E1 : fetchSignature Sample.noSignature (p_chatId Sample.params)
                   (p_model Sample.params) (p_apiKey Sample.params) Sample.w0
                 = RejectedWith (Sample.signatureError "404") w1)
      by (vm_compute; reflexivity).
    assert (E2 : fetchAttestation Sample.noSignature (p_model Sample.params)
                   (p_apiKey Sample.params) w1
                 = Fulfilled Sample.report w2)
      by (vm_compute; reflexivity).
    destruct (proj1 (proj2 (fetch_failures_are_accumulated Sample.noSignature Sample.recover
                       Sample.toLowerCase Sample.params Sample.w0 w1 w2)) _ _ E1 E2)
      as (r & Hrun & Herr & _ & Ha & _).
    exists r, w2. split; [exact Hrun|]. split; [|exact Ha].
    rewrite Herr. reflexivity.
  - set (w1 := Sample.after (fetchSignature Sample.noAttestation "chat-1" "m" "key")).
    set (w2 := outcomeWorld (fetchAttestation Sample.noAttestation "m" "key" w1)).
    assert (E1 : fetchSignature Sample.noAttestation (p_chatId Sample.params)
                   (p_model Sample.params) (p_apiKey Sample.params) Sample.w0
                 = Fulfilled Sample.signed w1)
      by (vm_compute; reflexivity).
    assert (E2 : fetchAttestation Sample.noAttestation (p_model Sample.params)
                   (p_apiKey Sample.params) w1
                 = RejectedWith
                     (Sample.attestationError "Error: Attestation fetch failed: 404") w2)
      by (vm_compute; reflexivity).
    destruct (proj2 (proj2 (fetch_failures_are_accumulated Sample.noAttestation
                       Sample.recover Sample.toLowerCase Sample.params Sample.w0 w1 w2))
                    _ _ E1 E2)
      as (r & Hrun & Herr & Hs & _ & _).
    exists r, w2. split; [exact Hrun|]. split; [|exact Hs].
    rewrite Herr. reflexivity.
Defined.

(** C9. When the record returned by [verifyMessage] has an error text,
    [verified] is false; that text is not empty, and one of the two
    fetches has failed. *)
Theorem error_implies_not_verified :
  forall (net : Network) (ethers : string -> string -> option string)
         (lower : string -> string) (params : Params)
         (w w' : World) (r : VerificationData) (e : string),
    verifyMessage net ethers lower params w = Fulfilled r w' ->
    error r = Some e ->
    verified r = false
    /\ e <> EmptyString
    /\ (failure (fetchSignature net (p_chatId params) (p_model params)
                                (p_apiKey params) w) <> None
        \/ failure (fetchAttestation net (p_model params) (p_apiKey params)
                      (outcomeWorld (fetchSignature net (p_chatId params) (p_model params)
                                                    (p_apiKey params) w))) <> None).
Proof.
  intros net ethers lower params w w' r e Hrun Herr.
  apply verifyMessage_Fulfilled in Hrun. cbv zeta in Hrun.
  destruct Hrun as (_ & _ & _ & ->).
  set (o1 := fetchSignature net (p_chatId params) (p_model params) (p_apiKey params) w) in *.
  set (o2 := fetchAttestation net (p_model params) (p_apiKey params) (outcomeWorld o1)) in *.
  destruct (verdict_fields ethers lower params (fetched o1) (fetched o2)
                           (errorText (failure o1) (failure o2)) (now w'))
    as (_ & _ & He & _ & _ & Hv).
  cbv zeta in He, Hv. rewrite He in Herr. rewrite Hv. clear He Hv.
  clearbody o2.
  destruct o1 as [s w1 | e1 w1 | w1]; destruct o2 as [a w2 | e2 w2 | w2];
    cbn [failure fetched errorText outcomeWorld] in *; try discriminate;
    inversion Herr; subst e;
    (split; [cbn [validateSignature andb]; try reflexivity; apply andb_false_r|]);
    (split; [simpl; discriminate|]);
    solve [left; discriminate | right; discriminate].
Qed.

(** The statement on an authority that is down. *)
Lemma error_implies_not_verified_witness :
  exists r w' e,
    verifyMessage Sample.down Sample.recover Sample.toLowerCase Sample.params Sample.w0
    = Fulfilled r w'
    /\ error r = Some e
    /\ verified r = false.
Proof.
  set (w' := Sample.after (verifyMessage Sample.down Sample.recover Sample.toLowerCase
                                         Sample.params)).
  set (e := errorText (Some (Sample.signatureError "500"))
                      (Some (Sample.attestationError "TypeError: fetch failed"))).
  set (r := Sample.recordOf None None e (now w')).
  assert (Hrun : verifyMessage Sample.down Sample.recover Sample.toLowerCase
                               Sample.params Sample.w0 = Fulfilled r w')
    by (vm_compute; reflexivity).
  assert (He : error r = e) by (vm_compute; reflexivity).
  eexists r, w', _. split; [exact Hrun|]. split; [exact He|].
  exact (proj1 (error_implies_not_verified _ _ _ _ _ _ _ _ Hrun He)).
Defined.

(* ================================================================== *)
(** ** The order of the two fetches *)

Lemma firstRequest_app (ep : Endpoint) (l1 l2 : list Event) :
  requestsTo ep l1 = 0%nat ->
  firstRequest ep (l1 ++ l2)%list = firstRequest ep l2.
Proof.
  unfold requestsTo. induction l1 as [|ev l1 IH]; simpl; intros H; [reflexivity|].
  destruct (isRequestTo ep ev); [discriminate | auto].
Qed.

Lemma fullSchedule_other (k : nat) (ep ep' : Endpoint) :
  ep <> ep' -> requestsTo ep' (firstn k (fullSchedule ep)) = 0%nat.
Proof.
  intros Hne.
  do 10 (destruct k as [|k]; [destruct ep, ep'; try contradiction; reflexivity|]).
  destruct ep, ep'; try contradiction; reflexivity.
Qed.

(** The events of one fetcher: requests to its endpoint only, between one
    and five of them, the first one sent when the fetcher is called. *)
Lemma policy_events {A} (ep ep' : Endpoint) (reply : nat -> Reply A)
      (failed exhausted : string) (run : Async A) (w : World) :
  RetryPolicy ep reply failed exhausted run ->
  ep <> ep' ->
  exists evs,
    log (outcomeWorld (run w)) = (log w ++ evs)%list
    /\ hd_error evs = Some (Request ep (now w))
    /\ (1 <= requestsTo ep evs <= 5)%nat
    /\ requestsTo ep' evs = 0%nat
    /\ now w + waited evs <= now (outcomeWorld (run w)).
Proof.
  intros P Hne. destruct (proj1 (P w)) as (n & evs & Hn & Hl & Hh & Hs & Hr & Ht).
  exists evs. repeat split; auto; try lia.
  rewrite <- requestsTo_untimed, Hs. apply fullSchedule_other. exact Hne.
Qed.

(** C8 (amended). Within one verification attempt the two fetches run one
    after the other, whatever the outcome of the attempt: the signature
    fetch sends between one and five requests, to its own endpoint only;
    as long as it has not settled the attempt has not settled either and
    no attestation request has been sent; once it has settled, with a
    record or with a failure, the attestation fetch is called in the world
    in which it settled, so its first request is sent at that time, after
    every request and every wait of the signature fetch, and it sends no
    signature request; the attempt settles exactly when the attestation
    fetch does, and the record is built only when both have settled. *)
Theorem fetches_run_in_sequence :
  forall (net : Network) (ethers : string -> string -> option string)
         (lower : string -> string) (params : Params) (w : World),
    let o1 := fetchSignature net (p_chatId params) (p_model params) (p_apiKey params) w in
    let w1 := outcomeWorld o1 in
    let o2 := fetchAttestation net (p_model params) (p_apiKey params) w1 in
    let run := verifyMessage net ethers lower params w in
    exists evsS : list Event,
      log w1 = (log w ++ evsS)%list
      /\ (1 <= requestsTo SignatureEndpoint evsS <= 5)%nat
      /\ requestsTo AttestationEndpoint evsS = 0%nat
      /\ now w + waited evsS <= now w1
      /\ (settled o1 = false ->
          run = Unsettled w1
          /\ log (outcomeWorld run) = (log w ++ evsS)%list)
      /\ (settled o1 = true ->
          exists evsA : list Event,
            outcomeWorld run = outcomeWorld o2
            /\ log (outcomeWorld run) = (log w ++ evsS ++ evsA)%list
            /\ (1 <= requestsTo AttestationEndpoint evsA <= 5)%nat
            /\ requestsTo SignatureEndpoint evsA = 0%nat
            /\ firstRequest AttestationEndpoint (evsS ++ evsA)%list = Some (now w1)
            /\ settled run = settled o2)
      /\ (forall (r : VerificationData) (w' : World),
            run = Fulfilled r w' ->
            settled o1 = true /\ settled o2 = true /\ w' = outcomeWorld o2).
Proof.
  intros net ethers lower params w o1 w1 o2 run.
  assert (Hrun : run = if settled o1 then
                         if settled o2 then
                           Fulfilled (verdict ethers lower params (fetched o1) (fetched o2)
                                              (errorText (failure o1) (failure o2))
                                              (now (outcomeWorld o2)))
                                     (outcomeWorld o2)
                         else Unsettled (outcomeWorld o2)
                       else Unsettled w1).
  { exact (verifyMessage_run net ethers lower params w). }
  destruct (policy_events SignatureEndpoint AttestationEndpoint (signatureReply net)
              "Signature fetch failed: " "Failed to fetch signature after retries: "
              (fetchSignature net (p_chatId params) (p_model params) (p_apiKey params)) w)
    as (evsS & HlS & _ & HnS & HoS & HtS);
    [apply retryLoop_policy | discriminate |].
  fold o1 in HlS, HtS. fold w1 in HlS, HtS.
  exists evsS.
  split; [exact HlS|]. split; [exact HnS|]. split; [exact HoS|]. split; [exact HtS|].
  split; [|split].
  - intros Hs. rewrite Hs in Hrun. split; [exact Hrun|].
    rewrite Hrun. exact HlS.
  - intros Hs. rewrite Hs in Hrun.
    destruct (policy_events AttestationEndpoint SignatureEndpoint (attestationReply net)
                "Attestation fetch failed: " "Failed to fetch attestation after retries: "
                (fetchAttestation net (p_model params) (p_apiKey params)) w1)
      as (evsA & HlA & HhA & HnA & HoA & HtA);
      [apply retryLoop_policy | discriminate |].
    fold o2 in HlA, HtA.
    assert (Hw : outcomeWorld run = outcomeWorld o2).
    { rewrite Hrun. destruct (settled o2); reflexivity. }
    exists evsA.
    split; [exact Hw|].
    split; [rewrite Hw, HlA, HlS, <- app_assoc; reflexivity|].
    split; [exact HnA|]. split; [exact HoA|].
    split.
    + rewrite firstRequest_app by exact HoS.
      destruct evsA as [|ev evsA]; [discriminate|].
      simpl in HhA. inversion HhA; subst ev. reflexivity.
    + rewrite Hrun. destruct (settled o2); reflexivity.
  - intros r w' Hr. rewrite Hr in Hrun.
    destruct (settled o1); [|discriminate].
    destruct (settled o2); [|discriminate].
    inversion Hrun. auto.
Qed.

(** The statement on an authority that is down, where the attestation
    fetch starts when the signature fetch has used its five attempts, and
    on an authority whose signature endpoint never answers, where the
    attempt never settles and no attestation request is sent. *)
Lemma fetches_run_in_sequence_witness :
  (exists evsS evsA,
      settled (fetchSignature Sample.down (p_chatId Sample.params)
                              (p_model Sample.params) (p_apiKey Sample.params)
                              Sample.w0) = true
      /\ log (outcomeWorld (verifyMessage Sample.down Sample.recover Sample.toLowerCase
                                          Sample.params Sample.w0))
         = (log Sample.w0 ++ evsS ++ evsA)%list
      /\ firstRequest AttestationEndpoint (evsS ++ evsA)%list = Some 50600)
  /\ (exists evsS,
        settled (fetchSignature Sample.silent (p_chatId Sample.params)
                                (p_model Sample.params) (p_apiKey Sample.params)
                                Sample.w0) = false
        /\ settled (verifyMessage Sample.silent Sample.recover Sample.toLowerCase
                                  Sample.params Sample.w0) = false
        /\ log (outcomeWorld (verifyMessage Sample.silent Sample.recover
                                            Sample.toLowerCase Sample.params Sample.w0))
           = (log Sample.w0 ++ evsS)%list
        /\ requestsTo AttestationEndpoint evsS = 0%nat).
Proof.
  split.
  - destruct (fetches_run_in_sequence Sample.down Sample.recover Sample.toLowerCase
                                      Sample.params Sample.w0)
      as (evsS & _ & _ & _ & _ & _ & Hsettled & _).
    assert (Hs : settled (fetchSignature Sample.down (p_chatId Sample.params)
                                         (p_model Sample.params) (p_apiKey Sample.params)
                                         Sample.w0) = true)
      by (vm_compute; reflexivity).
    destruct (Hsettled Hs) as (evsA & _ & Hl & _ & _ & Hf & _).
    exists evsS, evsA. split; [exact Hs|]. split; [exact Hl|].
    rewrite Hf. vm_compute. reflexivity.
  - destruct (fetches_run_in_sequence Sample.silent Sample.recover Sample.toLowerCase
                                      Sample.params Sample.w0)
      as (evsS & _ & _ & Hno & _ & Hhang & _).
    assert (Hs : settled (fetchSignature Sample.silent (p_chatId Sample.params)
                                         (p_model Sample.params) (p_apiKey Sample.params)
                                         Sample.w0) = false)
      by (vm_compute; reflexivity).
    destruct (Hhang Hs) as (Hrun & Hl).
    exists evsS. split; [exact Hs|]. split; [rewrite Hrun; reflexivity|].
    split; [exact Hl | exact Hno].
Defined.

(** On an authority that is down, the first signature request is sent at
    time 0 and the first attestation request at 50.6 s, after the five
    signature requests and their waits: the two fetches are not issued
    together.  When the signature endpoint never answers, no attestation
    request is sent at all. *)
Lemma attestation_fetch_follows_signature_fetch :
  firstRequest SignatureEndpoint
    (log (Sample.after (verifyMessage Sample.down Sample.recover Sample.toLowerCase
                                      Sample.params))) = Some 0
  /\ firstRequest AttestationEndpoint
       (log (Sample.after (verifyMessage Sample.down Sample.recover Sample.toLowerCase
                                         Sample.params))) = Some 50600
  /\ ~ Spec.issuedTogether 0
       (log (Sample.after (verifyMessage Sample.down Sample.recover Sample.toLowerCase
                                         Sample.params)))
  /\ requestsTo AttestationEndpoint
       (log (Sample.after (verifyMessage Sample.silent Sample.recover Sample.toLowerCase
                                         Sample.params))) = 0%nat.
Proof.
  assert (H : firstRequest AttestationEndpoint
       (log (Sample.after (verifyMessage Sample.down Sample.recover Sample.toLowerCase
                                         Sample.params))) = Some 50600)
    by (vm_compute; reflexivity).
  split; [vm_compute; reflexivity|]. split; [exact H|]. split; [|vm_compute; reflexivity].
  intros [_ H']. rewrite H in H'. discriminate.
Qed.

(* ================================================================== *)
(** ** The verification task of the server *)

Lemma find_map_same_id (messageId : string) (f : UIMessage -> UIMessage)
      (messages : list UIMessage) :
  (forall m, id (f m) = id m) ->
  find (fun m => String.eqb (id m) messageId) (map f messages)
  = option_map f (find (fun m => String.eqb (id m) messageId) messages).
Proof.
  intros Hid. induction messages as [|m l IH]; simpl; [reflexivity|].
  rewrite Hid. destruct (String.eqb (id m) messageId); [reflexivity | exact IH].
Qed.

Lemma storeVerification_stored (messageId : string) (data : VerificationData)
      (messages : list UIMessage) (m : UIMessage) :
  find (fun m => String.eqb (id m) messageId) messages = Some m ->
  storedVerification messageId (storeVerification messageId data messages) = Some data
  /\ storedStatus messageId (storeVerification messageId data messages)
     = Some (if verified data then verifiedStatus else failed).
Proof.
  intros Hf. unfold storedVerification, storedStatus, storedMetadata, storeVerification.
  rewrite find_map_same_id, Hf.
  - apply find_some in Hf as [_ Hid]. simpl. rewrite Hid. simpl. auto.
  - intros m0. destruct (String.eqb (id m0) messageId); reflexivity.
Qed.

Lemma storeFailure_stored (messageId : string) (e : JS.Error) (c rq rs : string) (t : Z)
      (messages : list UIMessage) (m : UIMessage) :
  find (fun m => String.eqb (id m) messageId) messages = Some m ->
  storedStatus messageId (storeFailure messageId e c rq rs t messages) = Some failed
  /\ exists v,
       storedVerification messageId (storeFailure messageId e c rq rs t messages) = Some v
       /\ error v = Some (JS.String_ e) /\ verified v = false
       /\ requestHash v = rq /\ responseHash v = rs
       /\ fetchedAt v = Some t /\ chatId v = c /\ model v = NEAR_MODEL.
Proof.
  intros Hf. unfold storedVerification, storedStatus, storedMetadata, storeFailure.
  rewrite find_map_same_id, Hf.
  - apply find_some in Hf as [_ Hid]. simpl. rewrite Hid. simpl.
    split; [reflexivity|]. eexists. split; [reflexivity|]. simpl. repeat split.
  - intros m0. destruct (String.eqb (id m0) messageId); reflexivity.
Qed.

Lemma raceTimeout_early {A} (p : Async A) (e : JS.Error) (ms : Z) (w w' : World) (a : A) :
  p w = Fulfilled a w' -> now w' < now w + ms ->
  raceTimeout p e ms w = Resolved a (now w').
Proof.
  intros Hp Hlt. unfold raceTimeout. rewrite Hp.
  apply Z.ltb_lt in Hlt. rewrite Hlt. reflexivity.
Qed.

Lemma raceTimeout_late {A} (p : Async A) (e : JS.Error) (ms : Z) (w : World) :
  settled (p w) = false \/ now w + ms <= now (outcomeWorld (p w)) ->
  raceTimeout p e ms w = Rejected e (now w + ms).
Proof.
  intros Hlate. unfold raceTimeout.
  destruct (p w) as [a w' | e' w' | w']; cbn [settled outcomeWorld] in Hlate;
    [| |reflexivity];
    (destruct Hlate as [Hd | Hd]; [discriminate|]);
    apply Z.ltb_ge in Hd; rewrite Hd; reflexivity.
Qed.

(** When the signature endpoint never answers, the error stored for the
    message is the string form of the error object, with its name in
    front, and not the bare word. *)
Lemma timeout_error_has_prefix :
  option_map error (storedVerification "msg-1" (Sample.task Sample.silent))
  = Some (Some "Error: verification-timeout")
  /\ option_map error (storedVerification "msg-1" (Sample.task Sample.silent))
     <> Some (Some "verification-timeout").
Proof.
  assert (H : option_map error (storedVerification "msg-1" (Sample.task Sample.silent))
              = Some (Some "Error: verification-timeout"))
    by (vm_compute; reflexivity).
  split; [exact H|]. rewrite H. discriminate.
Qed.

(** C5 (amended). The task races [verifyMessage] against a timer of
    30 000 ms, a constant that does not depend on the retries.  When
    [verifyMessage] returns a record before the timer fires, that record is
    stored, with status verified or failed after its [verified] field.
    When it has not settled by then, the task still ends: it stores, with
    status failed, a record whose error is the text
    "Error: verification-timeout", with [verified] false and the request
    and response hashes computed under the newline convention. *)
Theorem verification_is_raced_against_timeout :
  forall (net : Network) (ethers : string -> string -> option string)
         (lower : string -> string)
         (c apiKey requestBody streamedText messageId : string)
         (w : World) (messages : list UIMessage) (m : UIMessage),
    c <> EmptyString ->
    apiKey <> EmptyString ->
    find (fun m => String.eqb (id m) messageId) messages = Some m ->
    let run :=
      verifyMessage net ethers lower
                    (mkParams c requestBody streamedText NEAR_MODEL apiKey) w in
    let result :=
      verificationTask net ethers lower (Some c) apiKey requestBody streamedText
                       messageId w messages in
    verificationTimeoutMs = 30000
    /\ (forall data w',
          run = Fulfilled data w' ->
          now w' < now w + 30000 ->
          storedVerification messageId result = Some data
          /\ storedStatus messageId result
             = Some (if verified data then verifiedStatus else failed))
    /\ (settled run = false \/ now w + 30000 <= now (outcomeWorld run) ->
        storedStatus messageId result = Some failed
        /\ exists v,
             storedVerification messageId result = Some v
             /\ error v = Some "Error: verification-timeout"
             /\ verified v = false
             /\ requestHash v = computeHash (requestBody ++ nl2)
             /\ responseHash v = computeHash (streamedText ++ nl2)
             /\ fetchedAt v = Some (now w + 30000)
             /\ chatId v = c /\ model v = NEAR_MODEL).
Proof.
  intros net ethers lower c apiKey requestBody streamedText messageId w messages m
         Hc Hk Hf run result.
  apply truthy_string_true in Hc, Hk.
  split; [reflexivity|].
  unfold result, verificationTask. rewrite Hc, Hk. cbn [andb]. split.
  - intros data w' Hrun Hlt.
    rewrite (raceTimeout_early _ _ _ _ _ _ Hrun Hlt).
    exact (storeVerification_stored messageId data messages m Hf).
  - intros Hlate. rewrite (raceTimeout_late _ _ _ _ Hlate).
    unfold JS.or_string. rewrite Hc.
    exact (storeFailure_stored messageId (JS.newError "verification-timeout") c
             (computeHash (requestBody ++ nl2)) (computeHash (streamedText ++ nl2))
             (now w + 30000) messages m Hf).
Qed.

(** The two cases: an authority that serves both records in time, and a
    signature endpoint that never answers. *)
Lemma verification_is_raced_against_timeout_witness :
  (storedStatus "msg-1" (Sample.task Sample.honest) = Some verifiedStatus)
  /\ (storedStatus "msg-1" (Sample.task Sample.silent) = Some failed
      /\ exists v,
           storedVerification "msg-1" (Sample.task Sample.silent) = Some v
           /\ error v = Some "Error: verification-timeout"
           /\ requestHash v = computeHash (Sample.requestJson ++ nl2)
           /\ fetchedAt v = Some 30000).
Proof.
  assert (Hc : "chat-1" <> EmptyString) by discriminate.
  assert (Hk : "key" <> EmptyString) by discriminate.
  assert (Hf : find (fun m => String.eqb (id m) "msg-1") [Sample.pendingMessage]
               = Some Sample.pendingMessage) by reflexivity.
  split.
  - destruct (verification_is_raced_against_timeout Sample.honest Sample.recover
                Sample.toLowerCase "chat-1" "key" Sample.requestJson "hello" "msg-1"
                Sample.w0 [Sample.pendingMessage] Sample.pendingMessage Hc Hk Hf)
      as (_ & Hearly & _).
    set (data := verdict Sample.recover Sample.toLowerCase
                   (mkParams "chat-1" Sample.requestJson "hello" NEAR_MODEL "key")
                   (Some Sample.signed) (Some Sample.report) None 170).
    destruct (Hearly data
                (mkWorld 170 [Request SignatureEndpoint 0; Request AttestationEndpoint 80]))
      as (_ & Hs).
    + vm_compute. reflexivity.
    + vm_compute. reflexivity.
    + unfold Sample.task. rewrite Hs.
      assert (Hv : verified data = true) by (vm_compute; reflexivity).
      rewrite Hv. reflexivity.
  - destruct (verification_is_raced_against_timeout Sample.silent Sample.recover
                Sample.toLowerCase "chat-1" "key" Sample.requestJson "hello" "msg-1"
                Sample.w0 [Sample.pendingMessage] Sample.pendingMessage Hc Hk Hf)
      as (_ & _ & Hlate).
    destruct Hlate as (Hs & v & Hv & He & _ & Hrq & _ & Ht & _).
    + left. vm_compute. reflexivity.
    + split; [exact Hs|]. exists v.
      split; [exact Hv|]. split; [exact He|]. split; [exact Hrq|]. exact Ht.
Defined.

(* ================================================================== *)
(** ** More on the evidence fetcher *)

Lemma schedule_after_failures (ep : Endpoint) (j n i : nat) :
  (1 <= n)%nat ->
  schedule ep i (j + n) = (failedAttempts ep i j ++ schedule ep (i + j) n)%list.
Proof.
  revert i. induction j as [|j IH]; intros i Hn.
  - rewrite Nat.add_0_r. reflexivity.
  - replace (S j + n)%nat with (S (S (j + n - 1))) by lia.
    change (schedule ep i (S (S (j + n - 1))))
      with (Request ep 0 :: Wait (nth i (delays backoff) 0) 0
              :: schedule ep (S i) (S (j + n - 1))).
    replace (S (j + n - 1)) with (j + n)%nat by lia.
    rewrite IH by exact Hn.
    replace (i + S j)%nat with (S i + j)%nat by lia. reflexivity.
Qed.

Lemma waited_failedAttempts (ep : Endpoint) (j : nat) :
  (j <= 4)%nat -> waited (failedAttempts ep 0 j) = waitedBefore j.
Proof.
  intros H. assert (j = 0 \/ j = 1 \/ j = 2 \/ j = 3 \/ j = 4)%nat as C by lia.
  destruct C as [-> | [-> | [-> | [-> | ->]]]]; reflexivity.
Qed.

Lemma waited_schedule_nonneg (ep : Endpoint) (n i : nat) : 0 <= waited (schedule ep i n).
Proof.
  revert i. induction n as [|n IH]; intros i; [simpl; lia|].
  destruct n as [|n]; [simpl; lia|].
  change (schedule ep i (S (S n)))
    with (Request ep 0 :: Wait (nth i (delays backoff) 0) 0 :: schedule ep (S i) (S n)).
  cbn [waited]. specialize (IH (S i)).
  assert (0 <= nth i (delays backoff) 0).
  { do 5 (destruct i as [|i]; [simpl; lia|]). simpl. destruct i; lia. }
  lia.
Qed.

Section FetcherRuns.

Context {A : Type}.
Variable ep : Endpoint.
Variable reply : nat -> Reply A.
Variables failed exhausted : string.

(** The clock never goes back during a fetch. *)
Lemma retryLoop_clock (k : nat) (lastError : option JS.Error) (w : World) :
  (k <= attempts backoff)%nat ->
  now w <= now (outcomeWorld (retryLoop (fetch_endpoint ep reply) failed exhausted
                                        k lastError w)).
Proof.
  intros Hk. destruct k as [|k]; [simpl; lia|].
  destruct (retryLoop_trace ep reply failed exhausted (S k) lastError w)
    as (n & evs & _ & _ & _ & Hs & Ht); [lia|].
  cbv zeta in Ht. rewrite <- waited_untimed, Hs in Ht.
  pose proof (waited_schedule_nonneg ep n (attempts backoff - S k)). lia.
Qed.

(** After [j] failed replies the loop has sent [j] requests, has waited
    after each of them, and goes on with the iterations that are left. *)
Lemma retryLoop_after_failures (j : nat) :
  forall (k : nat) (lastError : option JS.Error) (w : World),
    (j < k <= attempts backoff)%nat ->
    (forall i, (i < j)%nat ->
               failureCause failed (reply (requestsTo ep (log w) + i)) <> None) ->
    exists (w1 : World) (evs : list Event) (lastError' : option JS.Error),
      retryLoop (fetch_endpoint ep reply) failed exhausted k lastError w
      = retryLoop (fetch_endpoint ep reply) failed exhausted (k - j) lastError' w1
      /\ log w1 = (log w ++ evs)%list
      /\ map untimed evs = failedAttempts ep (attempts backoff - k) j
      /\ requestsTo ep (log w1) = (requestsTo ep (log w) + j)%nat
      /\ now w + waited evs <= now w1.
Proof.
  induction j as [|j IH]; intros k lastError w Hk Hall.
  - exists w, [], lastError. rewrite Nat.sub_0_r, app_nil_r, Nat.add_0_r.
    simpl. repeat split; lia.
  - destruct k as [|k]; [lia|].
    cbn [retryLoop]. unfold try_catch.
    destruct (attempt_step ep reply failed w) as (Hlog & Hnow & Hfail).
    pose proof (Hall 0%nat ltac:(lia)) as H0. rewrite Nat.add_0_r in H0.
    destruct (attempt (fetch_endpoint ep reply) failed w) as [a w1 | e w1 | w1];
      simpl in Hlog, Hnow, Hfail; try (symmetry in Hfail; contradiction).
    rewrite loop_index by lia. unfold bind.
    destruct k as [|k]; [lia|]. cbn [Nat.eqb negb sleep].
    set (d := nth (attempts backoff - S (S k)) (delays backoff) 0).
    set (w2 := mkWorld (now w1 + d) (log w1 ++ [Wait d (now w1)])%list).
    assert (Hc : requestsTo ep (log w2) = S (requestsTo ep (log w))).
    { unfold w2. cbn [log]. rewrite Hlog, !requestsTo_app.
      unfold requestsTo at 2 3. destruct ep; simpl; lia. }
    destruct (IH (S k) (Some e) w2) as (w3 & evs & last' & Hrun & Hl & Hs & Hr & Ht); [lia| |].
    + intros i Hi. rewrite Hc. specialize (Hall (S i) ltac:(lia)).
      replace (S (requestsTo ep (log w)) + i)%nat
        with (requestsTo ep (log w) + S i)%nat by lia.
      exact Hall.
    + exists w3, (Request ep (now w) :: Wait d (now w1) :: evs), last'.
      split; [exact Hrun|]. split; [|split; [|split]].
      * rewrite Hl. unfold w2. cbn [log]. rewrite Hlog, <- !app_assoc. reflexivity.
      * cbn [map untimed failedAttempts]. rewrite Hs.
        replace (attempts backoff - S k)%nat with (S (attempts backoff - S (S k))) by lia.
        reflexivity.
      * rewrite Hr, Hc. lia.
      * cbn [waited]. subst w2. cbn [now] in Ht. lia.
Qed.

(** A fetch throws only when every attempt that was left has failed. *)
Lemma retryLoop_rejects_only_exhausted (k : nat) :
  forall (lastError : option JS.Error) (w w' : World) (e : JS.Error),
    (k <= attempts backoff)%nat ->
    retryLoop (fetch_endpoint ep reply) failed exhausted k lastError w = RejectedWith e w' ->
    forall i, (i < k)%nat ->
              failureCause failed (reply (requestsTo ep (log w) + i)) <> None.
Proof.
  induction k as [|k IH]; intros lastError w w' e Hk Hrun i Hi; [lia|].
  cbn [retryLoop] in Hrun. unfold try_catch in Hrun.
  destruct (attempt_step ep reply failed w) as (Hlog & Hnow & Hfail).
  destruct (attempt (fetch_endpoint ep reply) failed w) as [a w1 | e1 w1 | w1];
    simpl in Hlog, Hnow, Hfail; try discriminate.
  destruct i as [|i].
  - rewrite Nat.add_0_r, <- Hfail. discriminate.
  - rewrite loop_index in Hrun by lia. unfold bind in Hrun.
    destruct k as [|k]; [lia|]. cbn [Nat.eqb negb sleep] in Hrun.
    set (d := nth (attempts backoff - S (S k)) (delays backoff) 0) in Hrun.
    set (w2 := mkWorld (now w1 + d) (log w1 ++ [Wait d (now w1)])%list) in Hrun.
    assert (Hc : requestsTo ep (log w2) = S (requestsTo ep (log w))).
    { unfold w2. cbn [log]. rewrite Hlog, !requestsTo_app.
      unfold requestsTo at 2 3. destruct ep; simpl; lia. }
    pose proof (IH (Some e1) w2 w' e ltac:(lia) Hrun i ltac:(lia)) as H.
    rewrite Hc in H.
    replace (requestsTo ep (log w) + S i)%nat
      with (S (requestsTo ep (log w)) + i)%nat by lia.
    exact H.
Qed.

(** What the attempt does on a reply that is not a failure. *)
Lemma attempt_not_failed (w : World) :
  failureCause failed (reply (requestsTo ep (log w))) = None ->
  let o := attempt (fetch_endpoint ep reply) failed w in
  failure o = None
  /\ fetched o = match reply (requestsTo ep (log w)) with
                 | HttpResponse _ _ _ (inr a) => Some a
                 | _ => None
                 end
  /\ settled o = match reply (requestsTo ep (log w)) with
                 | NeverSettles => false
                 | _ => true
                 end.
Proof.
  unfold attempt, fetch_endpoint, bind, settle, json, throw, ret. simpl.
  destruct (reply (requestsTo ep (log w))) as [l e | l o s b | ]; simpl.
  - discriminate.
  - destruct o; [destruct b|]; simpl; try discriminate; auto.
  - auto.
Qed.

(** A live endpoint (one that settles every request) makes the fetch
    settle. *)
Lemma retryLoop_settles (k : nat) :
  forall (lastError : option JS.Error) (w : World),
    (forall n, reply n <> NeverSettles) ->
    settled (retryLoop (fetch_endpoint ep reply) failed exhausted k lastError w) = true.
Proof.
  induction k as [|k IH]; intros lastError w Hlive; [reflexivity|].
  cbn [retryLoop]. unfold try_catch.
  pose proof (Hlive (requestsTo ep (log w))) as H0.
  destruct (attempt (fetch_endpoint ep reply) failed w) as [a w1 | e w1 | w1] eqn:E.
  - reflexivity.
  - unfold bind.
    destruct (attempts backoff - S k <? attempts backoff - 1)%nat; cbn [sleep ret];
      apply IH; exact Hlive.
  - exfalso. revert E.
    unfold attempt, fetch_endpoint, bind, settle, json, throw, ret. simpl.
    destruct (reply (requestsTo ep (log w))) as [l e | l o s b | ]; simpl;
      [discriminate | | contradiction].
    destruct o; [destruct b|]; simpl; discriminate.
Qed.

End FetcherRuns.

Lemma fullSchedule_after_failures (ep : Endpoint) (j : nat) :
  (j <= 4)%nat ->
  (failedAttempts ep 0 j ++ [Request ep 0])%list = firstn (2 * j + 1) (fullSchedule ep).
Proof.
  intros H. assert (j = 0 \/ j = 1 \/ j = 2 \/ j = 3 \/ j = 4)%nat as C by lia.
  destruct C as [-> | [-> | [-> | [-> | ->]]]]; reflexivity.
Qed.

Lemma retryLoop_stops_at_first_answer {A} (ep : Endpoint) (reply : nat -> Reply A)
      (failed exhausted : string) :
  StopsAtFirstAnswer ep reply failed
    (fun w => retryLoop (fetch_endpoint ep reply) failed exhausted (attempts backoff) None w).
Proof.
  intros w j Hj Hall Hans.
  destruct (retryLoop_after_failures ep reply failed exhausted j (attempts backoff) None w)
    as (w1 & evs & last' & Hrun & Hl & Hs & Hr & Ht); [simpl; lia | exact Hall |].
  rewrite Hrun. change (attempts backoff - attempts backoff)%nat with 0%nat in Hs.
  destruct (attempts backoff - j)%nat as [|k] eqn:Ek;
    [change (attempts backoff) with 5%nat in Ek; lia|].
  cbn [retryLoop]. unfold try_catch.
  destruct (attempt_step ep reply failed w1) as (Hlog & Hnow & Hfail).
  destruct (attempt_not_failed ep reply failed w1) as (Hf & Hfe & Hse);
    [rewrite Hr; exact Hans|].
  cbv zeta in Hf, Hfe, Hse. rewrite Hr in Hfe, Hse.
  destruct (attempt (fetch_endpoint ep reply) failed w1) as [a w2 | e w2 | w2];
    cbn [failure fetched settled outcomeWorld] in *; try discriminate.
  - exists (evs ++ [Request ep (now w1)])%list.
    split; [rewrite Hlog, Hl, app_assoc; reflexivity|].
    split; [rewrite map_app, Hs; apply fullSchedule_after_failures; exact Hj|].
    split.
    + rewrite waited_app. cbn [waited]. rewrite <- waited_untimed, Hs.
      rewrite waited_failedAttempts by exact Hj. lia.
    + destruct (reply (requestsTo ep (log w) + j)%nat) as [l e | l o s [e|a'] | ];
        try discriminate.
      inversion Hfe; subst. reflexivity.
  - exists (evs ++ [Request ep (now w1)])%list.
    split; [rewrite Hlog, Hl, app_assoc; reflexivity|].
    split; [rewrite map_app, Hs; apply fullSchedule_after_failures; exact Hj|].
    split.
    + rewrite waited_app. cbn [waited]. rewrite <- waited_untimed, Hs.
      rewrite waited_failedAttempts by exact Hj. lia.
    + destruct (reply (requestsTo ep (log w) + j)%nat) as [l e | l o s [e|a'] | ];
        try discriminate; reflexivity.
Qed.

Lemma retryLoop_throws_only_when_exhausted {A} (ep : Endpoint) (reply : nat -> Reply A)
      (failed exhausted : string) :
  ThrowsOnlyWhenExhausted ep reply failed exhausted
    (fun w => retryLoop (fetch_endpoint ep reply) failed exhausted (attempts backoff) None w).
Proof.
  intros w w' e Hrun.
  assert (Hall : forall i, (i < 5)%nat ->
            failureCause failed (reply (requestsTo ep (log w) + i)%nat) <> None).
  { intros i Hi.
    exact (retryLoop_rejects_only_exhausted ep reply failed exhausted (attempts backoff)
             None w w' e (le_n _) Hrun i Hi). }
  split; [exact Hall|].
  destruct (retryLoop_exhausted ep reply failed exhausted (attempts backoff) None w)
    as (cause & w'' & evs & Hc & Hrun' & Hl & Hs & _); [simpl; lia | exact Hall |].
  rewrite Hrun' in Hrun. inversion Hrun; subst. split.
  - rewrite Hl, requestsTo_app, <- (requestsTo_untimed ep evs), Hs.
    rewrite requestsTo_schedule. reflexivity.
  - exists cause. split; [exact Hc | reflexivity].
Qed.

(** X2. Each fetcher stops at the first reply that is not a failure: after
    [j] failed replies it has sent [j + 1] requests, separated by the
    waits of the table, and it returns the record that this reply carries;
    when this reply never comes the fetch never settles, for the fetchers
    set no time limit of their own. *)
Theorem fetch_stops_at_first_answer :
  forall (net : Network) (chatId model apiKey : string),
    StopsAtFirstAnswer SignatureEndpoint (signatureReply net)
                       "Signature fetch failed: "
                       (fetchSignature net chatId model apiKey)
    /\ StopsAtFirstAnswer AttestationEndpoint (attestationReply net)
                          "Attestation fetch failed: "
                          (fetchAttestation net model apiKey).
Proof.
  intros net chatId model apiKey.
  split.
  - exact (retryLoop_stops_at_first_answer SignatureEndpoint (signatureReply net)
             "Signature fetch failed: " "Failed to fetch signature after retries: ").
  - exact (retryLoop_stops_at_first_answer AttestationEndpoint (attestationReply net)
             "Attestation fetch failed: " "Failed to fetch attestation after retries: ").
Qed.

(** The statement on an authority that answers 503 twice: the third
    request brings the record, after waits of 5 and 10 seconds. *)
Lemma fetch_stops_at_first_answer_witness :
  exists w',
    fetchSignature Sample.flaky "chat-1" "m" "key" Sample.w0 = Fulfilled Sample.signed w'
    /\ requestsTo SignatureEndpoint (log w') = 3%nat
    /\ waited (log w') = 15000.
Proof.
  destruct (proj1 (fetch_stops_at_first_answer Sample.flaky "chat-1" "m" "key")
                  Sample.w0 2%nat) as (evs & Hl & Hs & Hw & Hrun).
  - lia.
  - intros i Hi. destruct i as [|[|i]]; [discriminate | discriminate | lia].
  - reflexivity.
  - exists (outcomeWorld (fetchSignature Sample.flaky "chat-1" "m" "key" Sample.w0)).
    split; [exact Hrun|]. rewrite Hl. split.
    + rewrite requestsTo_app, <- (requestsTo_untimed _ evs), Hs. reflexivity.
    + rewrite waited_app, Hw. reflexivity.
Defined.

(** X3. A fetcher throws only after five failed replies: it never gives up
    earlier and never passes on the error of a single attempt; what it
    throws is the error whose message names the cause of the fifth
    failure. *)
Theorem fetch_throws_only_when_exhausted :
  forall (net : Network) (chatId model apiKey : string),
    ThrowsOnlyWhenExhausted SignatureEndpoint (signatureReply net)
                            "Signature fetch failed: "
                            "Failed to fetch signature after retries: "
                            (fetchSignature net chatId model apiKey)
    /\ ThrowsOnlyWhenExhausted AttestationEndpoint (attestationReply net)
                               "Attestation fetch failed: "
                               "Failed to fetch attestation after retries: "
                               (fetchAttestation net model apiKey).
Proof.
  intros net chatId model apiKey. split; apply retryLoop_throws_only_when_exhausted.
Qed.

Lemma fetch_throws_only_when_exhausted_witness :
  exists e w',
    fetchAttestation Sample.down "m" "key" Sample.w0 = RejectedWith e w'
    /\ requestsTo AttestationEndpoint (log w') = 5%nat
    /\ e = JS.newError "Failed to fetch attestation after retries: TypeError: fetch failed".
Proof.
  set (w' := Sample.after (fetchAttestation Sample.down "m" "key")).
  assert (Hrun : fetchAttestation Sample.down "m" "key" Sample.w0
                 = RejectedWith (Sample.attestationError "TypeError: fetch failed") w')
    by (vm_compute; reflexivity).
  destruct (proj2 (fetch_throws_only_when_exhausted Sample.down "chat-1" "m" "key")
                  Sample.w0 w' _ Hrun) as (_ & Hn & cause & Hc & He).
  exists (Sample.attestationError "TypeError: fetch failed"), w'.
  split; [exact Hrun|]. split; [exact Hn|].
  rewrite He. inversion Hc. reflexivity.
Defined.

(* ================================================================== *)
(** ** More on the validator and the reconciler *)

(** X4. When the record carries a signed text of its own (a non-empty
    [text], or else a non-empty [signedHash]), the validator never looks at
    the payload it is given: its verdict is the same for every payload. *)
Theorem validateSignature_ignores_payload :
  forall (ethers : string -> string -> option string) (lower : string -> string)
         (sig : SignatureResponse) (own : string),
    own <> EmptyString ->
    text sig = Some own \/ signedHash sig = Some own ->
    forall p p' : string,
      validateSignature ethers lower (Some sig) p
      = validateSignature ethers lower (Some sig) p'.
Proof.
  intros ethers lower sig own Hne Hown p p'.
  assert (Hsel : signedPayload sig p = signedPayload sig p').
  { unfold signedPayload. apply truthy_string_true in Hne.
    destruct Hown as [Ht | Hh].
    - rewrite Ht. simpl. rewrite Hne. reflexivity.
    - rewrite Hh. destruct (text sig) as [t|]; simpl; rewrite ?Hne;
        [destruct (JS.truthy_string t)|]; reflexivity. }
  unfold validateSignature. rewrite Hsel. reflexivity.
Qed.

Lemma validateSignature_ignores_payload_witness :
  validateSignature Sample.recover Sample.toLowerCase (Some Sample.anonymous) "req:res"
  = validateSignature Sample.recover Sample.toLowerCase (Some Sample.anonymous) "other".
Proof.
  apply (validateSignature_ignores_payload Sample.recover Sample.toLowerCase
           Sample.anonymous "req:res"); [discriminate | left; reflexivity].
Defined.

Lemma split_two_fields (t a b : string) :
  JS.split ":" t = [a; b] -> t = a ++ ":" ++ b.
Proof.
  intros Hs. pose proof (split_twoFields t) as H.
  destruct (Spec.twoFields t) as [[a' b']|] eqn:E.
  - rewrite Hs in H. inversion H; subst. apply twoFields_sound in E. tauto.
  - rewrite Hs in H. contradiction H. reflexivity.
Qed.

(** X5. When the record reports a text of exactly two colon-delimited
    fields, the canonical payload built from the reconciled hashes is that
    text itself, in each of the three branches: the payload handed to the
    validator is then always the provider's own text. *)
Theorem canonical_payload_is_reported_text :
  forall (h : Hashes) (sig : SignatureResponse) (t a b : string),
    text sig = Some t ->
    JS.split ":" t = [a; b] ->
    fst (reconcile h (Some sig)) ++ ":" ++ snd (reconcile h (Some sig)) = t.
Proof.
  intros h sig t a b Ht Hs.
  pose proof (split_two_fields t a b Hs) as E.
  unfold reconcile, reportedText. rewrite Ht.
  assert (Hne : JS.truthy_string t = true).
  { apply truthy_string_true. rewrite E. destruct a; discriminate. }
  rewrite Hne, Hs. cbn [List.length Nat.eqb nth]. rewrite E.
  destruct (String.eqb a (requestHashWithNewlines h)
            && String.eqb b (responseHashWithNewlines h)) eqn:M1.
  - apply andb_true_iff in M1 as [Ea Eb]. apply String.eqb_eq in Ea, Eb.
    cbn [fst snd]. congruence.
  - destruct (String.eqb a (requestHashNoNewlines h)
              && String.eqb b (responseHashNoNewlines h)) eqn:M2.
    + apply andb_true_iff in M2 as [Ea Eb]. apply String.eqb_eq in Ea, Eb.
      cbn [fst snd]. congruence.
    + reflexivity.
Qed.

Lemma canonical_payload_is_reported_text_witness :
  fst (reconcile (localHashes Sample.params) (Some Sample.emptyAddress)) ++ ":"
  ++ snd (reconcile (localHashes Sample.params) (Some Sample.emptyAddress)) = "req:res".
Proof.
  apply (canonical_payload_is_reported_text (localHashes Sample.params)
           Sample.emptyAddress "req:res" "req" "res"); reflexivity.
Defined.

(* ================================================================== *)
(** ** More on the orchestrator *)

Lemma verifyMessage_world (net : Network) (ethers : string -> string -> option string)
      (lower : string -> string) (params : Params) (w : World) :
  let o1 := fetchSignature net (p_chatId params) (p_model params) (p_apiKey params) w in
  let o2 := fetchAttestation net (p_model params) (p_apiKey params) (outcomeWorld o1) in
  outcomeWorld (verifyMessage net ethers lower params w)
  = if settled o1 then outcomeWorld o2 else outcomeWorld o1.
Proof.
  cbv zeta. rewrite verifyMessage_run. cbv zeta.
  destruct (settled (fetchSignature net _ _ _ w)); [|reflexivity].
  destruct (settled (fetchAttestation net _ _ _)); reflexivity.
Qed.

(** X6. When every request to both endpoints settles, with a failure or
    with a response whose body is a record of the declared type or cannot
    be read, [verifyMessage] returns a record: it does not hang, whether
    the fetches succeed or fail.  The record is stamped with the time at
    which the call ends and with the chat id and the model it was given. *)
Theorem verifyMessage_returns_on_live_network :
  forall (net : Network) (ethers : string -> string -> option string)
         (lower : string -> string) (params : Params) (w : World),
    (forall n, signatureReply net n <> NeverSettles) ->
    (forall n, attestationReply net n <> NeverSettles) ->
    exists r w',
      verifyMessage net ethers lower params w = Fulfilled r w'
      /\ fetchedAt r = Some (now w')
      /\ chatId r = p_chatId params
      /\ model r = p_model params.
Proof.
  intros net ethers lower params w HliveS HliveA.
  rewrite verifyMessage_run. cbv zeta.
  unfold fetchSignature at 1, fetchAttestation at 1.
  rewrite (retryLoop_settles SignatureEndpoint (signatureReply net)) by exact HliveS.
  rewrite (retryLoop_settles AttestationEndpoint (attestationReply net)) by exact HliveA.
  eexists. eexists. split; [reflexivity|].
  unfold verdict. destruct (reconcile _ _). simpl. auto.
Qed.

Lemma verifyMessage_returns_on_live_network_witness :
  exists r w',
    verifyMessage Sample.flaky Sample.recover Sample.toLowerCase Sample.params Sample.w0
    = Fulfilled r w'
    /\ fetchedAt r = Some (now w').
Proof.
  destruct (verifyMessage_returns_on_live_network Sample.flaky Sample.recover
              Sample.toLowerCase Sample.params Sample.w0)
    as (r & w' & Hrun & Ht & _).
  - intros n. simpl. destruct (n <? 2)%nat; discriminate.
  - intros n. discriminate.
  - exists r, w'. split; [exact Hrun | exact Ht].
Defined.

(** X7. The converse of the [verified] invariant: when both fetches return
    records and the signature validates over the canonical payload, the
    record is returned with [verified] true, without error text, and with
    both pieces of evidence. *)
Theorem verified_when_signature_validates_and_attestation_present :
  forall (net : Network) (ethers : string -> string -> option string)
         (lower : string -> string) (params : Params) (w w1 w2 : World)
         (s : SignatureResponse) (a : AttestationResponse),
    fetchSignature net (p_chatId params) (p_model params) (p_apiKey params) w
    = Fulfilled s w1 ->
    fetchAttestation net (p_model params) (p_apiKey params) w1 = Fulfilled a w2 ->
    validateSignature ethers lower (Some s)
      (fst (reconcile (localHashes params) (Some s)) ++ ":"
       ++ snd (reconcile (localHashes params) (Some s))) = true ->
    exists r,
      verifyMessage net ethers lower params w = Fulfilled r w2
      /\ verified r = true /\ error r = None
      /\ vsignature r = Some s /\ attestation r = Some a
      /\ requestHash r = fst (reconcile (localHashes params) (Some s))
      /\ responseHash r = snd (reconcile (localHashes params) (Some s)).
Proof.
  intros net ethers lower params w w1 w2 s a E1 E2 Hval.
  eexists. rewrite verifyMessage_run. cbv zeta.
  rewrite E1. cbn [outcomeWorld settled]. rewrite E2.
  cbn [outcomeWorld settled fetched failure errorText].
  split; [reflexivity|].
  unfold verdict. destruct (reconcile (localHashes params) (Some s)) as [rq rs].
  cbn [fst snd] in Hval.
  cbn [verified error vsignature attestation requestHash responseHash fst snd].
  rewrite Hval. repeat split.
Qed.

Lemma verified_when_signature_validates_and_attestation_present_witness :
  exists r w2,
    verifyMessage Sample.flaky Sample.recover Sample.toLowerCase Sample.params Sample.w0
    = Fulfilled r w2
    /\ verified r = true /\ error r = None.
Proof.
  set (w1 := Sample.after (fetchSignature Sample.flaky "chat-1" "m" "key")).
  set (w2 := outcomeWorld (fetchAttestation Sample.flaky "m" "key" w1)).
  destruct (verified_when_signature_validates_and_attestation_present
              Sample.flaky Sample.recover Sample.toLowerCase Sample.params
              Sample.w0 w1 w2 Sample.signed Sample.report)
    as (r & Hrun & Hv & He & _); try (vm_compute; reflexivity).
  exists r, w2. split; [exact Hrun|]. split; [exact Hv | exact He].
Defined.

Lemma fullSchedule_waited (ep : Endpoint) (n : nat) :
  0 <= waited (firstn n (fullSchedule ep)) <= 50000.
Proof.
  do 10 (destruct n as [|n]; [simpl; lia|]). simpl. lia.
Qed.

(** The events of one fetcher, with the bound on its waits. *)
Lemma fetch_effort {A} (ep ep' : Endpoint) (reply : nat -> Reply A)
      (failed exhausted : string) (w : World) :
  ep <> ep' ->
  let run := retryLoop (fetch_endpoint ep reply) failed exhausted (attempts backoff) None in
  exists evs,
    log (outcomeWorld (run w)) = (log w ++ evs)%list
    /\ (requestsTo ep evs <= 5)%nat
    /\ requestsTo ep' evs = 0%nat
    /\ 0 <= waited evs <= 50000.
Proof.
  intros Hne run.
  destruct (proj1 (retryLoop_policy ep reply failed exhausted w))
    as (n & evs & Hn & Hl & Hh & Hs & Hr & Ht).
  exists evs. split; [exact Hl|]. split; [lia|]. split.
  - rewrite <- requestsTo_untimed, Hs. apply fullSchedule_other. exact Hne.
  - rewrite <- waited_untimed, Hs. apply fullSchedule_waited.
Qed.

(** X8. One call of [verifyMessage], whether it returns or not, sends at
    most five requests to each endpoint and waits at most 100 seconds on
    its timers in all. *)
Theorem verifyMessage_effort_is_bounded :
  forall (net : Network) (ethers : string -> string -> option string)
         (lower : string -> string) (params : Params) (w : World),
  exists evs : list Event,
    log (outcomeWorld (verifyMessage net ethers lower params w)) = (log w ++ evs)%list
    /\ (requestsTo SignatureEndpoint evs <= 5)%nat
    /\ (requestsTo AttestationEndpoint evs <= 5)%nat
    /\ 0 <= waited evs <= 100000.
Proof.
  intros net ethers lower params w. rewrite verifyMessage_world. cbv zeta.
  destruct (fetch_effort SignatureEndpoint AttestationEndpoint (signatureReply net)
              "Signature fetch failed: " "Failed to fetch signature after retries: " w)
    as (evsS & HlS & HnS & HoS & HwS); [discriminate|].
  fold (fetchSignature net (p_chatId params) (p_model params) (p_apiKey params)) in HlS.
  set (o1 := fetchSignature net (p_chatId params) (p_model params) (p_apiKey params) w) in *.
  destruct (settled o1).
  - destruct (fetch_effort AttestationEndpoint SignatureEndpoint (attestationReply net)
                "Attestation fetch failed: " "Failed to fetch attestation after retries: "
                (outcomeWorld o1))
      as (evsA & HlA & HnA & HoA & HwA); [discriminate|].
    fold (fetchAttestation net (p_model params) (p_apiKey params)) in HlA.
    exists (evsS ++ evsA)%list.
    rewrite HlA, HlS, <- app_assoc, !requestsTo_app, waited_app.
    repeat split; lia.
  - exists evsS. rewrite HlS. repeat split; lia.
Qed.

(* ================================================================== *)
(** ** More on the verification task *)

(** After three failed signature replies the clock of [verifyMessage] has
    reached the ceiling of the task. *)
Lemma three_failures_reach_the_ceiling
      (net : Network) (ethers : string -> string -> option string)
      (lower : string -> string) (params : Params) (w : World) :
  (forall i, (i < 3)%nat ->
     failureCause "Signature fetch failed: "
       (signatureReply net (requestsTo SignatureEndpoint (log w) + i)%nat) <> None) ->
  now w + 30000 <= now (outcomeWorld (verifyMessage net ethers lower params w)).
Proof.
  intros Hall. rewrite verifyMessage_world. cbv zeta.
  assert (H1 : now w + 30000
               <= now (outcomeWorld (fetchSignature net (p_chatId params) (p_model params)
                                                    (p_apiKey params) w))).
  { unfold fetchSignature.
    destruct (retryLoop_after_failures SignatureEndpoint (signatureReply net)
                "Signature fetch failed: " "Failed to fetch signature after retries: "
                3 (attempts backoff) None w)
      as (w1 & evs & last' & Hrun & _ & Hs & _ & Ht); [simpl; lia | exact Hall |].
    rewrite Hrun. rewrite <- waited_untimed, Hs in Ht.
    change (waited (failedAttempts SignatureEndpoint (attempts backoff - attempts backoff) 3))
      with 30000 in Ht.
    pose proof (retryLoop_clock SignatureEndpoint (signatureReply net)
                  "Signature fetch failed: " "Failed to fetch signature after retries: "
                  (attempts backoff - 3) last' w1 ltac:(simpl; lia)).
    lia. }
  destruct (settled _); [|exact H1].
  pose proof (retryLoop_clock AttestationEndpoint (attestationReply net)
                "Attestation fetch failed: " "Failed to fetch attestation after retries: "
                (attempts backoff) None
                (outcomeWorld (fetchSignature net (p_chatId params) (p_model params)
                                              (p_apiKey params) w)) (le_n _)) as H2.
  fold (fetchAttestation net (p_model params) (p_apiKey params)) in H2. lia.
Qed.

(** X9. The retries beyond the third are of no use to the task: when the
    first three signature replies are failures, the waits of the fetcher
    (5 + 10 + 15 seconds) use up the 30 seconds of the task, which stores
    the timeout failure whatever the later replies are. *)
Theorem three_failed_signature_replies_time_out :
  forall (net : Network) (ethers : string -> string -> option string)
         (lower : string -> string)
         (c apiKey requestBody streamedText messageId : string)
         (w : World) (messages : list UIMessage) (m : UIMessage),
    c <> EmptyString ->
    apiKey <> EmptyString ->
    find (fun m => String.eqb (id m) messageId) messages = Some m ->
    (forall i, (i < 3)%nat ->
       failureCause "Signature fetch failed: "
         (signatureReply net (requestsTo SignatureEndpoint (log w) + i)%nat) <> None) ->
    let result :=
      verificationTask net ethers lower (Some c) apiKey requestBody streamedText
                       messageId w messages in
    storedStatus messageId result = Some failed
    /\ exists v,
         storedVerification messageId result = Some v
         /\ error v = Some "Error: verification-timeout"
         /\ verified v = false
         /\ vsignature v = match verification (metadataOrEmpty m) with
                           | Some old => vsignature old
                           | None => None
                           end.
Proof.
  intros net ethers lower c apiKey requestBody streamedText messageId w messages m
         Hc Hk Hf Hall result.
  apply truthy_string_true in Hc, Hk.
  unfold result, verificationTask. rewrite Hc, Hk. cbn [andb].
  rewrite raceTimeout_late
    by (right; apply three_failures_reach_the_ceiling; exact Hall).
  unfold JS.or_string. rewrite Hc.
  unfold storedVerification, storedStatus, storedMetadata, storeFailure.
  rewrite find_map_same_id, Hf.
  - pose proof (find_some _ _ Hf) as [_ Hid]. simpl. rewrite Hid. simpl.
    split; [reflexivity|]. eexists. split; [reflexivity|]. simpl. repeat split.
  - intros m0. destruct (String.eqb (id m0) messageId); reflexivity.
Qed.

Lemma three_failed_signature_replies_time_out_witness :
  storedStatus "msg-1" (Sample.task Sample.down) = Some failed
  /\ exists v,
       storedVerification "msg-1" (Sample.task Sample.down) = Some v
       /\ error v = Some "Error: verification-timeout".
Proof.
  assert (Hc : "chat-1" <> EmptyString) by discriminate.
  assert (Hk : "key" <> EmptyString) by discriminate.
  assert (Hf : find (fun m => String.eqb (id m) "msg-1") [Sample.pendingMessage]
               = Some Sample.pendingMessage) by reflexivity.
  assert (Hall : forall i, (i < 3)%nat ->
            failureCause "Signature fetch failed: "
              (signatureReply Sample.down
                 (requestsTo SignatureEndpoint (log Sample.w0) + i)%nat) <> None)
    by (intros i _; discriminate).
  destruct (three_failed_signature_replies_time_out Sample.down Sample.recover
              Sample.toLowerCase "chat-1" "key" Sample.requestJson "hello" "msg-1"
              Sample.w0 [Sample.pendingMessage] Sample.pendingMessage Hc Hk Hf Hall)
    as (Hs & v & Hv & He & _).
  split; [exact Hs|]. exists v. split; [exact Hv | exact He].
Defined.

Lemma storeVerification_same (messageId : string) (data : VerificationData)
      (messages : list UIMessage) :
  let result := storeVerification messageId data messages in
  map id result = map id messages
  /\ map role result = map role messages
  /\ map parts result = map parts messages
  /\ forall n m, nth_error messages n = Some m -> id m <> messageId ->
                 nth_error result n = Some m.
Proof.
  cbv zeta. unfold storeVerification. rewrite !map_map. repeat split.
  - apply map_ext. intros m. destruct (String.eqb (id m) messageId); reflexivity.
  - apply map_ext. intros m. destruct (String.eqb (id m) messageId); reflexivity.
  - apply map_ext. intros m. destruct (String.eqb (id m) messageId); reflexivity.
  - intros n m Hn Hid. rewrite nth_error_map, Hn. simpl.
    apply String.eqb_neq in Hid. rewrite Hid. reflexivity.
Qed.

Lemma storeFailure_same (messageId : string) (e : JS.Error) (c rq rs : string) (t : Z)
      (messages : list UIMessage) :
  let result := storeFailure messageId e c rq rs t messages in
  map id result = map id messages
  /\ map role result = map role messages
  /\ map parts result = map parts messages
  /\ forall n m, nth_error messages n = Some m -> id m <> messageId ->
                 nth_error result n = Some m.
Proof.
  cbv zeta. unfold storeFailure. rewrite !map_map. repeat split.
  - apply map_ext. intros m. destruct (String.eqb (id m) messageId); reflexivity.
  - apply map_ext. intros m. destruct (String.eqb (id m) messageId); reflexivity.
  - apply map_ext. intros m. destruct (String.eqb (id m) messageId); reflexivity.
  - intros n m Hn Hid. rewrite nth_error_map, Hn. simpl.
    apply String.eqb_neq in Hid. rewrite Hid. reflexivity.
Qed.

(** X10. The task rewrites only the metadata of the messages that carry
    the given id: the ids, the roles and the texts of all messages stay as
    they are, in the same order, and a message with another id is left
    untouched.  Without a chat id or without a key the task changes
    nothing at all. *)
Theorem verificationTask_touches_only_its_message :
  forall (net : Network) (ethers : string -> string -> option string)
         (lower : string -> string) (chatId : option string)
         (apiKey requestBody streamedText messageId : string)
         (w : World) (messages : list UIMessage),
    let result :=
      verificationTask net ethers lower chatId apiKey requestBody streamedText
                       messageId w messages in
    map id result = map id messages
    /\ map role result = map role messages
    /\ map parts result = map parts messages
    /\ (forall n m, nth_error messages n = Some m -> id m <> messageId ->
                    nth_error result n = Some m)
    /\ (chatId = None \/ chatId = Some EmptyString \/ apiKey = EmptyString ->
        result = messages).
Proof.
  intros net ethers lower chatId apiKey requestBody streamedText messageId w messages result.
  assert (Hsame : forall l : list UIMessage,
             map id l = map id l /\ map role l = map role l /\ map parts l = map parts l
             /\ forall n m, nth_error l n = Some m -> id m <> messageId ->
                            nth_error l n = Some m) by (intros; repeat split; auto).
  unfold result, verificationTask.
  destruct chatId as [c|].
  - destruct (JS.truthy_string c) eqn:Hc; cbn [andb].
    + destruct (JS.truthy_string apiKey) eqn:Hk.
      * destruct (raceTimeout _ _ _ _) as [data t | e t].
        -- destruct (storeVerification_same messageId data messages) as (A & B & C & D).
           repeat split; auto.
           intros [H | [H | H]]; try discriminate.
           ++ inversion H; subst. discriminate.
           ++ subst. discriminate.
        -- destruct (storeFailure_same messageId e (JS.or_string (Some c) EmptyString)
                       (computeHash (requestBody ++ nl2)) (computeHash (streamedText ++ nl2))
                       t messages) as (A & B & C & D).
           repeat split; auto.
           intros [H | [H | H]]; try discriminate.
           ++ inversion H; subst. discriminate.
           ++ subst. discriminate.
      * destruct (Hsame messages) as (A & B & C & D). repeat split; auto.
    + destruct (Hsame messages) as (A & B & C & D). repeat split; auto.
  - destruct (Hsame messages) as (A & B & C & D). repeat split; auto.
Qed.

Lemma verificationTask_touches_only_its_message_witness :
  nth_error (verificationTask Sample.silent Sample.recover Sample.toLowerCase
               (Some "chat-1") "key" Sample.requestJson "hello" "msg-1" Sample.w0
               [mkUIMessage "msg-0" "user" "hi" None; Sample.pendingMessage]) 0
  = Some (mkUIMessage "msg-0" "user" "hi" None)
  /\ verificationTask Sample.silent Sample.recover Sample.toLowerCase
       (Some "chat-1") EmptyString Sample.requestJson "hello" "msg-1" Sample.w0
       [Sample.pendingMessage] = [Sample.pendingMessage].
Proof.
  split.
  - apply (proj1 (proj2 (proj2 (proj2
             (verificationTask_touches_only_its_message Sample.silent Sample.recover
                Sample.toLowerCase (Some "chat-1") "key" Sample.requestJson "hello" "msg-1"
                Sample.w0 [mkUIMessage "msg-0" "user" "hi" None; Sample.pendingMessage]))))
             0%nat); [reflexivity | discriminate].
  - apply (proj2 (proj2 (proj2 (proj2
             (verificationTask_touches_only_its_message Sample.silent Sample.recover
                Sample.toLowerCase (Some "chat-1") EmptyString Sample.requestJson "hello"
                "msg-1" Sample.w0 [Sample.pendingMessage]))))).
    right. right. reflexivity.
Defined.

(** The status and the record that the task leaves for its message. *)
Lemma verificationTask_status_cases :
  forall (net : Network) (ethers : string -> string -> option string)
         (lower : string -> string)
         (c apiKey requestBody streamedText messageId : string)
         (w : World) (messages : list UIMessage) (m : UIMessage),
    c <> EmptyString ->
    apiKey <> EmptyString ->
    find (fun m => String.eqb (id m) messageId) messages = Some m ->
    let run :=
      verifyMessage net ethers lower
                    (mkParams c requestBody streamedText NEAR_MODEL apiKey) w in
    let result :=
      verificationTask net ethers lower (Some c) apiKey requestBody streamedText
                       messageId w messages in
    (storedStatus messageId result = Some verifiedStatus
     \/ storedStatus messageId result = Some failed)
    /\ (storedStatus messageId result = Some verifiedStatus <->
        exists data w',
          run = Fulfilled data w' /\ now w' < now w + 30000 /\ verified data = true)
    /\ (forall v, storedVerification messageId result = Some v ->
                  (storedStatus messageId result = Some verifiedStatus <-> verified v = true))
    /\ (exists v, storedVerification messageId result = Some v).
Proof.
  intros net ethers lower c apiKey requestBody streamedText messageId w messages m
         Hc Hk Hf run result.
  apply truthy_string_true in Hc, Hk.
  unfold result, verificationTask. rewrite Hc, Hk. cbn [andb].
  unfold raceTimeout. fold run. unfold verificationTimeoutMs.
  assert (Hfail : forall e t,
    let res := storeFailure messageId e (JS.or_string (Some c) EmptyString)
                 (computeHash (requestBody ++ nl2)) (computeHash (streamedText ++ nl2))
                 t messages in
    storedStatus messageId res = Some failed
    /\ (forall v, storedVerification messageId res = Some v -> verified v = false)
    /\ (exists v, storedVerification messageId res = Some v)).
  { intros e t res.
    destruct (storeFailure_stored messageId e (JS.or_string (Some c) EmptyString)
                (computeHash (requestBody ++ nl2)) (computeHash (streamedText ++ nl2))
                t messages m Hf) as (Hs & v & Hv & _ & Hver & _).
    split; [exact Hs|]. split; [|exists v; exact Hv].
    intros v' Hv'. fold res in Hv. rewrite Hv in Hv'.
    inversion Hv'; subst. exact Hver. }
  destruct run as [data w' | e' w' | w'] eqn:Erun.
  - destruct (now w' <? now w + 30000) eqn:Hlt.
    + destruct (storeVerification_stored messageId data messages m Hf) as (Hv & Hs).
      rewrite Hs, Hv. apply Z.ltb_lt in Hlt.
      destruct (verified data) eqn:Hver; (split; [auto|]); (split; [|split; [|eauto]]).
      * split; [intros _; exists data, w'; auto | reflexivity].
      * intros v E. inversion E; subst. rewrite Hver. tauto.
      * split; [discriminate|].
        intros (d & w2 & E & _ & Hd). inversion E; subst. congruence.
      * intros v E. inversion E; subst. rewrite Hver. split; discriminate.
    + destruct (Hfail (JS.newError "verification-timeout") (now w + 30000))
        as (Hs & Hv & Hex).
      rewrite Hs. apply Z.ltb_ge in Hlt. split; [auto|]. split; [|split; [|exact Hex]].
      * split; [discriminate|].
        intros (d & w2 & E & Ht & _). inversion E; subst. lia.
      * intros v E. rewrite (Hv v E). split; discriminate.
  - destruct (now w' <? now w + 30000);
      [destruct (Hfail e' (now w')) as (Hs & Hv & Hex)
      |destruct (Hfail (JS.newError "verification-timeout") (now w + 30000))
         as (Hs & Hv & Hex)];
      rewrite Hs; (split; [auto|]); (split; [|split; [|exact Hex]]);
      try (split; [discriminate | intros (d & w2 & E & _); discriminate]);
      intros v E; rewrite (Hv v E); split; discriminate.
  - destruct (Hfail (JS.newError "verification-timeout") (now w + 30000))
      as (Hs & Hv & Hex).
    rewrite Hs. split; [auto|]. split; [|split; [|exact Hex]].
    + split; [discriminate | intros (d & w2 & E & _); discriminate].
    + intros v E. rewrite (Hv v E). split; discriminate.
Qed.


(** X11. Once the task has run for a message that is stored, the status of
    the message is final: verified or failed, never pending.  It is
    verified exactly when [verifyMessage] returned, before the 30 seconds
    were over, a record whose [verified] field is true. *)
Theorem verificationTask_status_is_final :
  forall (net : Network) (ethers : string -> string -> option string)
         (lower : string -> string)
         (c apiKey requestBody streamedText messageId : string)
         (w : World) (messages : list UIMessage) (m : UIMessage),
    c <> EmptyString ->
    apiKey <> EmptyString ->
    find (fun m => String.eqb (id m) messageId) messages = Some m ->
    let run :=
      verifyMessage net ethers lower
                    (mkParams c requestBody streamedText NEAR_MODEL apiKey) w in
    let result :=
      verificationTask net ethers lower (Some c) apiKey requestBody streamedText
                       messageId w messages in
    (storedStatus messageId result = Some verifiedStatus
     \/ storedStatus messageId result = Some failed)
    /\ (storedStatus messageId result = Some verifiedStatus <->
        exists data w',
          run = Fulfilled data w' /\ now w' < now w + 30000 /\ verified data = true)
    /\ (forall v, storedVerification messageId result = Some v ->
                  (storedStatus messageId result = Some verifiedStatus <-> verified v = true)).
Proof.
  intros net ethers lower c apiKey requestBody streamedText messageId w messages m
         Hc Hk Hf run result.
  destruct (verificationTask_status_cases net ethers lower c apiKey requestBody
              streamedText messageId w messages m Hc Hk Hf) as (H1 & H2 & H3 & _).
  split; [exact H1|]. split; [exact H2 | exact H3].
Qed.

Lemma verificationTask_status_is_final_witness :
  storedStatus "msg-1" (Sample.task Sample.impostor) = Some failed
  /\ storedStatus "msg-1" (Sample.task Sample.honest) = Some verifiedStatus.
Proof.
  assert (Hc : "chat-1" <> EmptyString) by discriminate.
  assert (Hk : "key" <> EmptyString) by discriminate.
  assert (Hf : find (fun m => String.eqb (id m) "msg-1") [Sample.pendingMessage]
               = Some Sample.pendingMessage) by reflexivity.
  set (w' := mkWorld 170 [Request SignatureEndpoint 0; Request AttestationEndpoint 80]).
  split.
  - set (r := verdict Sample.recover Sample.toLowerCase
                (mkParams "chat-1" Sample.requestJson "hello" NEAR_MODEL "key")
                (Some Sample.misdeclared) (Some Sample.report) None 170).
    assert (Hrun : verifyMessage Sample.impostor Sample.recover Sample.toLowerCase
                     (mkParams "chat-1" Sample.requestJson "hello" NEAR_MODEL "key")
                     Sample.w0 = Fulfilled r w') by (vm_compute; reflexivity).
    assert (Hr : verified r = false) by (vm_compute; reflexivity).
    clearbody r.
    destruct (verificationTask_status_is_final Sample.impostor Sample.recover
                Sample.toLowerCase "chat-1" "key" Sample.requestJson "hello" "msg-1"
                Sample.w0 [Sample.pendingMessage] Sample.pendingMessage Hc Hk Hf)
      as ([H | H] & Hiff & _); [|exact H].
    exfalso. apply Hiff in H. destruct H as (d & w2 & E & _ & Hv).
    rewrite Hrun in E. inversion E; subst d. congruence.
  - apply (proj1 (proj2 (verificationTask_status_is_final Sample.honest Sample.recover
                Sample.toLowerCase "chat-1" "key" Sample.requestJson "hello" "msg-1"
                Sample.w0 [Sample.pendingMessage] Sample.pendingMessage Hc Hk Hf))).
    exists (verdict Sample.recover Sample.toLowerCase
              (mkParams "chat-1" Sample.requestJson "hello" NEAR_MODEL "key")
              (Some Sample.signed) (Some Sample.report) None 170), w'.
    split; [vm_compute; reflexivity|]. split; vm_compute; reflexivity.
Defined.

(* ================================================================== *)
(** ** The status endpoint *)

Lemma splitOn_no_occurrence (sep : string) (c0 : ascii) (sep' : string) (s : string) :
  sep = String c0 sep' ->
  hasChar c0 s = false ->
  JS.splitOn_from sep 0 s = [s].
Proof.
  intros -> Hs. induction s as [|c s IH]; [reflexivity|].
  simpl in Hs. apply orb_false_iff in Hs as [Hc Hs].
  cbn [JS.splitOn_from String.prefix].
  destruct (ascii_dec c0 c) as [E|N].
  - subst. rewrite Ascii.eqb_refl in Hc. discriminate.
  - rewrite (IH Hs). reflexivity.
Qed.

Lemma splitOn_from_skip (sep s t : string) :
  JS.splitOn_from sep (String.length s) (s ++ t) = JS.splitOn_from sep 0 t.
Proof.
  induction s as [|c s IH]; [reflexivity|].
  simpl. destruct (s ++ t) eqn:E; exact IH || (rewrite <- E; exact IH).
Qed.

(** The id that the handler reads from a status path. *)
Lemma messageId_of_path (i : string) :
  hasChar "/" i = false ->
  JS.splitOn "/api/verification/" ("/api/verification/" ++ i) = [EmptyString; i].
Proof.
  intros Hi. unfold JS.splitOn.
  change ("/api/verification/" ++ i) with (String "/" ("api/verification/" ++ i)).
  cbn [JS.splitOn_from]. 
  assert (Hp : String.prefix "/api/verification/" (String "/" ("api/verification/" ++ i))
               = true).
  { change (String "/" ("api/verification/" ++ i)) with ("/api/verification/" ++ i).
    clear Hi. simpl. 
    induction i; reflexivity. }
  rewrite Hp.
  change (String.length "/api/verification/" - 1)%nat
    with (String.length "api/verification/").
  rewrite splitOn_from_skip.
  rewrite (splitOn_no_occurrence "/api/verification/" "/" "api/verification/" i eq_refl Hi).
  reflexivity.
Qed.

(** The answer of the handler on a status path whose id has no slash. *)
Lemma fetchHandler_status (i : string) (keyEnv : option string)
      (agent : option (list UIMessage)) :
  hasChar "/" i = false ->
  fetchHandler ("/api/verification/" ++ i) keyEnv agent =
    match agent with
    | Some messages =>
        match find (fun m => String.eqb (id m) i) messages with
        | Some _ =>
            StatusFound (Some i)
                        (match storedStatus i messages with
                         | Some st => statusText st
                         | None => "unknown"
                         end)
                        (storedVerification i messages)
        | None => StatusUnknown (Some i)
        end
    | None => StatusUnknown (Some i)
    end.
Proof.
  intros Hi. unfold fetchHandler.
  assert (H1 : String.eqb ("/api/verification/" ++ i) "/check-near-ai-key" = false)
    by reflexivity.
  assert (H2 : JS.startsWith ("/api/verification/" ++ i) "/api/verification/" = true).
  { unfold JS.startsWith. simpl. destruct i; reflexivity. }
  rewrite H1, H2, (messageId_of_path i Hi). cbn [nth_error].
  destruct agent as [messages|]; [|reflexivity].
  unfold storedStatus, storedVerification, storedMetadata.
  destruct (find (fun m => String.eqb (id m) i) messages) as [msg|]; [|reflexivity].
  destruct (metadata msg); reflexivity.
Qed.

(** X12. The status endpoint is a lookup by message id: on the path
    [/api/verification/<id>], for an id without slash, it answers with the
    status and the record stored for the first message of the last chat
    agent that carries this id (the status reads "unknown" when none is
    stored); it answers "unknown" without a record when there is no such
    message or no agent at all. *)
Theorem status_endpoint_reports_what_is_stored :
  forall (i : string) (keyEnv : option string) (agent : option (list UIMessage)),
    hasChar "/" i = false ->
    fetchHandler ("/api/verification/" ++ i) keyEnv agent =
      match agent with
      | Some messages =>
          match find (fun m => String.eqb (id m) i) messages with
          | Some _ =>
              StatusFound (Some i)
                          (match storedStatus i messages with
                           | Some st => statusText st
                           | None => "unknown"
                           end)
                          (storedVerification i messages)
          | None => StatusUnknown (Some i)
          end
      | None => StatusUnknown (Some i)
      end.
Proof. exact fetchHandler_status. Qed.

Lemma status_endpoint_reports_what_is_stored_witness :
  fetchHandler "/api/verification/msg-1" (Some "key") (Some [Sample.pendingMessage])
  = StatusFound (Some "msg-1") "pending"
                (Some (mkVerificationData "chat-1" NEAR_MODEL EmptyString EmptyString
                                          None None false None None))
  /\ fetchHandler "/api/verification/msg-2" (Some "key") (Some [Sample.pendingMessage])
     = StatusUnknown (Some "msg-2").
Proof.
  split.
  - exact (status_endpoint_reports_what_is_stored "msg-1" (Some "key")
             (Some [Sample.pendingMessage]) eq_refl).
  - exact (status_endpoint_reports_what_is_stored "msg-2" (Some "key")
             (Some [Sample.pendingMessage]) eq_refl).
Defined.



(* ================================================================== *)
(** ** The event parser of the chat client *)

Lemma splitOn_from_not_nil (sep : string) (s : string) (skip : nat) :
  JS.splitOn_from sep skip s <> [].
Proof.
  revert skip. induction s as [|c s IH]; intros skip; [discriminate|].
  cbn [JS.splitOn_from]. destruct skip as [|k]; [|apply IH].
  destruct (String.prefix sep (String c s)); [discriminate|].
  destruct (JS.splitOn_from sep 0 s); discriminate.
Qed.

Lemma prefix_nl2 (c : ascii) (rest : string) :
  String.prefix nl2 (String c rest) = true ->
  c = NearAI.newline /\ exists rest2, rest = String NearAI.newline rest2.
Proof.
  unfold nl2. cbn [String.prefix].
  destruct (ascii_dec "010" c) as [<-|]; [|discriminate].
  destruct rest as [|c2 rest2]; cbn [String.prefix]; [discriminate|].
  destruct (ascii_dec "010" c2) as [<-|]; [|discriminate].
  intros _. split; [reflexivity | exists rest2; reflexivity].
Qed.

Lemma prefix_nl2_true (rest2 : string) :
  String.prefix nl2 (String NearAI.newline (String NearAI.newline rest2)) = true.
Proof.
  unfold nl2, NearAI.newline. cbn [String.prefix].
  destruct (ascii_dec "010" "010"); [|contradiction].
  destruct rest2; reflexivity.
Qed.

(** The lines of the buffer and the lines of its parts: the first line of
    the buffer is the first line of its first part, and the other lines
    that are not empty are those of the parts, in order. *)
Lemma lines_of_parts (n : nat) :
  forall s : string,
    (String.length s <= n)%nat ->
    exists p ps h t t',
      JS.splitOn_from nl2 0 s = p :: ps
      /\ JS.split NearAI.newline s = h :: t
      /\ JS.split NearAI.newline p = h :: t'
      /\ filter notEmpty t
         = (filter notEmpty t'
            ++ flat_map (fun q => filter notEmpty (JS.split NearAI.newline q)) ps)%list.
Proof.
  unfold NearAI.newline.
  induction n as [|n IH]; intros s Hlen.
  - destruct s; [|simpl in Hlen; lia].
    exists EmptyString, [], EmptyString, [], []. repeat split.
  - destruct s as [|c rest].
    + exists EmptyString, [], EmptyString, [], []. repeat split.
    + simpl in Hlen. cbn [JS.splitOn_from].
      destruct (String.prefix nl2 (String c rest)) eqn:Hp.
      * apply prefix_nl2 in Hp as [-> [rest2 ->]]. unfold NearAI.newline.
        simpl in Hlen.
        destruct (IH rest2 ltac:(lia)) as (p & ps & h & t & t' & Hs & Hl & Hlp & Hf).
        change (String.length nl2 - 1)%nat with 1%nat. cbn [JS.splitOn_from].
        rewrite Hs.
        exists EmptyString, (p :: ps), EmptyString, (EmptyString :: h :: t), [].
        split; [reflexivity|]. split.
        { change (JS.split "010" (String "010" (String "010" rest2)))
            with (EmptyString :: EmptyString :: JS.split "010" rest2).
          rewrite Hl. reflexivity. }
        split; [reflexivity|].
        change (filter notEmpty (EmptyString :: h :: t)) with (filter notEmpty (h :: t)).
        cbn [flat_map app filter]. rewrite Hlp. cbn [filter].
        destruct (notEmpty h); simpl; rewrite Hf; reflexivity.
      * destruct (IH rest ltac:(lia)) as (p & ps & h & t & t' & Hs & Hl & Hlp & Hf).
        rewrite Hs. cbn [JS.split]. rewrite Hl.
        destruct (Ascii.eqb c "010") eqn:Hc.
        -- exists (String c p), ps, EmptyString, (h :: t), (h :: t').
           split; [reflexivity|]. split; [reflexivity|].
           split; [cbn [JS.split]; rewrite Hc, Hlp; reflexivity|].
           cbn [filter]. destruct (notEmpty h); simpl; rewrite Hf; reflexivity.
        -- exists (String c p), ps, (String c h), t, t'.
           split; [reflexivity|]. split; [reflexivity|].
           split; [cbn [JS.split]; rewrite Hc, Hlp; reflexivity | exact Hf].
Qed.

Lemma nonempty_lines_of_parts (s : string) :
  filter notEmpty (JS.split NearAI.newline s)
  = flat_map (fun q => filter notEmpty (JS.split NearAI.newline q)) (JS.splitOn nl2 s).
Proof.
  destruct (lines_of_parts (String.length s) s (le_n _))
    as (p & ps & h & t & t' & Hs & Hl & Hlp & Hf).
  unfold JS.splitOn. rewrite Hs, Hl. cbn [flat_map]. rewrite Hlp.
  cbn [filter]. destruct (notEmpty h); simpl; rewrite Hf; reflexivity.
Qed.

Lemma high_byte_is_not_d (c : ascii) :
  (128 <= nat_of_ascii c)%nat -> Ascii.eqb c "d" = false.
Proof.
  intros H. destruct (Ascii.eqb_spec c "d") as [->|]; [|reflexivity].
  change (nat_of_ascii "d") with 100%nat in H. lia.
Qed.

Lemma space1_is_not_d (c : ascii) : JS.space1 c = true -> Ascii.eqb c "d" = false.
Proof.
  intros H. destruct (Ascii.eqb_spec c "d") as [->|]; [|reflexivity].
  vm_compute in H. discriminate.
Qed.

Lemma space2_high (c1 c2 : ascii) :
  JS.space2 c1 c2 = true -> (128 <= nat_of_ascii c1 /\ 128 <= nat_of_ascii c2)%nat.
Proof.
  unfold JS.space2. rewrite andb_true_iff, !Nat.eqb_eq. lia.
Qed.

Lemma space3_high (c1 c2 c3 : ascii) :
  JS.space3 c1 c2 c3 = true ->
  (128 <= nat_of_ascii c1 /\ 128 <= nat_of_ascii c2 /\ 128 <= nat_of_ascii c3)%nat.
Proof.
  unfold JS.space3. cbv zeta.
  rewrite !orb_true_iff, !andb_true_iff, !orb_true_iff, !andb_true_iff,
    !Nat.eqb_eq, !Nat.leb_le.
  lia.
Qed.

(** A string of white space has no letter d. *)
Lemma isBlank_has_no_d (n : nat) :
  forall s, (String.length s <= n)%nat -> JS.isBlank s = true -> hasChar "d" s = false.
Proof.
  induction n as [|n IH]; intros s Hlen Hb.
  - destruct s; [reflexivity | simpl in Hlen; lia].
  - destruct s as [|c1 r1]; [reflexivity|].
    simpl in Hlen. cbn [JS.isBlank] in Hb. cbn [hasChar].
    destruct (JS.space1 c1) eqn:H1.
    + rewrite (space1_is_not_d c1 H1), (IH r1) by (lia || assumption). reflexivity.
    + destruct r1 as [|c2 r2]; [discriminate|]. simpl in Hlen. cbn [hasChar].
      destruct (JS.space2 c1 c2) eqn:H2.
      * destruct (space2_high c1 c2 H2) as [A B].
        rewrite (high_byte_is_not_d c1 A), (high_byte_is_not_d c2 B),
          (IH r2) by (lia || assumption).
        reflexivity.
      * destruct r2 as [|c3 r3]; [discriminate|]. simpl in Hlen. cbn [hasChar].
        destruct (JS.space3 c1 c2 c3) eqn:H3; [|discriminate].
        destruct (space3_high c1 c2 c3 H3) as (A & B & C).
        rewrite (high_byte_is_not_d c1 A), (high_byte_is_not_d c2 B),
          (high_byte_is_not_d c3 C), (IH r3) by (lia || assumption).
        reflexivity.
Qed.

Lemma split_pieces_within (sep : ascii) (s l : string) (c : ascii) :
  In l (JS.split sep s) -> hasChar c l = true -> hasChar c s = true.
Proof.
  revert l. induction s as [|a rest IH]; intros l Hin Hc.
  - destruct Hin as [<-|[]]. discriminate.
  - cbn [JS.split] in Hin. cbn [hasChar].
    destruct (Ascii.eqb a sep).
    + destruct Hin as [<-|Hin]; [discriminate|].
      rewrite (IH l Hin Hc). apply orb_true_r.
    + destruct (JS.split sep rest) as [|p ps] eqn:E.
      * destruct Hin as [<-|[]]. simpl in Hc. rewrite orb_false_r in Hc.
        rewrite Hc. reflexivity.
      * destruct Hin as [<-|Hin].
        -- cbn [hasChar] in Hc. apply orb_true_iff in Hc as [Hc|Hc].
           ++ rewrite Hc. reflexivity.
           ++ rewrite (IH p (or_introl eq_refl) Hc). apply orb_true_r.
        -- rewrite (IH l (or_intror Hin) Hc). apply orb_true_r.
Qed.

Lemma split_pieces_have_no_sep (sep : ascii) (s l : string) :
  In l (JS.split sep s) -> hasChar sep l = false.
Proof.
  revert l. induction s as [|a rest IH]; intros l Hin.
  - destruct Hin as [<-|[]]. reflexivity.
  - cbn [JS.split] in Hin.
    destruct (Ascii.eqb a sep) eqn:Ea.
    + destruct Hin as [<-|Hin]; [reflexivity | exact (IH l Hin)].
    + destruct (JS.split sep rest) as [|p ps] eqn:E.
      * destruct Hin as [<-|[]]. simpl. rewrite Ea. reflexivity.
      * destruct Hin as [<-|Hin].
        -- simpl. rewrite Ea. exact (IH p (or_introl eq_refl)).
        -- exact (IH l (or_intror Hin)).
Qed.

Lemma split_without_sep (sep : ascii) (s : string) :
  hasChar sep s = false -> JS.split sep s = [s].
Proof.
  induction s as [|a rest IH]; intros H; [reflexivity|].
  cbn [hasChar] in H. apply orb_false_iff in H as [Ha Hr].
  cbn [JS.split]. rewrite Ha, (IH Hr). reflexivity.
Qed.

Lemma split_app_sep (sep : ascii) (a b : string) :
  hasChar sep a = false ->
  JS.split sep (a ++ String sep b) = a :: JS.split sep b.
Proof.
  induction a as [|c a IH]; intros H.
  - simpl. rewrite Ascii.eqb_refl. reflexivity.
  - cbn [hasChar] in H. apply orb_false_iff in H as [Hc Ha].
    change (String c a ++ String sep b) with (String c (a ++ String sep b)).
    cbn [JS.split]. rewrite Hc, (IH Ha). reflexivity.
Qed.

Lemma split_join (sep : ascii) (ls : list string) :
  ls <> [] ->
  Forall (fun l => hasChar sep l = false) ls ->
  JS.split sep (JS.join (String sep EmptyString) ls) = ls.
Proof.
  intros Hne Hall. induction Hall as [|l rest Hl Hrest IH]; [contradiction|].
  destruct rest as [|l' rest'].
  - simpl. apply split_without_sep. exact Hl.
  - change (JS.join (String sep EmptyString) (l :: l' :: rest'))
      with (l ++ String sep (JS.join (String sep EmptyString) (l' :: rest'))).
    rewrite split_app_sep by exact Hl. rewrite IH by discriminate. reflexivity.
Qed.

Lemma hasChar_slice (c : ascii) (n : nat) (s : string) :
  hasChar c s = false -> hasChar c (JS.slice n s) = false.
Proof.
  revert s. induction n as [|n IH]; intros s H; [exact H|].
  destruct s as [|a rest]; [reflexivity|].
  cbn [hasChar] in H. apply orb_false_iff in H as [_ H]. exact (IH rest H).
Qed.

Lemma hasChar_dropSpace (c : ascii) (s s' : string) :
  JS.dropSpace s = Some s' -> hasChar c s = false -> hasChar c s' = false.
Proof.
  unfold JS.dropSpace. intros Hd H.
  destruct s as [|c1 r1]; [discriminate|].
  cbn [hasChar] in H. apply orb_false_iff in H as [_ H1].
  destruct (JS.space1 c1); [inversion Hd; subst; exact H1|].
  destruct r1 as [|c2 r2]; [discriminate|].
  cbn [hasChar] in H1. apply orb_false_iff in H1 as [_ H2].
  destruct (JS.space2 c1 c2); [inversion Hd; subst; exact H2|].
  destruct r2 as [|c3 r3]; [discriminate|].
  cbn [hasChar] in H2. apply orb_false_iff in H2 as [_ H3].
  destruct (JS.space3 c1 c2 c3); [inversion Hd; subst; exact H3 | discriminate].
Qed.

Lemma hasChar_stripData (c : ascii) (l : string) :
  hasChar c l = false -> hasChar c (NearAI.stripData l) = false.
Proof.
  intros H. unfold NearAI.stripData.
  destruct (JS.startsWith l "data:"); [|exact H].
  pose proof (hasChar_slice c 5 l H) as Hs.
  destruct (JS.dropSpace (JS.slice 5 l)) as [r|] eqn:E; [|exact Hs].
  exact (hasChar_dropSpace c _ r E Hs).
Qed.

Lemma dataLine_has_d (l : string) : NearAI.isDataLine l = true -> hasChar "d" l = true.
Proof.
  unfold NearAI.isDataLine, JS.startsWith. destruct l as [|a rest]; [discriminate|].
  cbn [String.prefix]. destruct (ascii_dec "d" a) as [<-|]; [|discriminate].
  reflexivity.
Qed.

Lemma blank_part_has_no_data_line (part : string) :
  JS.isBlank part = true ->
  filter NearAI.isDataLine (JS.split NearAI.newline part) = [].
Proof.
  intros Hb.
  pose proof (isBlank_has_no_d (String.length part) part (le_n _) Hb) as Hd.
  destruct (filter NearAI.isDataLine (JS.split NearAI.newline part)) as [|l ls] eqn:E;
    [reflexivity|].
  assert (Hin : In l (filter NearAI.isDataLine (JS.split NearAI.newline part)))
    by (rewrite E; left; reflexivity).
  apply filter_In in Hin as [Hin Hdata].
  pose proof (split_pieces_within _ _ _ "d"%char Hin (dataLine_has_d l Hdata)).
  congruence.
Qed.

(** The lines of the events of one part are its data lines, stripped. *)
Lemma lines_of_eventsOfPart (part : string) :
  flat_map (JS.split NearAI.newline) (NearAI.eventsOfPart part)
  = map NearAI.stripData (filter NearAI.isDataLine (JS.split NearAI.newline part)).
Proof.
  unfold NearAI.eventsOfPart.
  destruct (JS.isBlank part) eqn:Hb.
  - rewrite blank_part_has_no_data_line by exact Hb. reflexivity.
  - destruct (map NearAI.stripData
                  (filter NearAI.isDataLine (JS.split NearAI.newline part)))
      as [|d ds] eqn:E; [reflexivity|].
    cbn [flat_map]. rewrite app_nil_r. apply split_join; [discriminate|].
    rewrite <- E. apply Forall_forall. intros l Hin.
    apply in_map_iff in Hin as (l0 & <- & Hin0).
    apply filter_In in Hin0 as [Hin0 _].
    apply hasChar_stripData. exact (split_pieces_have_no_sep _ _ _ Hin0).
Qed.

Lemma filter_dataLine_notEmpty (ls : list string) :
  filter NearAI.isDataLine (filter notEmpty ls) = filter NearAI.isDataLine ls.
Proof.
  induction ls as [|l ls IH]; [reflexivity|].
  cbn [filter]. destruct l as [|c l']; [exact IH|].
  cbn [notEmpty String.eqb negb filter]. rewrite IH. reflexivity.
Qed.

Lemma filter_flat_map {A B} (p : B -> bool) (f : A -> list B) (l : list A) :
  filter p (flat_map f l) = flat_map (fun x => filter p (f x)) l.
Proof.
  induction l as [|x l IH]; [reflexivity|].
  cbn [flat_map]. rewrite filter_app, IH. reflexivity.
Qed.

Lemma map_flat_map {A B C} (g : B -> C) (f : A -> list B) (l : list A) :
  map g (flat_map f l) = flat_map (fun x => map g (f x)) l.
Proof.
  induction l as [|x l IH]; [reflexivity|].
  cbn [flat_map]. rewrite map_app, IH. reflexivity.
Qed.

Lemma flat_map_flat_map {A B C} (g : B -> list C) (f : A -> list B) (l : list A) :
  flat_map g (flat_map f l) = flat_map (fun x => flat_map g (f x)) l.
Proof.
  induction l as [|x l IH]; [reflexivity|].
  cbn [flat_map]. rewrite flat_map_app, IH. reflexivity.
Qed.

Lemma parseSSE_lines (buffer : string) :
  flat_map (JS.split NearAI.newline) (NearAI.parseSSE buffer)
  = map NearAI.stripData (filter NearAI.isDataLine (JS.split NearAI.newline buffer)).
Proof.
  unfold NearAI.parseSSE. cbv zeta.
  rewrite flat_map_flat_map.
  rewrite <- (filter_dataLine_notEmpty (JS.split NearAI.newline buffer)).
  rewrite nonempty_lines_of_parts, filter_flat_map, map_flat_map.
  apply flat_map_ext. intros part.
  rewrite filter_dataLine_notEmpty. apply lines_of_eventsOfPart.
Qed.

(** X14. [parseSSE] neither loses nor invents a data line: the lines of
    the events it returns are, in order, the lines of the buffer that
    start with "data:", each without this prefix and without one white
    space after it.  A buffer without such a line yields no event. *)
Theorem parseSSE_keeps_the_data_lines :
  forall buffer : string,
    flat_map (JS.split NearAI.newline) (NearAI.parseSSE buffer)
    = map NearAI.stripData (filter NearAI.isDataLine (JS.split NearAI.newline buffer))
    /\ (filter NearAI.isDataLine (JS.split NearAI.newline buffer) = [] ->
        NearAI.parseSSE buffer = []).
Proof.
  intros buffer. split; [apply parseSSE_lines|].
  intros Hnone. pose proof (parseSSE_lines buffer) as H. rewrite Hnone in H.
  destruct (NearAI.parseSSE buffer) as [|ev evs]; [reflexivity|].
  cbn [flat_map map] in H.
  pose proof (split_not_nil NearAI.newline ev) as Hne.
  destruct (JS.split NearAI.newline ev); [contradiction | discriminate].
Qed.

Lemma parseSSE_keeps_the_data_lines_witness :
  filter NearAI.isDataLine (JS.split NearAI.newline Sample.keepAlive) = []
  /\ NearAI.parseSSE Sample.keepAlive = [].
Proof.
  split; [reflexivity|].
  exact (proj2 (parseSSE_keeps_the_data_lines Sample.keepAlive) eq_refl).
Defined.

Lemma splitOn_app_blank_line (n : nat) :
  forall a : string,
    (String.length a <= n)%nat ->
    endsWithChar NearAI.newline a = false ->
    forall b : string,
      JS.splitOn_from nl2 0 (a ++ nl2 ++ b)
      = (JS.splitOn_from nl2 0 a ++ JS.splitOn_from nl2 0 b)%list.
Proof.
  unfold NearAI.newline.
  induction n as [|n IH]; intros a Hlen Hend b.
  - destruct a; [|simpl in Hlen; lia].
    change (EmptyString ++ nl2 ++ b) with (String "010" (String "010" b)).
    cbn [JS.splitOn_from]. rewrite prefix_nl2_true. reflexivity.
  - destruct a as [|c a'].
    + change (EmptyString ++ nl2 ++ b) with (String "010" (String "010" b)).
      cbn [JS.splitOn_from]. rewrite prefix_nl2_true. reflexivity.
    + simpl in Hlen.
      change (String c a' ++ nl2 ++ b) with (String c (a' ++ nl2 ++ b)).
      cbn [JS.splitOn_from].
      destruct (String.prefix nl2 (String c a')) eqn:Hp.
      * apply prefix_nl2 in Hp as [-> [a2 ->]]. unfold NearAI.newline in *.
        change (String "010" a2 ++ nl2 ++ b) with (String "010" (a2 ++ nl2 ++ b)).
        rewrite prefix_nl2_true.
        change (String.length nl2 - 1)%nat with 1%nat. cbn [JS.splitOn_from].
        simpl in Hlen.
        assert (Hend2 : endsWithChar "010" a2 = false).
        { destruct a2 as [|c2 a3]; [reflexivity | exact Hend]. }
        rewrite (IH a2 ltac:(lia) Hend2 b). reflexivity.
      * assert (Hp' : String.prefix nl2 (String c (a' ++ nl2 ++ b)) = false).
        { unfold nl2 in *. cbn [String.prefix] in *.
          destruct (ascii_dec "010" c) as [<-|]; [|reflexivity].
          destruct a' as [|c' a'']; [simpl in Hend; discriminate|].
          change (String c' a'' ++ String "010" (String "010" EmptyString) ++ b)
            with (String c' (a'' ++ String "010" (String "010" EmptyString) ++ b)).
          cbn [String.prefix] in *.
          destruct (ascii_dec "010" c'); [|reflexivity].
          destruct a''; discriminate. }
        rewrite Hp'.
        assert (Hend' : endsWithChar "010" a' = false).
        { destruct a' as [|c' a'']; [reflexivity | exact Hend]. }
        rewrite (IH a' ltac:(lia) Hend' b).
        pose proof (splitOn_from_not_nil nl2 a' 0) as Hne.
        destruct (JS.splitOn_from nl2 0 a') as [|p ps]; [contradiction | reflexivity].
Qed.

Lemma parseSSE_app_blank_line (a b : string) :
  endsWithChar NearAI.newline a = false ->
  NearAI.parseSSE (a ++ nl2 ++ b) = (NearAI.parseSSE a ++ NearAI.parseSSE b)%list.
Proof.
  intros Hend. unfold NearAI.parseSSE, JS.splitOn. cbv zeta.
  rewrite (splitOn_app_blank_line (String.length a) a (le_n _) Hend b).
  apply flat_map_app.
Qed.

(** X15. A blank line keeps events apart: when the text before it does not
    end with a newline, the events of a buffer cut by a blank line are the
    events of the text before it followed by the events of the text after
    it; in particular a blank line at the end adds no event. *)
Theorem parseSSE_blank_line_separates :
  forall a b : string,
    endsWithChar NearAI.newline a = false ->
    NearAI.parseSSE (a ++ nl2 ++ b) = (NearAI.parseSSE a ++ NearAI.parseSSE b)%list
    /\ NearAI.parseSSE (a ++ nl2) = NearAI.parseSSE a.
Proof.
  intros a b Hend. split; [apply parseSSE_app_blank_line; exact Hend|].
  replace (a ++ nl2) with (a ++ nl2 ++ EmptyString).
  - rewrite parseSSE_app_blank_line by exact Hend. apply app_nil_r.
  - f_equal.
Qed.

Lemma parseSSE_blank_line_separates_witness :
  NearAI.parseSSE ("data: a" ++ nl2 ++ "data: b")
  = (NearAI.parseSSE "data: a" ++ NearAI.parseSSE "data: b")%list.
Proof.
  exact (proj1 (parseSSE_blank_line_separates "data: a" "data: b" eq_refl)).
Defined.

(* ================================================================== *)
(** ** The chat id of a payload *)

Lemma isBlank_false_not_empty (s : string) :
  JS.isBlank s = false -> JS.truthy_string s = true.
Proof. destruct s; [discriminate | reflexivity]. Qed.

(** X16. [extractChatId] never returns an empty or blank id: what it
    returns is a string with a character that is not white space.  The
    member [chat_id] of the payload, when it is such a string, wins over
    every other candidate.  A payload that is not an object (an array, a
    string, a number, a boolean, null) yields no id. *)
Theorem extractChatId_yields_a_usable_id :
  (forall (payload : NearAI.Json) (s : string),
      NearAI.extractChatId payload = Some s ->
      JS.isBlank s = false /\ s <> EmptyString)
  /\ (forall (members : list (string * NearAI.Json)) (s : string),
        NearAI.lookup "chat_id" members = Some (NearAI.JString s) ->
        JS.isBlank s = false ->
        NearAI.extractChatId (NearAI.JObject members) = Some s)
  /\ (forall payload : NearAI.Json,
        (forall members, payload <> NearAI.JObject members) ->
        NearAI.extractChatId payload = None).
Proof.
  split; [|split].
  - intros payload s H. unfold NearAI.extractChatId in H.
    assert (Hfind : forall cands,
              match find NearAI.isUsableId cands with
              | Some (Some (NearAI.JString found)) =>
                  if JS.truthy_string found then Some found else None
              | _ => None
              end = Some s ->
              JS.isBlank s = false /\ s <> EmptyString).
    { intros cands Hc.
      destruct (find NearAI.isUsableId cands) as [[[ | | |found| | ]|]|] eqn:E;
        try discriminate.
      apply find_some in E as [_ Hu]. cbn [NearAI.isUsableId] in Hu.
      apply negb_true_iff in Hu.
      destruct (JS.truthy_string found) eqn:Ht; [|discriminate].
      inversion Hc; subst. split; [exact Hu|]. apply truthy_string_true. exact Ht. }
    destruct payload; try discriminate; exact (Hfind _ H).
  - intros members s Hl Hb. unfold NearAI.extractChatId.
    cbv zeta. cbn [NearAI.member find]. rewrite Hl. cbn [NearAI.isUsableId].
    rewrite Hb. cbn [negb]. rewrite (isBlank_false_not_empty s Hb). reflexivity.
  - intros payload Hno. destruct payload; try reflexivity.
    exfalso. exact (Hno members eq_refl).
Qed.

Lemma extractChatId_yields_a_usable_id_witness :
  NearAI.extractChatId
    (NearAI.JObject [("id", NearAI.JString "chatcmpl-1");
                     ("chat_id", NearAI.JString "chat-1")]) = Some "chat-1"
  /\ JS.isBlank "chat-1" = false
  /\ NearAI.extractChatId (NearAI.JString "chat-1") = None.
Proof.
  destruct extractChatId_yields_a_usable_id as (H1 & H2 & H3).
  assert (E : NearAI.extractChatId
                (NearAI.JObject [("id", NearAI.JString "chatcmpl-1");
                                 ("chat_id", NearAI.JString "chat-1")]) = Some "chat-1")
    by (apply H2; reflexivity).
  split; [exact E|]. split; [exact (proj1 (H1 _ _ E))|].
  apply H3. intros members. discriminate.
Defined.

(* ================================================================== *)
(** ** The reading loop of the client *)

Lemma string_app_assoc (a b c : string) : (a ++ b) ++ c = a ++ b ++ c.
Proof. induction a as [|x a IH]; simpl; [reflexivity | rewrite IH; reflexivity]. Qed.

Lemma string_app_nil_r (a : string) : a ++ EmptyString = a.
Proof. induction a as [|x a IH]; simpl; [reflexivity | rewrite IH; reflexivity]. Qed.

Lemma join_empty_cons (p : string) (l : list string) :
  JS.join EmptyString (p :: l) = p ++ JS.join EmptyString l.
Proof.
  destruct l as [|q l].
  - cbn [JS.join]. symmetry. apply string_app_nil_r.
  - reflexivity.
Qed.

Lemma join_empty_snoc (l : list string) (t : string) :
  JS.join EmptyString (l ++ [t])%list = JS.join EmptyString l ++ t.
Proof.
  induction l as [|p l IH].
  - reflexivity.
  - change ((p :: l) ++ [t])%list with (p :: (l ++ [t]))%list.
    rewrite !join_empty_cons, IH. symmetry. apply string_app_assoc.
Qed.

Lemma fold_left_invariant {A B : Type} (P : A -> Prop) (f : A -> B -> A) :
  (forall a b, P a -> P (f a b)) ->
  forall (l : list B) (a : A), P a -> P (fold_left f l a).
Proof.
  intros Hstep l. induction l as [|b l IH]; intros a Ha; [exact Ha|].
  simpl. apply IH. apply Hstep. exact Ha.
Qed.

Section ReadingLoop.

Variable JSON_parse : string -> option NearAI.Json.

Lemma emit_textIsTokens (content : option NearAI.Json) (st : NearAI.LoopState) :
  textIsTokens st -> textIsTokens (NearAI.emit content st).
Proof.
  intros [Ht Hne]. unfold NearAI.emit.
  destruct content as [[ | | |token| | ]|]; try (split; assumption).
  destruct (JS.truthy_string token) eqn:E; [|split; assumption].
  split; cbn [NearAI.l_responseText NearAI.l_tokens].
  - rewrite join_empty_snoc, Ht. reflexivity.
  - apply Forall_app. split; [exact Hne|].
    constructor; [|constructor]. apply truthy_string_true. exact E.
Qed.

Lemma handleEvent_textIsTokens (st : NearAI.LoopState) (ev : string) :
  textIsTokens st -> textIsTokens (NearAI.handleEvent JSON_parse st ev).
Proof.
  intros H. unfold NearAI.handleEvent.
  destruct (String.eqb ev "[DONE]"); [exact H|].
  destruct (JSON_parse ev) as [json|]; [|exact H].
  cbv zeta. apply emit_textIsTokens. apply emit_textIsTokens.
  destruct (negb (JS.truthy_opt (NearAI.l_chatId st))); [|exact H].
  destruct (NearAI.extractChatId json) as [extracted|]; [|exact H].
  destruct (JS.truthy_string extracted); exact H.
Qed.

Lemma readValue_textIsTokens (st : NearAI.LoopState) (value : option string) :
  textIsTokens st -> textIsTokens (NearAI.readValue JSON_parse st value).
Proof.
  intros H. destruct value as [chunk|]; [|exact H].
  unfold NearAI.readValue. cbv zeta.
  apply fold_left_invariant; [apply handleEvent_textIsTokens | exact H].
Qed.

Lemma emit_chatId (content : option NearAI.Json) (st : NearAI.LoopState) :
  NearAI.l_chatId (NearAI.emit content st) = NearAI.l_chatId st.
Proof.
  unfold NearAI.emit.
  destruct content as [[ | | |token| | ]|]; try reflexivity.
  destruct (JS.truthy_string token); reflexivity.
Qed.

Lemma handleEvent_idIsSet (h : string) (st : NearAI.LoopState) (ev : string) :
  idIsSet h st -> idIsSet h (NearAI.handleEvent JSON_parse st ev).
Proof.
  intros [Hid Ht]. unfold NearAI.handleEvent.
  destruct (String.eqb ev "[DONE]"); [split; assumption|].
  destruct (JSON_parse ev) as [json|]; [|split; assumption].
  cbv zeta. split; [|exact Ht]. rewrite !emit_chatId.
  rewrite Hid. cbn [JS.truthy_opt]. rewrite Ht. exact Hid.
Qed.

Lemma readValue_idIsSet (h : string) (st : NearAI.LoopState) (value : option string) :
  idIsSet h st -> idIsSet h (NearAI.readValue JSON_parse st value).
Proof.
  intros H. destruct value as [chunk|]; [|exact H].
  unfold NearAI.readValue. cbv zeta.
  apply fold_left_invariant; [apply handleEvent_idIsSet | exact H].
Qed.

Lemma handleEvent_idIsUsable (st : NearAI.LoopState) (ev : string) :
  idIsUsable st -> idIsUsable (NearAI.handleEvent JSON_parse st ev).
Proof.
  intros H c. unfold NearAI.handleEvent.
  destruct (String.eqb ev "[DONE]"); [apply H|].
  destruct (JSON_parse ev) as [json|]; [|apply H].
  cbv zeta. rewrite !emit_chatId.
  destruct (negb (JS.truthy_opt (NearAI.l_chatId st))); [|apply H].
  destruct (NearAI.extractChatId json) as [extracted|]; [|apply H].
  destruct (JS.truthy_string extracted) eqn:E; [|apply H].
  cbn [NearAI.l_chatId]. intros Hc. inversion Hc; subst.
  apply truthy_string_true. exact E.
Qed.

Lemma readValue_idIsUsable (st : NearAI.LoopState) (value : option string) :
  idIsUsable st -> idIsUsable (NearAI.readValue JSON_parse st value).
Proof.
  intros H. destruct value as [chunk|]; [|exact H].
  unfold NearAI.readValue. cbv zeta.
  apply fold_left_invariant; [apply handleEvent_idIsUsable | exact H].
Qed.

Lemma headerChatId_truthy (header : string -> option string) (h : string) :
  NearAI.headerChatId header = Some h -> JS.truthy_string h = true.
Proof.
  unfold NearAI.headerChatId. cbv zeta.
  destruct (JS.truthy_opt (JS.or_field (header "x-chat-id") (header "chat-id"))) eqn:E1.
  - intros Hh. rewrite Hh in E1. exact E1.
  - destruct (JS.truthy_opt (JS.or_field (header "x-request-id") (header "request-id")))
      eqn:E2; [|discriminate].
    intros Hh. rewrite Hh in E2. exact E2.
Qed.

(** X17. The text that [streamChatCompletion] returns is the
    concatenation, in order, of the tokens it handed to [onToken], and no
    token handed out is empty. *)
Theorem responseText_is_the_tokens :
  forall (params : NearAI.StreamChatCompletionParams) (resp : NearAI.HttpStream)
         (result : NearAI.StreamChatCompletionResult) (tokens : list string),
    NearAI.streamChatCompletion JSON_parse params resp = inr (result, tokens) ->
    NearAI.r_responseText result = JS.join EmptyString tokens
    /\ Forall (fun t => t <> EmptyString) tokens.
Proof.
  intros params resp result tokens H. unfold NearAI.streamChatCompletion in H.
  cbv zeta in H.
  destruct (NearAI.hs_ok resp); [|discriminate].
  destruct (NearAI.hs_body resp) as [reads|]; [|discriminate].
  inversion H; subst; clear H. cbn [NearAI.r_responseText].
  apply (fold_left_invariant textIsTokens (NearAI.readValue JSON_parse)).
  - intros a b. apply readValue_textIsTokens.
  - split; [reflexivity | constructor].
Qed.

(** X18. The chat id that [streamChatCompletion] returns is never the
    empty string, and an id found in the headers of the response
    ([x-chat-id], [chat-id], then [x-request-id], [request-id]) is the one
    returned, whatever ids the events of the body carry. *)
Theorem chatId_from_headers_wins :
  forall (params : NearAI.StreamChatCompletionParams) (resp : NearAI.HttpStream)
         (result : NearAI.StreamChatCompletionResult) (tokens : list string),
    NearAI.streamChatCompletion JSON_parse params resp = inr (result, tokens) ->
    (forall c, NearAI.r_chatId result = Some c -> c <> EmptyString)
    /\ (forall h, NearAI.headerChatId (NearAI.hs_header resp) = Some h ->
                  NearAI.r_chatId result = Some h).
Proof.
  intros params resp result tokens H. unfold NearAI.streamChatCompletion in H.
  cbv zeta in H.
  destruct (NearAI.hs_ok resp); [|discriminate].
  destruct (NearAI.hs_body resp) as [reads|]; [|discriminate].
  inversion H; subst; clear H. cbn [NearAI.r_chatId]. split.
  - apply (fold_left_invariant idIsUsable (NearAI.readValue JSON_parse)).
    + intros a b. apply readValue_idIsUsable.
    + intros c Hc. cbn [NearAI.l_chatId] in Hc.
      apply truthy_string_true. exact (headerChatId_truthy _ _ Hc).
  - intros h Hh.
    apply (fold_left_invariant (idIsSet h) (NearAI.readValue JSON_parse)).
    + intros a b. apply readValue_idIsSet.
    + split; [exact Hh | exact (headerChatId_truthy _ _ Hh)].
Qed.

End ReadingLoop.

Lemma responseText_is_the_tokens_witness :
  NearAI.streamChatCompletion Sample.parse Sample.chat
    (delivering (Sample.okResponse Sample.noHeaders) Sample.helloStream)
  = inr (Sample.helloResult "chatcmpl-1", ["Hel"; "lo"])
  /\ NearAI.r_responseText (Sample.helloResult "chatcmpl-1")
     = JS.join EmptyString ["Hel"; "lo"]
  /\ Forall (fun t => t <> EmptyString) ["Hel"; "lo"].
Proof.
  split; [reflexivity|].
  exact (responseText_is_the_tokens Sample.parse Sample.chat
           (delivering (Sample.okResponse Sample.noHeaders) Sample.helloStream)
           (Sample.helloResult "chatcmpl-1") ["Hel"; "lo"] eq_refl).
Defined.

Lemma chatId_from_headers_wins_witness :
  NearAI.streamChatCompletion Sample.parse Sample.chat
    (delivering (Sample.okResponse Sample.requestIdOnly) Sample.helloStream)
  = inr (Sample.helloResult "req-7", ["Hel"; "lo"])
  /\ NearAI.headerChatId Sample.requestIdOnly = Some "req-7"
  /\ NearAI.r_chatId (Sample.helloResult "req-7") = Some "req-7".
Proof.
  split; [reflexivity|]. split; [reflexivity|].
  exact (proj2 (chatId_from_headers_wins Sample.parse Sample.chat
                  (delivering (Sample.okResponse Sample.requestIdOnly) Sample.helloStream)
                  (Sample.helloResult "req-7") ["Hel"; "lo"] eq_refl)
               "req-7" eq_refl).
Defined.

(* ================================================================== *)
(** ** Where the chunks of the body are cut *)

Lemma lastIndexOf_app_nl2 (a : string) :
  JS.lastIndexOf nl2 (a ++ nl2) = Some (String.length a).
Proof.
  induction a as [|c a IH].
  - reflexivity.
  - change (String c a ++ nl2) with (String c (a ++ nl2)).
    cbn [JS.lastIndexOf]. rewrite IH. reflexivity.
Qed.

Lemma slice_app (a b : string) (n : nat) :
  JS.slice (String.length a + n) (a ++ b) = JS.slice n b.
Proof. induction a as [|c a IH]; [reflexivity | exact IH]. Qed.

Lemma parseSSE_app_nl2 (a : string) :
  endsWithChar NearAI.newline a = false ->
  NearAI.parseSSE (a ++ nl2) = NearAI.parseSSE a.
Proof.
  intros Hend. replace (a ++ nl2) with (a ++ nl2 ++ EmptyString) by (f_equal).
  rewrite parseSSE_app_blank_line by exact Hend. apply app_nil_r.
Qed.

Lemma withBuffer_withBuffer (b b' : string) (st : NearAI.LoopState) :
  withBuffer b (withBuffer b' st) = withBuffer b st.
Proof. reflexivity. Qed.

Lemma withBuffer_same (st : NearAI.LoopState) :
  withBuffer (NearAI.l_sseBuffer st) st = st.
Proof. destruct st; reflexivity. Qed.

Lemma emit_withBuffer (content : option NearAI.Json) (b : string) (st : NearAI.LoopState) :
  NearAI.emit content (withBuffer b st) = withBuffer b (NearAI.emit content st).
Proof.
  unfold NearAI.emit.
  destruct content as [[ | | |token| | ]|]; try reflexivity.
  destruct (JS.truthy_string token); reflexivity.
Qed.

Section Chunks.

Variable JSON_parse : string -> option NearAI.Json.

Lemma handleEvent_withBuffer (b : string) (st : NearAI.LoopState) (ev : string) :
  NearAI.handleEvent JSON_parse (withBuffer b st) ev
  = withBuffer b (NearAI.handleEvent JSON_parse st ev).
Proof.
  unfold NearAI.handleEvent.
  destruct (String.eqb ev "[DONE]"); [reflexivity|].
  destruct (JSON_parse ev) as [json|]; [|reflexivity].
  cbv zeta. rewrite <- !emit_withBuffer. f_equal. f_equal.
  change (NearAI.l_chatId (withBuffer b st)) with (NearAI.l_chatId st).
  destruct (negb (JS.truthy_opt (NearAI.l_chatId st))); [|reflexivity].
  destruct (NearAI.extractChatId json) as [extracted|]; [|reflexivity].
  destruct (JS.truthy_string extracted); reflexivity.
Qed.

Lemma handleEvents_withBuffer (b : string) (evs : list string) :
  forall st : NearAI.LoopState,
    fold_left (NearAI.handleEvent JSON_parse) evs (withBuffer b st)
    = withBuffer b (fold_left (NearAI.handleEvent JSON_parse) evs st).
Proof.
  induction evs as [|ev evs IH]; intros st; [reflexivity|].
  cbn [fold_left]. rewrite handleEvent_withBuffer. apply IH.
Qed.

(** A read whose chunk carries no blank line: the events of the whole
    buffer are handled and the whole buffer is kept. *)
Lemma readValue_without_blank_line (st : NearAI.LoopState) (chunk : string) :
  JS.lastIndexOf nl2 (NearAI.l_sseBuffer st ++ chunk) = None ->
  NearAI.readValue JSON_parse st (Some chunk)
  = withBuffer (NearAI.l_sseBuffer st ++ chunk)
      (fold_left (NearAI.handleEvent JSON_parse)
                 (NearAI.parseSSE (NearAI.l_sseBuffer st ++ chunk)) st).
Proof.
  intros Hlast. unfold NearAI.readValue. cbv zeta. rewrite Hlast.
  apply (handleEvents_withBuffer _ _ st).
Qed.

(** A read whose chunk ends with a blank line: the events of the buffer
    are handled and nothing is kept. *)
Lemma readValue_eventChunk (st : NearAI.LoopState) (a : string) :
  endsWithChar NearAI.newline (NearAI.l_sseBuffer st ++ a) = false ->
  NearAI.readValue JSON_parse st (Some (eventChunk a))
  = withBuffer EmptyString
      (fold_left (NearAI.handleEvent JSON_parse)
                 (NearAI.parseSSE (NearAI.l_sseBuffer st ++ a)) st).
Proof.
  intros Hend. unfold NearAI.readValue, eventChunk. cbv zeta.
  rewrite <- string_app_assoc.
  rewrite lastIndexOf_app_nl2, slice_app, (parseSSE_app_nl2 _ Hend).
  apply (handleEvents_withBuffer _ _ st).
Qed.

Lemma readValues_eventChunks (bodies : list string) :
  Forall (fun a => endsWithChar NearAI.newline a = false) bodies ->
  forall st : NearAI.LoopState,
    fold_left (NearAI.readValue JSON_parse)
              (map (fun a => Some (eventChunk a)) bodies) (withBuffer EmptyString st)
    = withBuffer EmptyString
        (fold_left (NearAI.handleEvent JSON_parse)
                   (flat_map NearAI.parseSSE bodies) st).
Proof.
  induction 1 as [|a bodies Ha _ IH]; intros st; [reflexivity|].
  cbn [map fold_left flat_map]. rewrite readValue_eventChunk by exact Ha.
  cbn [NearAI.l_sseBuffer withBuffer append].
  change (NearAI.mkLoopState (NearAI.l_chatId st) (NearAI.l_responseText st)
                             EmptyString (NearAI.l_tokens st))
    with (withBuffer EmptyString st).
  rewrite handleEvents_withBuffer, withBuffer_withBuffer, IH, fold_left_app.
  reflexivity.
Qed.

Lemma parseSSE_eventChunks (bodies : list string) :
  Forall (fun a => endsWithChar NearAI.newline a = false) bodies ->
  NearAI.parseSSE (JS.join EmptyString (map eventChunk bodies))
  = flat_map NearAI.parseSSE bodies.
Proof.
  induction 1 as [|a bodies Ha _ IH]; [reflexivity|].
  cbn [map flat_map]. rewrite join_empty_cons. unfold eventChunk at 1.
  rewrite string_app_assoc, parseSSE_app_blank_line by exact Ha.
  rewrite IH. reflexivity.
Qed.

(** X19. Chunks cut at blank lines are read as one: when every chunk of
    the body is a text that does not end with a newline, followed by a
    blank line, [streamChatCompletion] returns the same result and hands
    out the same tokens as when the body arrives in one chunk. *)
Theorem chunks_cut_at_blank_lines_read_as_one :
  forall (params : NearAI.StreamChatCompletionParams) (resp : NearAI.HttpStream)
         (bodies : list string),
    Forall (fun a => endsWithChar NearAI.newline a = false) bodies ->
    NearAI.streamChatCompletion JSON_parse params
      (delivering resp (map (fun a => Some (eventChunk a)) bodies))
    = NearAI.streamChatCompletion JSON_parse params
        (delivering resp [Some (JS.join EmptyString (map eventChunk bodies))]).
Proof.
  intros params resp bodies Hb. unfold NearAI.streamChatCompletion, delivering.
  cbv zeta. cbn [NearAI.hs_ok NearAI.hs_body NearAI.hs_header NearAI.hs_text
                 NearAI.hs_status NearAI.hs_statusText].
  destruct (NearAI.hs_ok resp); [|reflexivity].
  set (init := NearAI.mkLoopState (NearAI.headerChatId (NearAI.hs_header resp))
                                  EmptyString EmptyString []).
  assert (Hparts : fold_left (NearAI.readValue JSON_parse)
                             (map (fun a => Some (eventChunk a)) bodies) init
                   = withBuffer EmptyString
                       (fold_left (NearAI.handleEvent JSON_parse)
                                  (flat_map NearAI.parseSSE bodies) init)).
  { exact (readValues_eventChunks bodies Hb init). }
  assert (Hwhole : exists rest,
             fold_left (NearAI.readValue JSON_parse)
                       [Some (JS.join EmptyString (map eventChunk bodies))] init
             = withBuffer rest
                 (fold_left (NearAI.handleEvent JSON_parse)
                            (flat_map NearAI.parseSSE bodies) init)).
  { cbn [fold_left]. unfold NearAI.readValue. cbv zeta.
    change (NearAI.l_sseBuffer init ++ JS.join EmptyString (map eventChunk bodies))
      with (JS.join EmptyString (map eventChunk bodies)).
    rewrite (parseSSE_eventChunks bodies Hb).
    eexists. apply (handleEvents_withBuffer _ _ init). }
  destruct Hwhole as [rest Hwhole].
  rewrite Hparts, Hwhole. reflexivity.
Qed.

(** X20. An event whose blank line arrives in the next chunk is handled
    twice: when a chunk holds no blank line and does not end with a
    newline, and the next chunk is the blank line, [streamChatCompletion]
    returns the result and hands out the tokens of a body that delivers
    the whole event two times. *)
Theorem event_cut_before_its_blank_line_is_handled_twice :
  forall (params : NearAI.StreamChatCompletionParams) (resp : NearAI.HttpStream)
         (a : string),
    JS.lastIndexOf nl2 a = None ->
    endsWithChar NearAI.newline a = false ->
    NearAI.streamChatCompletion JSON_parse params
      (delivering resp [Some a; Some nl2])
    = NearAI.streamChatCompletion JSON_parse params
        (delivering resp [Some (eventChunk a); Some (eventChunk a)]).
Proof.
  intros params resp a Hlast Hend. unfold NearAI.streamChatCompletion, delivering.
  cbv zeta. cbn [NearAI.hs_ok NearAI.hs_body NearAI.hs_header NearAI.hs_text
                 NearAI.hs_status NearAI.hs_statusText].
  destruct (NearAI.hs_ok resp); [|reflexivity].
  set (init := NearAI.mkLoopState (NearAI.headerChatId (NearAI.hs_header resp))
                                  EmptyString EmptyString []).
  set (handle := fold_left (NearAI.handleEvent JSON_parse) (NearAI.parseSSE a)).
  assert (Hleft : fold_left (NearAI.readValue JSON_parse) [Some a; Some nl2] init
                  = withBuffer EmptyString (handle (handle init))).
  { cbn [fold_left].
    rewrite (readValue_without_blank_line init a) by exact Hlast.
    change (NearAI.l_sseBuffer init ++ a) with a.
    change nl2 with (eventChunk EmptyString).
    rewrite readValue_eventChunk;
      cbn [withBuffer NearAI.l_sseBuffer]; rewrite string_app_nil_r;
      [|exact Hend].
    fold handle.
    change (NearAI.mkLoopState (NearAI.l_chatId (handle init))
                               (NearAI.l_responseText (handle init)) a
                               (NearAI.l_tokens (handle init)))
      with (withBuffer a (handle init)).
    unfold handle at 1. rewrite handleEvents_withBuffer. reflexivity. }
  assert (Hright : fold_left (NearAI.readValue JSON_parse)
                             [Some (eventChunk a); Some (eventChunk a)] init
                   = withBuffer EmptyString (handle (handle init))).
  { cbn [fold_left].
    rewrite (readValue_eventChunk init a) by exact Hend.
    change (NearAI.l_sseBuffer init ++ a) with a. fold handle.
    rewrite readValue_eventChunk; cbn [withBuffer NearAI.l_sseBuffer append];
      [|exact Hend].
    fold handle.
    change (NearAI.mkLoopState (NearAI.l_chatId (handle init))
                               (NearAI.l_responseText (handle init)) EmptyString
                               (NearAI.l_tokens (handle init)))
      with (withBuffer EmptyString (handle init)).
    unfold handle at 1. rewrite handleEvents_withBuffer. reflexivity. }
  rewrite Hleft, Hright. reflexivity.
Qed.

End Chunks.

Lemma chunks_cut_at_blank_lines_read_as_one_witness :
  Forall (fun a => endsWithChar NearAI.newline a = false) Sample.helloBodies
  /\ NearAI.streamChatCompletion Sample.parse Sample.chat
       (delivering (Sample.okResponse Sample.noHeaders)
                   (map (fun a => Some (eventChunk a)) Sample.helloBodies))
     = NearAI.streamChatCompletion Sample.parse Sample.chat
         (delivering (Sample.okResponse Sample.noHeaders)
                     [Some (JS.join EmptyString (map eventChunk Sample.helloBodies))]).
Proof.
  assert (H : Forall (fun a => endsWithChar NearAI.newline a = false) Sample.helloBodies).
  { unfold Sample.helloBodies.
    constructor; [reflexivity|]. constructor; [reflexivity|].
    constructor; [reflexivity|]. constructor. }
  split; [exact H|].
  exact (chunks_cut_at_blank_lines_read_as_one Sample.parse Sample.chat
           (Sample.okResponse Sample.noHeaders) Sample.helloBodies H).
Defined.

Lemma event_cut_before_its_blank_line_is_handled_twice_witness :
  JS.lastIndexOf nl2 (Sample.dataLine (Sample.deltaText "chatcmpl-1" "Hel")) = None
  /\ endsWithChar NearAI.newline
       (Sample.dataLine (Sample.deltaText "chatcmpl-1" "Hel")) = false
  /\ NearAI.streamChatCompletion Sample.parse Sample.chat
       (delivering (Sample.okResponse Sample.noHeaders)
                   [Some (Sample.dataLine (Sample.deltaText "chatcmpl-1" "Hel"));
                    Some nl2])
     = NearAI.streamChatCompletion Sample.parse Sample.chat
         (delivering (Sample.okResponse Sample.noHeaders)
            [Some (eventChunk (Sample.dataLine (Sample.deltaText "chatcmpl-1" "Hel")));
             Some (eventChunk (Sample.dataLine (Sample.deltaText "chatcmpl-1" "Hel")))])
  /\ NearAI.streamChatCompletion Sample.parse Sample.chat
       (delivering (Sample.okResponse Sample.noHeaders)
                   [Some (Sample.dataLine (Sample.deltaText "chatcmpl-1" "Hel"));
                    Some nl2])
     = inr (Sample.stutter, ["Hel"; "Hel"]).
Proof.
  split; [reflexivity|]. split; [reflexivity|].
  split; [|reflexivity].
  exact (event_cut_before_its_blank_line_is_handled_twice Sample.parse Sample.chat
           (Sample.okResponse Sample.noHeaders)
           (Sample.dataLine (Sample.deltaText "chatcmpl-1" "Hel")) eq_refl eq_refl).
Defined.
